(** * green_moment_BE: the live generation pipeline (live_pipeline_final.py)

    A shallow embedding of [live_pipeline_final.py] and the properties its
    specification states about it.

    Conventions of the embedding.
    - A Python [str] is the list of its Unicode code points ([pystr]); string
      constants of the source are written as UTF-8 literals and decoded by
      [u8].
    - A JSON document loaded by [json.load] is a value of [json]; objects keep
      their items in insertion order.
    - Python exceptions are explicit: a computation returns [Ok v] or
      [Raise e] ([py_result]).
    - A Python float is a rational, an infinity or NaN ([pyfloat]). A net
      power is a binary64 number: [binary64] rounds the decimal of the feed
      to the nearest one, ties to even, and the sum of a group is the sum
      pandas computes, addition by addition in binary64 ([group_sum]).
    - A forecast value or a load, which the pipeline converts and hands to
      numpy or writes out, is represented by the exact rational the source
      text denotes; its rounding to 53 bits is not modelled, the overflow to
      infinity and the NaN value are ([FInf], [FNan]).
    - A data frame is the list of its rows; a file is what it holds, a
      missing file is [None].
    - What the Python runtime and pandas supply as tables or parsers (the
      table of Unicode decimal digits behind [\d] and [float], the timestamp
      parser [pd.to_datetime], numpy's [mean] and [round]) is a parameter of
      the model: the variables of the section [Pipeline]. *)

From Stdlib Require Import ZArith NArith QArith Qcanon String Ascii List Lia Permutation.
From stdpp Require Import base option list gmap sorting.

Local Open Scope Z_scope.
#[local] Set Warnings "-register-all,-clear-no-such-hyp".

(** ** Python strings *)

Definition pystr := list N.

(** Decoding of a UTF-8 literal into code points. [pending] counts the
    continuation bytes still expected and [acc] holds the bits read so far. *)
Fixpoint utf8_decode (pending : nat) (acc : N) (bs : list N) : pystr :=
  match bs with
  | [] => []
  | b :: bs' =>
      match pending with
      | O =>
          if (b <? 128)%N then b :: utf8_decode 0 0%N bs'
          else if (b <? 224)%N then utf8_decode 1 (b - 192)%N bs'
          else if (b <? 240)%N then utf8_decode 2 (b - 224)%N bs'
          else utf8_decode 3 (b - 240)%N bs'
      | S k =>
          let acc' := (acc * 64 + (b - 128))%N in
          match k with
          | O => acc' :: utf8_decode 0 0%N bs'
          | S _ => utf8_decode k acc' bs'
          end
      end
  end.

Definition u8 (s : string) : pystr :=
  utf8_decode 0 0%N (List.map N_of_ascii (list_ascii_of_string s)).

Definition pystr_eqb (a b : pystr) : bool := bool_decide (a = b).

(** [p] is a prefix of [s]. *)
Fixpoint starts_with (p s : pystr) : bool :=
  match p, s with
  | [], _ => true
  | _ :: _, [] => false
  | a :: p', b :: s' => (a =? b)%N && starts_with p' s'
  end.

(** Python's [sub in s] on strings. *)
Fixpoint py_contains (sub s : pystr) : bool :=
  starts_with sub s ||
  match s with
  | [] => false
  | _ :: s' => py_contains sub s'
  end.

(** [str.isspace] for one character: the code points Python treats as
    whitespace. *)
Definition py_isspace (c : N) : bool :=
  ((9 <=? c) && (c <=? 13) || (28 <=? c) && (c <=? 32) || (c =? 133) ||
   (c =? 160) || (c =? 5760) || (8192 <=? c) && (c <=? 8202) ||
   (c =? 8232) || (c =? 8233) || (c =? 8239) || (c =? 8287) ||
   (c =? 12288))%N.

Fixpoint py_lstrip (s : pystr) : pystr :=
  match s with
  | [] => []
  | c :: s' => if py_isspace c then py_lstrip s' else s
  end.

Definition py_rstrip (s : pystr) : pystr := rev (py_lstrip (rev s)).

(** [str.strip()] *)
Definition py_strip (s : pystr) : pystr := py_rstrip (py_lstrip s).

(** [str.replace(old, new)] for a non-empty [old]: the occurrences are
    replaced from left to right and do not overlap. [skip] counts the
    characters of an occurrence that are still to be dropped. *)
Fixpoint py_replace_from (old new : pystr) (skip : nat) (s : pystr) : pystr :=
  match s with
  | [] => []
  | c :: s' =>
      match skip with
      | S k => py_replace_from old new k s'
      | O =>
          if starts_with old s
          then new ++ py_replace_from old new (length old - 1) s'
          else c :: py_replace_from old new 0 s'
      end
  end.

Definition py_replace (old new s : pystr) : pystr :=
  py_replace_from old new 0 s.

(** The whitespace [float] strips from the ends of its argument: the C
    locale's ([Py_ISSPACE]) among ASCII, any Unicode whitespace beyond. *)
Definition float_isspace (c : N) : bool :=
  ((9 <=? c) && (c <=? 13) || (c =? 32) || (128 <=? c) && py_isspace c)%N.

Fixpoint float_lstrip (s : pystr) : pystr :=
  match s with
  | [] => []
  | c :: s' => if float_isspace c then float_lstrip s' else s
  end.

Definition float_strip (s : pystr) : pystr :=
  rev (float_lstrip (rev (float_lstrip s))).

(** ** Exceptions *)

Inductive exn :=
  | KeyError | IndexError | TypeError | ValueError
  | OverflowError | AttributeError | OSError.

Inductive py_result (A : Type) :=
  | Ok (a : A)
  | Raise (e : exn).
Arguments Ok {A} a.
Arguments Raise {A} e.

#[global] Instance py_result_ret : MRet py_result := fun _ a => Ok a.
#[global] Instance py_result_bind : MBind py_result := fun _ _ f m =>
  match m with
  | Ok a => f a
  | Raise e => Raise e
  end.

(** [try: body except (classes): handler] for a handler that returns a
    value. *)
Definition try_except {A} (body : py_result A) (caught : exn -> bool)
    (handler : py_result A) : py_result A :=
  match body with
  | Ok a => Ok a
  | Raise e => if caught e then handler else Raise e
  end.

(** ** Python floats *)

Inductive pyfloat :=
  | FFin (q : Qc)
  | FInf (negative : bool)
  | FNan.

Definition is_finite (f : pyfloat) : bool :=
  match f with FFin _ => true | _ => false end.

(** The least magnitude that rounds to infinity in binary64:
    2^1024 - 2^970, halfway between the largest double and 2^1024. *)
Definition float_overflow_bound : Z := 2 ^ 1024 - 2 ^ 970.

Definition Zc (z : Z) : Qc := Q2Qc (inject_Z z).

Definition is_nan (f : pyfloat) : bool :=
  match f with FNan => true | _ => false end.

(** *** Binary64 arithmetic *)

(** The integer nearest to [n / d]; when [n / d] lies halfway between two
    integers, the even one. *)
Definition round_half_even (n : Z) (d : positive) : Z :=
  let q := n / Z.pos d in
  match 2 * (n mod Z.pos d) ?= Z.pos d with
  | Lt => q
  | Gt => q + 1
  | Eq => if Z.even q then q else q + 1
  end.

(** [n / d] divided by [2 ^ e], as a fraction. *)
Definition scale2 (n : Z) (d : positive) (e : Z) : Z * positive :=
  (n * 2 ^ Z.max 0 (- e), (d * Z.to_pos (2 ^ Z.max 0 e))%positive).

(** The exponent of the binary64 numbers around [n / d], for [n] other than
    0: with [2 ^ e <= |n / d| < 2 ^ (e + 1)] they are the multiples of
    [2 ^ (e - 52)], and the subnormal ones are the multiples of
    [2 ^ -1074]. *)
Definition quantum_exponent (n : Z) (d : positive) : Z :=
  let e0 := Z.log2 (Z.abs n) - Z.log2 (Z.pos d) in
  let '(n0, d0) := scale2 (Z.abs n) d e0 in
  let e := if n0 <? Z.pos d0 then e0 - 1 else e0 in
  Z.max (e - 52) (-1074).

(** The binary64 number nearest to a rational, ties to even; the infinity of
    its sign when that is [2 ^ 1024] or beyond. *)
Definition binary64 (q : Qc) : pyfloat :=
  let n := Qnum q in
  let d := Qden q in
  if n =? 0 then FFin q
  else
    let e := quantum_exponent n d in
    let '(n1, d1) := scale2 n d e in
    let m := round_half_even n1 d1 in
    if 2 ^ 1024 <=? Z.abs m * 2 ^ Z.max 0 e then FInf (n <? 0)
    else FFin (Q2Qc (m * 2 ^ Z.max 0 e # Z.to_pos (2 ^ Z.max 0 (- e)))).

(** [a + b] on binary64 numbers. *)
Definition float_add (a b : pyfloat) : pyfloat :=
  match a, b with
  | FNan, _ | _, FNan => FNan
  | FInf s, FInf t => if Bool.eqb s t then FInf s else FNan
  | FInf s, FFin _ | FFin _, FInf s => FInf s
  | FFin x, FFin y => binary64 (x + y)
  end.

(** [a - b] on binary64 numbers. *)
Definition float_sub (a b : pyfloat) : pyfloat :=
  float_add a
    match b with
    | FFin y => FFin (- y)
    | FInf s => FInf (negb s)
    | FNan => FNan
    end.

(** One round of the loop of pandas' [group_sum] for a group: Kahan's
    compensated addition of [val] to the pair of the running sum and the
    compensation. A NaN is passed over; a compensation that comes out as
    NaN, as it does once the sum is infinite, is set back to 0 (pandas 2.1
    and later). *)
Definition kahan_add (state : pyfloat * pyfloat) (val : pyfloat)
    : pyfloat * pyfloat :=
  let '(sumx, compensation) := state in
  if is_nan val then state
  else
    let y := float_sub val compensation in
    let t := float_add sumx y in
    let c := float_sub (float_sub t sumx) y in
    (t, if is_nan c then FFin 0 else c).

(** The sum of the values of a group, in the order of the frame. *)
Definition group_sum (values : list pyfloat) : pyfloat :=
  (fold_left kahan_add values (FFin 0, FFin 0)).1.

(** ** JSON documents *)

Inductive json :=
  | JNull
  | JBool (b : bool)
  | JInt (z : Z)
  | JFloat (f : pyfloat)
  | JStr (s : pystr)
  | JList (items : list json)
  | JDict (items : list (pystr * json)).

(** Truth value of a Python object ([if x], [not x], [x or y]). *)
Definition truthy (v : json) : bool :=
  match v with
  | JNull => false
  | JBool b => b
  | JInt z => negb (z =? 0)
  | JFloat (FFin q) => negb (bool_decide (q = Zc 0))
  | JFloat _ => true
  | JStr s => negb (bool_decide (s = []))
  | JList l => negb (bool_decide (l = []))
  | JDict l => negb (bool_decide (l = []))
  end.

Definition is_str (s : pystr) (v : json) : bool :=
  match v with
  | JStr s' => pystr_eqb s' s
  | _ => false
  end.

Fixpoint assoc_lookup (k : pystr) (items : list (pystr * json)) : option json :=
  match items with
  | [] => None
  | (k', v) :: rest => if pystr_eqb k' k then Some v else assoc_lookup k rest
  end.

(** [k in d] for a string [k]: key membership in a dict, element membership
    in a list, substring test in a string, [TypeError] on anything else. *)
Definition py_in (k : pystr) (d : json) : py_result bool :=
  match d with
  | JDict items => Ok (bool_decide (is_Some (assoc_lookup k items)))
  | JList l => Ok (existsb (is_str k) l)
  | JStr s => Ok (py_contains k s)
  | _ => Raise TypeError
  end.

(** [d[k]] for a string [k]. *)
Definition py_getitem (d : json) (k : pystr) : py_result json :=
  match d with
  | JDict items =>
      match assoc_lookup k items with
      | Some v => Ok v
      | None => Raise KeyError
      end
  | _ => Raise TypeError
  end.

(** [d[0]]: the first element of a list, the first character of a string;
    a dict loaded from JSON has no integer key. *)
Definition py_first (d : json) : py_result json :=
  match d with
  | JList (v :: _) => Ok v
  | JList [] => Raise IndexError
  | JStr (c :: _) => Ok (JStr [c])
  | JStr [] => Raise IndexError
  | JDict _ => Raise KeyError
  | _ => Raise TypeError
  end.

(** The elements a [for] loop or a generator visits. *)
Definition py_iter (d : json) : py_result (list json) :=
  match d with
  | JList l => Ok l
  | JDict items => Ok (List.map (fun kv => JStr (fst kv)) items)
  | JStr s => Ok (List.map (fun c => JStr [c]) s)
  | _ => Raise TypeError
  end.

(** [get_case_insensitive_key(d, key_variants, default)] *)
Fixpoint get_case_insensitive_key (d : json) (key_variants : list pystr)
    (default : json) : py_result json :=
  match key_variants with
  | [] => Ok default
  | k :: rest =>
      found ← py_in k d;
      if found : bool then py_getitem d k
      else get_case_insensitive_key d rest default
  end.

(** [next((x for x in xs if key(x) == wanted), None)] where [key] reads one
    of the [names]. *)
Fixpoint find_by_name (names : list pystr) (wanted : pystr) (xs : list json)
    : py_result json :=
  match xs with
  | [] => Ok JNull
  | x :: rest =>
      name ← get_case_insensitive_key x names JNull;
      if is_str wanted name then Ok x else find_by_name names wanted rest
  end.

(** Every integer of the document is within the range of a float. *)
Fixpoint ints_in_range (v : json) : bool :=
  match v with
  | JInt z => Z.abs z <? float_overflow_bound
  | JList items => forallb ints_in_range items
  | JDict items => forallb (fun kv => ints_in_range (snd kv)) items
  | _ => true
  end.

(** ** The runtime's tables and parsers, and the functions that use them *)

Section Pipeline.

(** The decimal digits beyond ASCII (general category Nd) with their values:
    the class [\d] and [float] accept them next to [0-9]. *)
Variable nd_digit : N -> option Z.

(** [pd.to_datetime(x).tz_convert(TAIWAN_TZ)]: the instant in seconds, [None]
    for NaT, or the exception raised. *)
Variable to_datetime : json -> py_result (option Z).

(** [round(np.mean(xs), 2)] on a non-empty list. *)
Variable np_mean_round2 : list pyfloat -> pyfloat.

(** The value of a decimal digit. No ASCII character but [0-9] and no
    whitespace is one. *)
Definition digit_value (c : N) : option Z :=
  if (c <? 128)%N
  then if ((48 <=? c) && (c <=? 57))%N then Some (Z.of_N c - 48) else None
  else if py_isspace c then None else nd_digit c.

Definition is_digit (c : N) : bool := bool_decide (is_Some (digit_value c)).

(** [digitpart ::= digit (["_"] digit)*]: the digits read and what follows
    them. An underscore is read only between two digits. *)
Fixpoint digitpart (after_digit : bool) (s : pystr) : list Z * pystr :=
  match s with
  | [] => ([], [])
  | c :: s' =>
      match digit_value c with
      | Some d => let '(ds, r) := digitpart true s' in (d :: ds, r)
      | None =>
          if (c =? 95)%N && after_digit &&
             match s' with c' :: _ => is_digit c' | [] => false end
          then digitpart false s'
          else ([], s)
      end
  end.

Definition digits_to_Z (ds : list Z) : Z :=
  fold_left (fun a d => 10 * a + d) ds 0.

(** An optional sign: whether it is a minus, and the rest. *)
Definition take_sign (s : pystr) : bool * pystr :=
  match s with
  | 43%N :: r => (false, r)
  | 45%N :: r => (true, r)
  | _ => (false, s)
  end.

Definition ascii_lower (c : N) : N :=
  if ((65 <=? c) && (c <=? 90))%N then (c + 32)%N else c.

(** The float denoted by mantissa [m >= 0] and decimal exponent [e]. *)
Definition decimal_float (negative : bool) (m e : Z) : pyfloat :=
  let overflow :=
    if 0 <=? e then float_overflow_bound <=? m * 10 ^ e
    else float_overflow_bound * 10 ^ (- e) <=? m in
  if overflow then FInf negative
  else
    let sm := if negative then - m else m in
    FFin (Q2Qc (if 0 <=? e then inject_Z (sm * 10 ^ e)
                else Qmake sm (Z.to_pos (10 ^ (- e))))).

(** [float(s)] on a string: [None] stands for [ValueError]. *)
Definition float_of_text (s : pystr) : option pyfloat :=
  let '(negative, body) := take_sign (float_strip s) in
  let word := List.map ascii_lower body in
  if pystr_eqb word (u8 "inf") || pystr_eqb word (u8 "infinity")
  then Some (FInf negative)
  else if pystr_eqb word (u8 "nan") then Some FNan
  else
    let '(ip, r1) := digitpart false body in
    let '(fp, r2) :=
      match r1 with
      | 46%N :: r => digitpart false r
      | _ => ([], r1)
      end in
    if bool_decide (ip = []) && bool_decide (fp = []) then None
    else
      let m := digits_to_Z (ip ++ fp) in
      let shift := Z.of_nat (length fp) in
      match r2 with
      | [] => Some (decimal_float negative m (- shift))
      | c :: r =>
          if ((c =? 101) || (c =? 69))%N then
            let '(eneg, r') := take_sign r in
            match digitpart false r' with
            | ((_ :: _) as ep, []) =>
                let ev := digits_to_Z ep in
                Some (decimal_float negative m
                        ((if eneg then - ev else ev) - shift))
            | _ => None
            end
          else None
      end.

(** [float(v)] *)
Definition py_float (v : json) : py_result pyfloat :=
  match v with
  | JStr s =>
      match float_of_text s with
      | Some f => Ok f
      | None => Raise ValueError
      end
  | JInt z =>
      if float_overflow_bound <=? Z.abs z then Raise OverflowError
      else Ok (FFin (Zc z))
  | JFloat f => Ok f
  | JBool b => Ok (FFin (Zc (if b then 1 else 0)))
  | _ => Raise TypeError
  end.

(** [re.findall(r'\d+', s)[0]]: the first maximal run of digits. *)
Fixpoint take_digit_run (s : pystr) : pystr :=
  match s with
  | c :: s' => if is_digit c then c :: take_digit_run s' else []
  | [] => []
  end.

Fixpoint first_digit_run (s : pystr) : option pystr :=
  match s with
  | [] => None
  | c :: s' => if is_digit c then Some (take_digit_run s) else first_digit_run s'
  end.

Definition is_ValueError (e : exn) : bool :=
  match e with ValueError => true | _ => false end.

(** The innermost [try] of [get_forecast_value]:
    [try: return float(value_str)
     except ValueError: return float(re.findall(r'\d+', value_str)[0])] *)
Definition float_or_first_number (value_str : json) : py_result pyfloat :=
  try_except (py_float value_str) is_ValueError
    (match value_str with
     | JStr s =>
         match first_digit_run s with
         | Some run => py_float (JStr run)
         | None => Raise IndexError
         end
     | _ => Raise TypeError
     end).

(** *** ForecastIndex: [get_forecast_value] *)

Definition is_not_none (v : json) : bool :=
  match v with JNull => false | _ => true end.

Definition is_dict (v : json) : bool :=
  match v with JDict _ => true | _ => false end.

(** [str(v).strip()] is non-empty: [str] of a number, a boolean, a list or a
    dict is never blank. *)
Definition str_nonblank (v : json) : bool :=
  match v with
  | JStr s => negb (bool_decide (py_strip s = []))
  | _ => true
  end.

(** [next(iter(d.values()), None)] *)
Definition first_value (d : json) : json :=
  match d with
  | JDict ((_, v) :: _) => v
  | _ => JNull
  end.

(** [start_time <= target_time < end_time]; a comparison with NaT is
    false. *)
Definition in_window (start_time : option Z) (target_time : Z)
    (end_time : option Z) : bool :=
  match start_time, end_time with
  | Some s, Some e => (s <=? target_time) && (target_time <? e)
  | _, _ => false
  end.

(** The [for time_block in time_blocks] loop: the block it leaves in
    [correct_block], [JNull] when it ends without a [break]. *)
Fixpoint scan_time_blocks (target_time : Z) (time_blocks : list json)
    : py_result json :=
  match time_blocks with
  | [] => Ok JNull
  | time_block :: rest =>
      start_time_str ←
        get_case_insensitive_key time_block [u8 "startTime"; u8 "StartTime"] JNull;
      end_time_str ←
        get_case_insensitive_key time_block [u8 "endTime"; u8 "EndTime"] JNull;
      if negb (truthy start_time_str) || negb (truthy end_time_str)
      then scan_time_blocks target_time rest
      else
        start_time ← to_datetime start_time_str;
        end_time ← to_datetime end_time_str;
        if in_window start_time target_time end_time
        then Ok time_block
        else scan_time_blocks target_time rest
  end.

Definition weather_code_element : pystr := u8 "天氣現象".

(** The value read from the block the scan selected (the code after
    [if correct_block:]). *)
Definition block_value (element_name_chinese : pystr) (correct_block : json)
    : py_result (option pyfloat) :=
  if truthy correct_block then
    element_values ←
      get_case_insensitive_key correct_block
        [u8 "elementValue"; u8 "ElementValue"] (JList []);
    if negb (truthy element_values) then Ok None
    else
      value_dict ← py_first element_values;
      value_str ←
        (if pystr_eqb element_name_chinese weather_code_element
         then get_case_insensitive_key value_dict
                [u8 "WeatherCode"; u8 "weathercode"] JNull
         else if truthy value_dict && is_dict value_dict
              then Ok (first_value value_dict)
              else Ok JNull);
      if is_not_none value_str && str_nonblank value_str &&
         negb (is_str (u8 "-") value_str)
      then f ← float_or_first_number value_str; Ok (Some f)
      else Ok None
  else Ok None.

(** The time blocks of the element: [None] where the function returns
    [None] before it reaches the scan. *)
Definition find_time_blocks (forecast_json : json)
    (town_name element_name_chinese : pystr) : py_result (option json) :=
  records ← get_case_insensitive_key forecast_json [u8 "records"; u8 "Records"] JNull;
  if negb (truthy records) then Ok None
  else
    locations_list ←
      get_case_insensitive_key records [u8 "locations"; u8 "Locations"] JNull;
    if negb (truthy locations_list) then Ok None
    else
      locations_data ← py_first locations_list;
      loc ← get_case_insensitive_key locations_data [u8 "location"; u8 "Location"] JNull;
      let location_list := if truthy loc then loc else JList [] in
      locs ← py_iter location_list;
      town_data ← find_by_name [u8 "locationName"; u8 "LocationName"] town_name locs;
      in_town ←
        (if truthy town_data
         then get_case_insensitive_key town_data
                [u8 "weatherElement"; u8 "WeatherElement"] JNull
         else Ok JNull);
      weather_element_list ←
        (if negb (truthy in_town)
         then get_case_insensitive_key locations_data
                [u8 "weatherElement"; u8 "WeatherElement"] JNull
         else Ok in_town);
      if negb (truthy weather_element_list) then Ok None
      else
        elements ← py_iter weather_element_list;
        element_data ←
          find_by_name [u8 "elementName"; u8 "ElementName"]
            element_name_chinese elements;
        if negb (truthy element_data) then Ok None
        else
          time_blocks ←
            get_case_insensitive_key element_data [u8 "time"; u8 "Time"] (JList []);
          if negb (truthy time_blocks) then Ok None
          else Ok (Some time_blocks).

(** The block whose value is returned: the one the scan found, else
    [time_blocks[0]]. *)
Definition select_block (target_time : Z) (time_blocks : json) : py_result json :=
  blocks ← py_iter time_blocks;
  found ← scan_time_blocks target_time blocks;
  if negb (truthy found) && truthy time_blocks
  then py_first time_blocks
  else Ok found.

Definition get_forecast_value_body (forecast_json : json)
    (town_name element_name_chinese : pystr) (target_time : Z)
    : py_result (option pyfloat) :=
  time_blocks ← find_time_blocks forecast_json town_name element_name_chinese;
  match time_blocks with
  | None => Ok None
  | Some time_blocks =>
      correct_block ← select_block target_time time_blocks;
      block_value element_name_chinese correct_block
  end.

(** [except (KeyError, IndexError, TypeError, ValueError): return None] *)
Definition caught_by_lookup (e : exn) : bool :=
  match e with
  | KeyError | IndexError | TypeError | ValueError => true
  | _ => false
  end.

Definition get_forecast_value (forecast_json : json)
    (town_name element_name_chinese : pystr) (target_time : Z)
    : py_result (option pyfloat) :=
  try_except
    (get_forecast_value_body forecast_json town_name element_name_chinese target_time)
    caught_by_lookup (Ok None).

(** *** WeatherEnricher: [get_regional_weather_features] *)

Record region_config := {
  avg_towns : list (pystr * pystr);
  code_town : pystr * pystr;
  forecast_files : list pystr;
}.

Definition WEATHER_CONFIG : list (pystr * region_config) :=
  [ (u8 "North",
     {| avg_towns := [(u8 "新北市", u8 "林口區"); (u8 "桃園市", u8 "觀音區");
                      (u8 "苗栗縣", u8 "通霄鎮"); (u8 "臺北市", u8 "中正區")];
        code_town := (u8 "臺北市", u8 "中正區");
        forecast_files := [u8 "新北市_forecast.json"; u8 "桃園市_forecast.json";
                           u8 "苗栗縣_forecast.json"; u8 "臺北市_forecast.json"] |});
    (u8 "Central",
     {| avg_towns := [(u8 "臺中市", u8 "龍井區"); (u8 "臺中市", u8 "西屯區");
                      (u8 "彰化縣", u8 "彰化市")];
        code_town := (u8 "臺中市", u8 "西屯區");
        forecast_files := [u8 "臺中市_forecast.json"; u8 "彰化縣_forecast.json"] |});
    (u8 "South",
     {| avg_towns := [(u8 "高雄市", u8 "永安區"); (u8 "高雄市", u8 "小港區");
                      (u8 "臺南市", u8 "安南區"); (u8 "屏東縣", u8 "恆春鎮")];
        code_town := (u8 "高雄市", u8 "苓雅區");
        forecast_files := [u8 "高雄市_forecast.json"; u8 "臺南市_forecast.json";
                           u8 "屏東縣_forecast.json"] |});
    (u8 "East",
     {| avg_towns := [(u8 "花蓮縣", u8 "花蓮市")];
        code_town := (u8 "花蓮縣", u8 "花蓮市");
        forecast_files := [u8 "花蓮縣_forecast.json"] |});
    (u8 "Islands",
     {| avg_towns := [(u8 "澎湖縣", u8 "湖西鄉")];
        code_town := (u8 "澎湖縣", u8 "湖西鄉");
        forecast_files := [u8 "澎湖縣_forecast.json"] |}) ].

Fixpoint config_of (region : pystr) (table : list (pystr * region_config))
    : option region_config :=
  match table with
  | [] => None
  | (r, c) :: rest => if pystr_eqb r region then Some c else config_of region rest
  end.

(** The forecast cache directory: the document a file holds, [None] when
    [open] raises [FileNotFoundError]. *)
Definition forecast_cache := pystr -> option json.

(** The first loop: read every forecast file of the region, keyed by county;
    [None] when a file is not found (the function then returns [{}]). *)
Fixpoint load_forecasts (cache : forecast_cache) (files : list pystr)
    (forecasts : gmap pystr json) : option (gmap pystr json) :=
  match files with
  | [] => Some forecasts
  | f_name :: rest =>
      match cache f_name with
      | Some doc =>
          let county_name := py_replace (u8 "_forecast.json") [] f_name in
          load_forecasts cache rest (<[county_name := doc]> forecasts)
      | None => None
      end
  end.

Definition temperature_element : pystr := u8 "平均溫度".
Definition wind_element : pystr := u8 "風速".

(** The loop over [config['avg_towns']]: the temperatures and wind speeds
    that are not [None], in the order of the towns. *)
Fixpoint collect_town_values (forecasts : gmap pystr json)
    (towns : list (pystr * pystr)) (target_time : Z)
    (temps winds : list pyfloat) : py_result (list pyfloat * list pyfloat) :=
  match towns with
  | [] => Ok (temps, winds)
  | (county, town) :: rest =>
      match forecasts !! county with
      | Some doc =>
          temp ← get_forecast_value doc town temperature_element target_time;
          wind ← get_forecast_value doc town wind_element target_time;
          collect_town_values forecasts rest target_time
            (temps ++ option_list temp) (winds ++ option_list wind)
      | None => collect_town_values forecasts rest target_time temps winds
      end
  end.

(** [round(np.mean(xs), 2) if xs else np.nan] *)
Definition mean_or_nan (xs : list pyfloat) : pyfloat :=
  match xs with
  | [] => FNan
  | _ :: _ => np_mean_round2 xs
  end.

(** [int(x)] on a float: truncation toward zero. *)
Definition py_int (x : pyfloat) : py_result pyfloat :=
  match x with
  | FFin q => Ok (FFin (Zc (Z.quot (Qnum (this q)) (Zpos (Qden (this q))))))
  | FInf _ => Raise OverflowError
  | FNan => Raise ValueError
  end.

(** One round of the loop over the two horizons. *)
Definition horizon_features (config : region_config)
    (forecasts : gmap pystr json) (effective_time : Z)
    (features : gmap pystr pyfloat) (horizon : pystr * Z)
    : py_result (gmap pystr pyfloat) :=
  let '(suffix, time_offset) := horizon in
  let target_time := effective_time + 3600 * time_offset in
  '(temps, winds) ←
    collect_town_values forecasts (avg_towns config) target_time [] [];
  let features := <[u8 "TEMP" ++ suffix := mean_or_nan temps]> features in
  let features := <[u8 "WIND" ++ suffix := mean_or_nan winds]> features in
  let '(code_county, code_town) := code_town config in
  match forecasts !! code_county with
  | Some doc =>
      w_code ← get_forecast_value doc code_town weather_code_element target_time;
      match w_code with
      | Some c => i ← py_int c; Ok (<[u8 "W_CODE" ++ suffix := i]> features)
      | None => Ok (<[u8 "W_CODE" ++ suffix := FNan]> features)
      end
  | None => Ok (<[u8 "W_CODE" ++ suffix := FNan]> features)
  end.

Definition horizons : list (pystr * Z) := [(u8 "_now", 0); (u8 "_future_12h", 12)].

Fixpoint over_horizons (config : region_config) (forecasts : gmap pystr json)
    (effective_time : Z) (features : gmap pystr pyfloat)
    (hs : list (pystr * Z)) : py_result (gmap pystr pyfloat) :=
  match hs with
  | [] => Ok features
  | h :: rest =>
      features' ← horizon_features config forecasts effective_time features h;
      over_horizons config forecasts effective_time features' rest
  end.

Definition get_regional_weather_features (cache : forecast_cache)
    (region : pystr) (effective_time : Z) : py_result (gmap pystr pyfloat) :=
  match config_of region WEATHER_CONFIG with
  | None => Ok ∅
  | Some config =>
      match load_forecasts cache (forecast_files config) ∅ with
      | None => Ok ∅
      | Some forecasts =>
          over_horizons config forecasts effective_time ∅ horizons
      end
  end.

(** *** Helper functions *)

(** What follows the last [)] of the first line of [s]: where the greedy
    [.*] of [\(.*\)] stops ([.] does not match a newline). *)
Fixpoint after_last_paren (s : pystr) : option pystr :=
  match s with
  | [] => None
  | c :: s' =>
      if (c =? 10)%N then None
      else
        match after_last_paren s' with
        | Some r => Some r
        | None => if (c =? 41)%N then Some s' else None
        end
  end.

(** [re.sub(r'\(.*\)', '', name)] *)
Fixpoint remove_parenthesised (skip : nat) (s : pystr) : pystr :=
  match s with
  | [] => []
  | c :: s' =>
      match skip with
      | S k => remove_parenthesised k s'
      | O =>
          if (c =? 40)%N then
            match after_last_paren s' with
            | Some r => remove_parenthesised (length s' - length r) s'
            | None => c :: remove_parenthesised 0 s'
            end
          else c :: remove_parenthesised 0 s'
      end
  end.

(** The class of the second substitution: backslash, slash, star, question
    mark, colon, double quote, angle brackets and the bar. *)
Definition invalid_in_file_name (c : N) : bool :=
  bool_decide (c ∈ [92; 47; 42; 63; 58; 34; 60; 62; 124]%N).

Definition sanitize_name (name : pystr) : pystr :=
  py_strip
    (List.map (fun c => if invalid_in_file_name c then 95%N else c)
       (remove_parenthesised 0 name)).

Definition region_keywords : list (pystr * list pystr) :=
  [ (u8 "North", [u8 "林口"; u8 "大潭"; u8 "新桃"; u8 "通霄"; u8 "協和"; u8 "石門";
                  u8 "翡翠"; u8 "桂山"; u8 "觀音"; u8 "龍潭"; u8 "北部"]);
    (u8 "Central", [u8 "台中"; u8 "大甲溪"; u8 "明潭"; u8 "彰工"; u8 "中港"; u8 "竹南";
                    u8 "苗栗"; u8 "雲林"; u8 "麥寮"; u8 "中部"; u8 "彰"]);
    (u8 "South", [u8 "興達"; u8 "大林"; u8 "南部"; u8 "核三"; u8 "曾文"; u8 "嘉義";
                  u8 "台南"; u8 "高雄"; u8 "永安"; u8 "屏東"]);
    (u8 "East", [u8 "和平"; u8 "花蓮"; u8 "蘭陽"; u8 "卑南"; u8 "立霧"; u8 "東部"]);
    (u8 "Islands", [u8 "澎湖"; u8 "金門"; u8 "馬祖"; u8 "塔山"; u8 "離島"]);
    (u8 "Other", [u8 "汽電共生"; u8 "其他台電自有"; u8 "其他購電太陽能";
                  u8 "其他購電風力"; u8 "購買地熱"; u8 "台電自有地熱"; u8 "生質能"]) ].

(** The loop of [infer_region_from_name] over a keyword table. *)
Fixpoint infer_region_in (table : list (pystr * list pystr)) (unit_name : pystr)
    : option pystr :=
  match table with
  | [] => None
  | (region, keywords) :: rest =>
      if existsb (fun kw => py_contains kw unit_name) keywords
      then Some region
      else infer_region_in rest unit_name
  end.

Definition infer_region_from_name (unit_name : pystr) : option pystr :=
  infer_region_in region_keywords unit_name.

(** *** Reading the feed *)

Definition fuel_map : list (pystr * pystr) :=
  [ (u8 "太陽能", u8 "太陽能(Solar)");
    (u8 "風力", u8 "風力(Wind)");
    (u8 "燃煤", u8 "燃煤(Coal)");
    (u8 "燃氣", u8 "燃氣(LNG)");
    (u8 "水力", u8 "水力(Hydro)");
    (u8 "核能", u8 "核能(Nuclear)");
    (u8 "汽電共生", u8 "汽電共生(Co-Gen)");
    (u8 "民營電廠-燃煤", u8 "民營電廠-燃煤(IPP-Coal)");
    (u8 "民營電廠-燃氣", u8 "民營電廠-燃氣(IPP-LNG)");
    (u8 "燃油", u8 "燃油(Oil)");
    (u8 "輕油", u8 "輕油(Diesel)");
    (u8 "其它再生能源", u8 "其它再生能源(Other Renewable Energy)");
    (u8 "儲能", u8 "儲能(Energy Storage System)") ].

(** [d.get(key, default)] on a dict of strings. *)
Fixpoint get_or (d : list (pystr * pystr)) (key default : pystr) : pystr :=
  match d with
  | [] => default
  | (k, v) :: rest => if pystr_eqb k key then v else get_or rest key default
  end.

(** [(.*?)</b>] at the head of [s]: the shortest run without a newline that
    [</b>] follows. *)
Fixpoint lazy_until_close (s : pystr) : option pystr :=
  if starts_with (u8 "</b>") s then Some []
  else
    match s with
    | [] => None
    | c :: s' =>
        if (c =? 10)%N then None else cons c <$> lazy_until_close s'
    end.

(** Group 1 of [re.search(r'<b>(.*?)</b>', s)], [None] when there is no
    match. *)
Fixpoint bold_label (s : pystr) : option pystr :=
  match s with
  | [] => None
  | _ :: s' =>
      if starts_with (u8 "<b>") s then
        match lazy_until_close (drop 3 s) with
        | Some label => Some label
        | None => bold_label s'
        end
      else bold_label s'
  end.

(** The longest run of digits at the head of [s], and the rest. *)
Fixpoint span_digits (s : pystr) : pystr * pystr :=
  match s with
  | c :: s' =>
      if is_digit c then let '(ds, r) := span_digits s' in (c :: ds, r)
      else ([], s)
  | [] => ([], [])
  end.

(** Where [$] matches: at the end, or before a newline that ends the
    string. *)
Definition at_dollar (s : pystr) : bool :=
  bool_decide (s = []) || bool_decide (s = [10%N]).

(** The optional minus sign at the head: whether it is there, and the
    rest. *)
Definition take_minus (s : pystr) : bool * pystr :=
  match s with
  | 45%N :: r => (true, r)
  | _ => (false, s)
  end.

(** [re.match(r'^-?\d+(\.\d+)?$', s)] *)
Definition decimal_match (s : pystr) : bool :=
  let '(_, body) := take_minus s in
  let '(ds, r1) := span_digits body in
  negb (bool_decide (ds = [])) &&
  (at_dollar r1 ||
   match r1 with
   | 46%N :: r2 =>
       let '(fs, r3) := span_digits r2 in
       negb (bool_decide (fs = [])) && at_dollar r3
   | _ => false
   end).

Definition digit_values (s : pystr) : list Z :=
  omap digit_value s.

(** The decimal number that a string [s] that [decimal_match] accepts
    denotes. *)
Definition decimal_number (s : pystr) : Qc :=
  let '(negative, body) := take_minus s in
  let '(ds, r1) := span_digits body in
  let fs := match r1 with 46%N :: r2 => fst (span_digits r2) | _ => [] end in
  let m := digits_to_Z (digit_values (ds ++ fs)) in
  Q2Qc (Qmake (if negative then - m else m)
          (Z.to_pos (10 ^ Z.of_nat (length fs)))).

Record generation_record := {
  DATETIME : Z;
  FUEL_TYPE : pystr;
  UNIT_NAME : pystr;
  NET_P : pyfloat;
}.

Definition subtotal_marker : pystr := u8 "小計".
Definition load_marker : pystr := u8 "Load".

(** One round of [for row in live_data]: the record appended, if any. Every
    field of a feed row is a string; [float(net_p_str)] is the binary64
    number nearest to the decimal. *)
Definition parse_row (formatted_datetime : Z) (row : list pystr)
    : option generation_record :=
  match row with
  | f0 :: _ :: f2 :: _ :: f4 :: _ =>
      if py_contains subtotal_marker f2 then None
      else
        let unit_name := py_strip f2 in
        let net_p_str := py_replace (u8 ",") [] f4 in
        match bold_label f0 with
        | None => None
        | Some label =>
            if bool_decide (unit_name = []) || py_contains load_marker label
            then None
            else
              let fuel_type := get_or fuel_map label label in
              if decimal_match net_p_str
              then Some {| DATETIME := formatted_datetime;
                           FUEL_TYPE := fuel_type;
                           UNIT_NAME := unit_name;
                           NET_P := binary64 (decimal_number net_p_str) |}
              else None
        end
  | _ => None
  end.

Definition parse_feed (formatted_datetime : Z) (live_data : list (list pystr))
    : list generation_record :=
  omap (parse_row formatted_datetime) live_data.

(** *** Ordering of strings and keys *)

(** [a <= b] on Python strings: lexicographic on code points. *)
Fixpoint pystr_leb (a b : pystr) : bool :=
  match a, b with
  | [], _ => true
  | _ :: _, [] => false
  | x :: a', y :: b' => (x <? y)%N || ((x =? y)%N && pystr_leb a' b')
  end.

(** [sorted(names)] *)
Definition sorted_names (names : list pystr) : list pystr :=
  merge_sort (fun a b => Is_true (pystr_leb a b)) names.

(** *** FluctuationTracker *)

(** What reading [STATE_FILE] finds: no file ([FileNotFoundError]), a file
    that is not JSON ([json.JSONDecodeError]), or the list of unit names a
    previous run wrote. *)
Inductive state_file_content :=
  | StateAbsent
  | StateCorrupt
  | StateUnits (units : list pystr).

Definition read_previous_units (f : state_file_content) : gset pystr :=
  match f with
  | StateUnits units => list_to_set units
  | StateAbsent | StateCorrupt => ∅
  end.

(** [current_units - previous_units, previous_units - current_units] *)
Definition unit_diff (current_units previous_units : gset pystr)
    : gset pystr * gset pystr :=
  (current_units ∖ previous_units, previous_units ∖ current_units).

Definition current_units_of (records : list generation_record) : gset pystr :=
  list_to_set (List.map UNIT_NAME records).

Record fluctuation_entry := {
  log_time : Z;
  log_plants : nat;
  log_unchanged : bool;
  log_added : list pystr;
  log_missing : list pystr;
}.

Definition fluctuation_report (formatted_datetime : Z)
    (current_units newly_added missing : gset pystr) : fluctuation_entry :=
  {| log_time := formatted_datetime;
     log_plants := size current_units;
     log_unchanged :=
       bool_decide (newly_added = ∅) && bool_decide (missing = ∅);
     log_added := sorted_names (elements newly_added);
     log_missing := sorted_names (elements missing) |}.

(** *** RegionResolver: the merge with the static map and the fallbacks *)

(** A row of [plant_to_region_map.csv]: the unit name and its region, [None]
    for an empty cell. *)
Definition plant_map_row := (pystr * option pystr)%type.

Record unit_row := {
  unit_record : generation_record;
  REGION : pystr;
}.

(** [pd.merge(new_data_df, plant_map_df, on='UNIT_NAME', how='left')]: every
    record is paired with the region of each map row of its name, or with a
    missing region when there is none. *)
Definition merge_left (records : list generation_record)
    (plant_map : list plant_map_row) : list (generation_record * option pystr) :=
  flat_map
    (fun r =>
       match List.filter (fun m => pystr_eqb (fst m) (UNIT_NAME r)) plant_map with
       | [] => [(r, None)]
       | matches => List.map (fun m => (r, snd m)) matches
       end)
    records.

Definition unknown_region : pystr := u8 "Unknown".

(** The region of one merged row: the map's region when it is present, else
    the inferred one, else ["Unknown"]; then [str.strip]. *)
Definition resolve_region (unit_name : pystr) (mapped : option pystr) : pystr :=
  py_strip
    (match mapped with
     | Some region => region
     | None => default unknown_region (infer_region_from_name unit_name)
     end).

(** [plant_map] is [None] when the map file is not found. *)
Definition assign_regions (plant_map : option (list plant_map_row))
    (records : list generation_record) : list unit_row :=
  let df_merged :=
    match plant_map with
    | Some rows => merge_left records rows
    | None => List.map (fun r => (r, None)) records
    end in
  List.map
    (fun '(r, mapped) =>
       {| unit_record := r; REGION := resolve_region (UNIT_NAME r) mapped |})
    df_merged.

(** *** Enrichment of the merged frame *)

Record enriched_row := {
  e_DATETIME : Z;
  e_REGION : pystr;
  e_FUEL_TYPE : pystr;
  e_NET_P : pyfloat;
  e_weather : gmap pystr pyfloat;
}.

(** [Series.unique()]: the distinct values in the order of their first
    occurrence. *)
Fixpoint unique_from (seen : list pystr) (l : list pystr) : list pystr :=
  match l with
  | [] => []
  | x :: rest =>
      if bool_decide (x ∈ seen) then unique_from seen rest
      else x :: unique_from (x :: seen) rest
  end.

Definition py_unique (l : list pystr) : list pystr := unique_from [] l.

(** [for region in df_merged['REGION'].unique(): ...] *)
Fixpoint weather_for_regions (cache : forecast_cache) (effective_time : Z)
    (regions : list pystr) (acc : gmap pystr (gmap pystr pyfloat))
    : py_result (gmap pystr (gmap pystr pyfloat)) :=
  match regions with
  | [] => Ok acc
  | region :: rest =>
      features ← get_regional_weather_features cache region effective_time;
      weather_for_regions cache effective_time rest (<[region := features]> acc)
  end.

Definition enrich (regional_weather_cache : gmap pystr (gmap pystr pyfloat))
    (rows : list unit_row) : list enriched_row :=
  List.map
    (fun row =>
       {| e_DATETIME := DATETIME (unit_record row);
          e_REGION := REGION row;
          e_FUEL_TYPE := FUEL_TYPE (unit_record row);
          e_NET_P := NET_P (unit_record row);
          e_weather := default ∅ (regional_weather_cache !! REGION row) |})
    rows.

(** *** Aggregator *)

Definition weather_columns : list pystr :=
  [u8 "TEMP_now"; u8 "WIND_now"; u8 "W_CODE_now";
   u8 "TEMP_future_12h"; u8 "WIND_future_12h"; u8 "W_CODE_future_12h"].

Definition group_key := (Z * pystr * pystr)%type.

Definition key_of (row : enriched_row) : group_key :=
  (e_DATETIME row, e_REGION row, e_FUEL_TYPE row).

(** The order pandas sorts the group keys in. *)
Definition key_leb (a b : group_key) : bool :=
  let '(t1, r1, f1) := a in
  let '(t2, r2, f2) := b in
  (t1 <? t2) ||
  ((t1 =? t2) &&
   (negb (pystr_leb r2 r1) || (pystr_eqb r1 r2 && pystr_leb f1 f2))).

Definition sorted_keys (keys : list group_key) : list group_key :=
  merge_sort (fun a b => Is_true (key_leb a b)) (remove_dups keys).

Definition rows_of_key (k : group_key) (rows : list enriched_row)
    : list enriched_row :=
  List.filter (fun r => bool_decide (key_of r = k)) rows.

(** ['sum'] on [NET_P] *)
Definition sum_net_p (rows : list enriched_row) : pyfloat :=
  group_sum (List.map e_NET_P rows).

(** The value of a weather column in a row: NaN where the row's feature set
    has no such key. *)
Definition column_value (column : pystr) (row : enriched_row) : pyfloat :=
  default FNan (e_weather row !! column).

(** ['first']: the first value of the column that is not NaN, NaN when there
    is none. *)
Definition first_value_of (column : pystr) (rows : list enriched_row) : pyfloat :=
  default FNan
    (head (List.filter (fun f => negb (is_nan f))
             (List.map (column_value column) rows))).

Record aggregated_row := {
  agg_DATETIME : Z;
  agg_REGION : pystr;
  agg_FUEL_TYPE : pystr;
  agg_NET_P : pyfloat;
  agg_weather : list (pystr * pyfloat);
}.

Definition aggregate_group (k : group_key) (rows : list enriched_row)
    : aggregated_row :=
  let group := rows_of_key k rows in
  {| agg_DATETIME := k.1.1;
     agg_REGION := k.1.2;
     agg_FUEL_TYPE := k.2;
     agg_NET_P := sum_net_p group;
     agg_weather :=
       List.map (fun c => (c, first_value_of c group)) weather_columns |}.

(** A column of the enriched frame exists when some row's feature set has
    it. *)
Definition has_column (column : pystr) (rows : list enriched_row) : bool :=
  existsb (fun r => bool_decide (is_Some (e_weather r !! column))) rows.

(** [df_enriched.groupby(['DATETIME', 'REGION', 'FUEL_TYPE']).agg(agg_funcs)
    .reset_index()]: pandas raises [KeyError] when a column named in
    [agg_funcs] is not in the frame. *)
Definition aggregate (rows : list enriched_row) : py_result (list aggregated_row) :=
  if forallb (fun c => has_column c rows) weather_columns
  then Ok (List.map (fun k => aggregate_group k rows)
             (sorted_keys (List.map key_of rows)))
  else Raise KeyError.

(** *** SegmentedStore *)

(** The folder and the file name of the table of a region and a fuel type. *)
Definition table_path (region fuel_type : pystr) : pystr * pystr :=
  let fuel_folder_name := sanitize_name fuel_type in
  let region_name_safe := sanitize_name region in
  (region_name_safe,
   region_name_safe ++ u8 "_" ++ fuel_folder_name ++ u8 ".csv").

(** The table written to [output_path]: the existing rows without those of
    the current timestamp, then the new rows; the new rows alone when there
    is no file. *)
Definition upsert_table (formatted_datetime : Z) (group : list aggregated_row)
    (existing : option (list aggregated_row)) : list aggregated_row :=
  match existing with
  | Some existing_df =>
      List.filter (fun r => negb (agg_DATETIME r =? formatted_datetime))
        existing_df ++ group
  | None => group
  end.

Definition pair_leb (a b : pystr * pystr) : bool :=
  negb (pystr_leb b.1 a.1) || (pystr_eqb a.1 b.1 && pystr_leb a.2 b.2).

Definition table_key (row : aggregated_row) : pystr * pystr :=
  (agg_REGION row, agg_FUEL_TYPE row).

Definition rows_of_table (k : pystr * pystr) (rows : list aggregated_row)
    : list aggregated_row :=
  List.filter (fun r => bool_decide (table_key r = k)) rows.

(** The loop over [aggregated_data.groupby(['REGION', 'FUEL_TYPE'])]. *)
Fixpoint persist_groups (formatted_datetime : Z) (keys : list (pystr * pystr))
    (aggregated_data : list aggregated_row)
    (final_data : gmap (pystr * pystr) (list aggregated_row))
    : gmap (pystr * pystr) (list aggregated_row) :=
  match keys with
  | [] => final_data
  | (region, fuel_type) :: rest =>
      let group := rows_of_table (region, fuel_type) aggregated_data in
      let output_path := table_path region fuel_type in
      persist_groups formatted_datetime rest aggregated_data
        (<[output_path :=
             upsert_table formatted_datetime group (final_data !! output_path)]>
           final_data)
  end.

Definition persist (formatted_datetime : Z)
    (aggregated_data : list aggregated_row)
    (final_data : gmap (pystr * pystr) (list aggregated_row))
    : gmap (pystr * pystr) (list aggregated_row) :=
  persist_groups formatted_datetime
    (merge_sort (fun a b => Is_true (pair_leb a b))
       (remove_dups (List.map table_key aggregated_data)))
    aggregated_data final_data.

(** *** The demand table *)

(** [fetch_and_save_demand_data]: [response] is [None] when the request
    raises; the result is the demand table after the call. A response that
    is not an object, or whose load is not a string, raises
    [AttributeError], which the function does not catch. The row is appended
    to a file of [FINAL_OUTPUT_DIR], which the function does not create:
    [final_dir] tells whether the directory is there, and [to_csv] raises
    [OSError] when it is not; neither [except] clause catches it. *)
Definition fetch_and_save_demand_data (response : option json)
    (formatted_datetime : Z) (final_dir : bool)
    (demand_table : list (Z * pyfloat))
    : py_result (list (Z * pyfloat)) :=
  match response with
  | None => Ok demand_table
  | Some (JDict items) =>
      match assoc_lookup (u8 "records") items with
      | Some (JList (first :: _)) =>
          match first with
          | JDict fields =>
              let current_load_str :=
                default JNull (assoc_lookup (u8 "curr_load") fields) in
              if negb (truthy current_load_str) then Ok demand_table
              else
                match current_load_str with
                | JStr text =>
                    match float_of_text (py_replace (u8 ",") [] text) with
                    | Some current_load_mw =>
                        if final_dir
                        then Ok (demand_table ++
                                   [(formatted_datetime, current_load_mw)])
                        else Raise OSError
                    | None => Ok demand_table
                    end
                | _ => Raise AttributeError
                end
          | _ => Raise AttributeError
          end
      | _ => Ok demand_table
      end
  | Some _ => Raise AttributeError
  end.

(** *** The pipeline driver *)

(** The files the pipeline writes, and whether the directory
    [FINAL_OUTPUT_DIR] of the tables and of the demand table is there. *)
Record world := {
  state_file : state_file_content;
  fluctuation_log : list fluctuation_entry;
  unknown_plants_log : list (Z * list pystr);
  unit_details_log : list (Z * pystr * pystr * pystr);
  final_dir : bool;
  demand_data : list (Z * pyfloat);
  final_data : gmap (pystr * pystr) (list aggregated_row);
}.

(** How a run ends when no exception escapes it. *)
Inductive run_outcome :=
  | FetchFailed
  | NoRecords
  | Successful.

(** [effective_data_time]: the run time, in seconds, floored to ten
    minutes. *)
Definition effective_time_of (run_time : Z) : Z := run_time - run_time mod 600.

Definition unit_detail (row : unit_row) : Z * pystr * pystr * pystr :=
  (DATETIME (unit_record row), UNIT_NAME (unit_record row), REGION row,
   FUEL_TYPE (unit_record row)).

Definition unknown_plants (rows : list unit_row) : list pystr :=
  sorted_names
    (List.map (fun row => UNIT_NAME (unit_record row))
       (List.filter (fun row => pystr_eqb (REGION row) unknown_region) rows)).

(** The inputs of one run: the static map file ([None]: not found), the
    forecast cache, the run time, the answer of the generation feed ([None]:
    the request raised) and the answer of the demand feed. *)
Record run_input := {
  plant_map_file : option (list plant_map_row);
  forecast_files_cache : forecast_cache;
  run_time : Z;
  live_fetch : option (list (list pystr));
  demand_fetch : option json;
}.

(** [run_pipeline]: the files after the run, and the outcome or the
    exception that ended it. *)
Definition run_pipeline (i : run_input) (w : world)
    : world * py_result run_outcome :=
  let formatted_datetime := effective_time_of (run_time i) in
  match live_fetch i with
  | None => (w, Ok FetchFailed)
  | Some live_data =>
      match fetch_and_save_demand_data (demand_fetch i) formatted_datetime
              (final_dir w) (demand_data w) with
      | Raise e => (w, Raise e)
      | Ok demand =>
          let w1 :=
            {| state_file := state_file w;
               fluctuation_log := fluctuation_log w;
               unknown_plants_log := unknown_plants_log w;
               unit_details_log := unit_details_log w;
               final_dir := final_dir w;
               demand_data := demand;
               final_data := final_data w |} in
          let records := parse_feed formatted_datetime live_data in
          match records with
          | [] => (w1, Ok NoRecords)
          | _ :: _ =>
              let previous_units := read_previous_units (state_file w) in
              let current_units := current_units_of records in
              let '(newly_added, missing) :=
                unit_diff current_units previous_units in
              let df_merged := assign_regions (plant_map_file i) records in
              let w2 :=
                {| state_file := StateUnits (elements current_units);
                   fluctuation_log :=
                     fluctuation_log w ++
                       [fluctuation_report formatted_datetime current_units
                          newly_added missing];
                   unknown_plants_log :=
                     unknown_plants_log w ++
                       [(formatted_datetime, unknown_plants df_merged)];
                   unit_details_log :=
                     unit_details_log w ++ List.map unit_detail df_merged;
                   final_dir := final_dir w;
                   demand_data := demand;
                   final_data := final_data w |} in
              match weather_for_regions (forecast_files_cache i)
                      formatted_datetime
                      (py_unique (List.map REGION df_merged)) ∅ with
              | Raise e => (w2, Raise e)
              | Ok regional_weather_cache =>
                  match aggregate (enrich regional_weather_cache df_merged) with
                  | Raise e => (w2, Raise e)
                  | Ok aggregated_data =>
                      ({| state_file := state_file w2;
                          fluctuation_log := fluctuation_log w2;
                          unknown_plants_log := unknown_plants_log w2;
                          unit_details_log := unit_details_log w2;
                          final_dir := true;
                          demand_data := demand;
                          final_data :=
                            persist formatted_datetime aggregated_data
                              (final_data w) |},
                       Ok Successful)
                  end
              end
          end
      end
  end.

(** ** Quantities the properties speak of *)

(** The sum of [f] over a list. *)
Definition sum_of {A : Type} (f : A -> Qc) (l : list A) : Qc :=
  foldr (fun x acc => (f x + acc)%Qc) 0%Qc l.

(** The rational that a finite float is. The totals below are totals of
    finite floats: an infinity or NaN counts as 0 in them. *)
Definition rational (f : pyfloat) : Qc :=
  match f with FFin q => q | _ => 0%Qc end.

(** The total net power of the enriched records of a timestamp. *)
Definition record_power_at (timestamp : Z) (rows : list enriched_row) : Qc :=
  sum_of (fun r => rational (e_NET_P r))
    (List.filter (fun r => e_DATETIME r =? timestamp) rows).

(** The total of [net_power_sum] over the aggregated rows of a timestamp. *)
Definition aggregated_power_at (timestamp : Z) (rows : list aggregated_row) : Qc :=
  sum_of (fun r => rational (agg_NET_P r))
    (List.filter (fun r => agg_DATETIME r =? timestamp) rows).

(** The rational is a binary64 number. *)
Definition is_binary64 (q : Qc) : bool :=
  match binary64 q with
  | FFin q' => Qeq_bool q' q
  | _ => false
  end.

(** No addition rounds when the floats of a list are added one by one to
    [acc]: every one of them is a binary64 number, and so is every running
    sum. *)
Fixpoint exactly_added (acc : Qc) (values : list pyfloat) : bool :=
  match values with
  | [] => true
  | FFin q :: rest =>
      is_binary64 q && is_binary64 (acc + q) && exactly_added (acc + q) rest
  | _ :: _ => false
  end.

(** The number of rows of a table that carry a timestamp. *)
Definition rows_at (timestamp : Z) (table : list aggregated_row) : nat :=
  length (List.filter (fun r => agg_DATETIME r =? timestamp) table).

(** Every character of the string is a decimal digit. *)
Definition all_digits (s : pystr) : Prop :=
  Forall (fun c => is_digit c = true) s.

(** What is not a digit, nor the underscore, ends a digit part. *)
Definition ends_digits (rest : pystr) : Prop :=
  match rest with
  | c :: _ => is_digit c = false ∧ c ≠ 95%N
  | [] => True
  end.

(** The rows of a timestamp, and the others. *)
Definition is_at (timestamp : Z) (r : aggregated_row) : bool :=
  agg_DATETIME r =? timestamp.

Definition not_at (timestamp : Z) (r : aggregated_row) : bool :=
  negb (agg_DATETIME r =? timestamp).

(** The last key of the loop that writes to a path. *)
Fixpoint last_writer (path : pystr * pystr) (keys : list (pystr * pystr))
    : option (pystr * pystr) :=
  match keys with
  | [] => None
  | k :: rest =>
      match last_writer path rest with
      | Some k' => Some k'
      | None =>
          if bool_decide (table_path k.1 k.2 = path) then Some k else None
      end
  end.

(** The rows of the static map for a unit name. *)
Definition static_rows (plant_map : option (list plant_map_row))
    (unit_name : pystr) : list plant_map_row :=
  match plant_map with
  | Some rows => List.filter (fun m => pystr_eqb m.1 unit_name) rows
  | None => []
  end.

Definition in_range (v : json) : Prop := ints_in_range v = true.

(** A computation that returns a value satisfying [P], or raises an
    exception that [get_forecast_value] catches. *)
Definition guarded {A : Type} (P : A -> Prop) (r : py_result A) : Prop :=
  match r with
  | Ok a => P a
  | Raise e => caught_by_lookup e = true
  end.

(** The start and the end of a time window whose two timestamps are there
    and are read as instants. *)
Definition block_window (time_block : json) : option (Z * Z) :=
  match get_case_insensitive_key time_block [u8 "startTime"; u8 "StartTime"] JNull,
        get_case_insensitive_key time_block [u8 "endTime"; u8 "EndTime"] JNull with
  | Ok start_time_str, Ok end_time_str =>
      if truthy start_time_str && truthy end_time_str then
        match to_datetime start_time_str, to_datetime end_time_str with
        | Ok (Some s), Ok (Some e) => Some (s, e)
        | _, _ => None
        end
      else None
  | _, _ => None
  end.

(** The instant lies in the half-open interval of the window. *)
Definition covers (target_time : Z) (time_block : json) : bool :=
  match block_window time_block with
  | Some (s, e) => (s <=? target_time) && (target_time <? e)
  | None => false
  end.

(** What [get_forecast_value] returns once a block is selected. *)
Definition value_of_block (element_name_chinese : pystr) (time_block : json)
    : py_result (option pyfloat) :=
  try_except (block_value element_name_chinese time_block) caught_by_lookup
    (Ok None).

(** The regions of the specification. *)
Definition known_regions : list pystr :=
  [u8 "North"; u8 "Central"; u8 "South"; u8 "East"; u8 "Islands"; u8 "Other";
   u8 "Unknown"].

(** ** Sample runtime tables and inputs *)

(** A runtime without decimal digits beyond ASCII. *)
Definition ascii_digits_only (c : N) : option Z := None.

(** Days from 1970-01-01 to a date of the proleptic Gregorian calendar. *)
Definition days_from_civil (y m d : Z) : Z :=
  let y' := if m <=? 2 then y - 1 else y in
  let era := y' / 400 in
  let yoe := y' - era * 400 in
  let mp := (m + 9) mod 12 in
  let doy := (153 * mp + 2) / 5 + d - 1 in
  let doe := yoe * 365 + yoe / 4 - yoe / 100 + doy in
  era * 146097 + doe - 719468.

Definition two_digits (a b : N) : option Z :=
  if ((48 <=? a) && (a <=? 57) && (48 <=? b) && (b <=? 57))%N
  then Some (10 * (Z.of_N a - 48) + (Z.of_N b - 48))
  else None.

(** The instant of a timestamp written [YYYY-MM-DDTHH:MM:SS+HH:MM], the
    format of the forecast documents. *)
Definition iso_instant (s : pystr) : option Z :=
  match s with
  | [y1; y2; y3; y4; 45; m1; m2; 45; d1; d2; 84; h1; h2; 58; n1; n2; 58; s1; s2;
     sg; o1; o2; 58; o3; o4]%N =>
      yh ← two_digits y1 y2; yl ← two_digits y3 y4;
      mo ← two_digits m1 m2; dd ← two_digits d1 d2;
      hh ← two_digits h1 h2; mi ← two_digits n1 n2; ss ← two_digits s1 s2;
      oh ← two_digits o1 o2; om ← two_digits o3 o4;
      off ← (if (sg =? 43)%N then Some (oh * 3600 + om * 60)
             else if (sg =? 45)%N then Some (- (oh * 3600 + om * 60))
             else None);
      Some (days_from_civil (100 * yh + yl) mo dd * 86400
            + hh * 3600 + mi * 60 + ss - off)
  | _ => None
  end.

(** A timestamp parser that reads this one format: [ValueError] on another
    string, [TypeError] on what is not a string. *)
Definition iso_to_datetime (v : json) : py_result (option Z) :=
  match v with
  | JStr s =>
      match iso_instant s with
      | Some t => Ok (Some t)
      | None => Raise ValueError
      end
  | _ => Raise TypeError
  end.

(** The mean of finite values, left unrounded; NaN when a value is not
    finite. *)
Definition exact_mean (xs : list pyfloat) : pyfloat :=
  match mapM (fun x => match x with FFin q => Some q | _ => None end) xs with
  | Some qs =>
      FFin (foldr Qcplus (Zc 0) qs / Zc (Z.of_nat (length qs)))%Qc
  | None => FNan
  end.

Definition jobj (items : list (string * json)) : json :=
  JDict (List.map (fun kv => (u8 (fst kv), snd kv)) items).

Definition jstr (s : string) : json := JStr (u8 s).

(** A time window of a forecast element. *)
Definition sample_window (start_time end_time : string) (value : json) : json :=
  jobj [("StartTime", jstr start_time); ("EndTime", jstr end_time);
        ("ElementValue", JList [value])]%string.

(** A forecast document with one town. *)
Definition sample_forecast (town : string) (elements : list (string * list json))
    : json :=
  jobj [("records",
    jobj [("Locations", JList [
      jobj [("Location", JList [
        jobj [("LocationName", jstr town);
              ("WeatherElement",
               JList (List.map
                        (fun e => jobj [("ElementName", jstr (fst e));
                                        ("Time", JList (snd e))]%string)
                        elements))]%string])]%string])]%string)]%string.

Definition morning_window (value : json) : json :=
  sample_window "2024-07-01T08:00:00+08:00" "2024-07-01T11:00:00+08:00" value.

(** One window [08:00, 11:00) with temperature 27.5. *)
Definition linkou_forecast : json :=
  sample_forecast "林口區"
    [("平均溫度", [morning_window (jobj [("Temperature", jstr "27.5")]%string)])]%string.

(** The same window with a temperature that reads NaN. *)
Definition nan_forecast : json :=
  sample_forecast "林口區"
    [("平均溫度", [morning_window (jobj [("Temperature", jstr "NaN")]%string)])]%string.

(** The same window with an integer beyond the range of a double. *)
Definition huge_forecast : json :=
  sample_forecast "林口區"
    [("平均溫度", [morning_window (jobj [("Temperature", JInt (10 ^ 400))]%string)])]%string.

(** 2024-07-01 09:30 and 23:00, Taipei time. *)
Definition half_past_nine : Z := 1719797400.
Definition eleven_pm : Z := 1719846000.

(** A forecast of Hualien whose weather code reads NaN. *)
Definition hualien_nan_code : json :=
  sample_forecast "花蓮市"
    [("天氣現象",
      [morning_window (jobj [("Weather", jstr "晴");
                             ("WeatherCode", jstr "NaN")]%string)])]%string.

(** A forecast of Hualien with the three elements. *)
Definition hualien_forecast : json :=
  sample_forecast "花蓮市"
    [("天氣現象",
      [morning_window (jobj [("Weather", jstr "晴");
                             ("WeatherCode", jstr "01")]%string)]);
     ("平均溫度", [morning_window (jobj [("Temperature", jstr "27.5")]%string)]);
     ("風速", [morning_window (jobj [("WindSpeed", jstr "3")]%string)])]%string.

(** A cache that holds the document of Hualien county only. *)
Definition hualien_cache (doc : json) : forecast_cache :=
  fun f_name =>
    if pystr_eqb f_name (u8 "花蓮縣_forecast.json") then Some doc else None.

Definition empty_cache : forecast_cache := fun _ => None.

(** The weather profile of the east. *)
Definition east_config : region_config :=
  {| avg_towns := [(u8 "花蓮縣", u8 "花蓮市")];
     code_town := (u8 "花蓮縣", u8 "花蓮市");
     forecast_files := [u8 "花蓮縣_forecast.json"] |}.

(** No file written yet, and no directory for the tables. *)
Definition empty_world : world :=
  {| state_file := StateAbsent;
     fluctuation_log := [];
     unknown_plants_log := [];
     unit_details_log := [];
     final_dir := false;
     demand_data := [];
     final_data := ∅ |}.


(** A feed with one hydro unit of the east. *)
Definition liwu_feed : list (list pystr) :=
  [[u8 "<b>水力(Hydro)</b>"; []; u8 "立霧#1"; u8 "32.0"; u8 "16.2"; u8 "50.6%"]].

Definition liwu_run (cache : forecast_cache) : run_input :=
  {| plant_map_file := None;
     forecast_files_cache := cache;
     run_time := half_past_nine;
     live_fetch := Some liwu_feed;
     demand_fetch := None |}.



(** An answer of the demand feed with a load of 28,500.5 MW, and the run on
    the feed of 立霧 that receives it. *)
Definition demand_answer : json :=
  jobj [("records", JList [jobj [("curr_load", jstr "28,500.5")]%string])]%string.

Definition demand_run : run_input :=
  {| plant_map_file := None;
     forecast_files_cache := hualien_cache hualien_forecast;
     run_time := half_past_nine;
     live_fetch := Some liwu_feed;
     demand_fetch := Some demand_answer |}.

(** The same run when the request for the feed raises. *)
Definition failed_run : run_input :=
  {| plant_map_file := None;
     forecast_files_cache := hualien_cache hualien_forecast;
     run_time := half_past_nine;
     live_fetch := None;
     demand_fetch := None |}.

(** The feed row of the specification's scenario. *)
Definition linkou_row : list pystr :=
  [u8 "<b>燃煤</b>"; []; u8 "林口#1"; u8 "800.0"; u8 "1,234.5"].

Definition sample_record (unit_name : string) (net_p : Z) : generation_record :=
  {| DATETIME := half_past_nine;
     FUEL_TYPE := u8 "燃煤(Coal)";
     UNIT_NAME := u8 unit_name;
     NET_P := FFin (Zc net_p) |}.

(** A static map that sends a unit to a region outside the seven. *)
Definition west_map : list plant_map_row := [(u8 "X#1", Some (u8 "West"))].

(** A static map with two rows for one unit. *)
Definition double_map : list plant_map_row :=
  [(u8 "X#1", Some (u8 "North")); (u8 "X#1", Some (u8 " South "))].

Definition sample_enriched (region fuel_type : string) (net_p : Z)
    (weather : gmap pystr pyfloat) : enriched_row :=
  {| e_DATETIME := half_past_nine;
     e_REGION := u8 region;
     e_FUEL_TYPE := u8 fuel_type;
     e_NET_P := FFin (Zc net_p);
     e_weather := weather |}.

(** A feature set with every column. *)
Definition sample_weather : gmap pystr pyfloat :=
  list_to_map (List.map (fun c => (c, FFin (Zc 1))) weather_columns).

(** Three units in two groups; the last has no weather. *)
Definition sample_frame : list enriched_row :=
  [sample_enriched "North" "燃煤(Coal)" 500 sample_weather;
   sample_enriched "North" "燃煤(Coal)" 300 sample_weather;
   sample_enriched "Other" "汽電共生(Co-Gen)" 20 ∅].

(** A unit of the north that gives [tenths] tenths of a megawatt. *)
Definition tenths_row (fuel_type : string) (tenths : Z) : enriched_row :=
  {| e_DATETIME := half_past_nine;
     e_REGION := u8 "North";
     e_FUEL_TYPE := u8 fuel_type;
     e_NET_P := binary64 (Q2Qc (tenths # 10));
     e_weather := sample_weather |}.

(** Three units of the north: the first and the last burn coal and give
    631.2 and 689.1 MW, the one between them burns gas and gives 66.4 MW. *)
Definition regrouped_frame : list enriched_row :=
  [tenths_row "燃煤(Coal)" 6312; tenths_row "燃氣(LNG)" 664;
   tenths_row "燃煤(Coal)" 6891].

(** ** Further quantities and sample inputs *)

(** Every character of the string is whitespace. *)
Definition all_space (ws : pystr) : Prop :=
  Forall (fun c => py_isspace c = true) ws.

(** The string neither starts nor ends with whitespace. *)
Definition trimmed (s : pystr) : Prop :=
  (∀ c, head s = Some c → py_isspace c = false) ∧
  (∀ c, last s = Some c → py_isspace c = false).

(** The outcome of the key lookup on a value that has no membership test:
    [k in d] raises as soon as there is a variant to try. *)
Definition lookup_without_membership (key_variants : list pystr) (dflt : json)
    : py_result json :=
  match key_variants with
  | [] => Ok dflt
  | _ :: _ => Raise TypeError
  end.

(** A label followed by a parenthesised remark, as the fuel types are
    written. *)
Definition with_remark (label remark : pystr) : pystr :=
  label ++ [40%N] ++ remark ++ [41%N].

(** No character of the string is a decimal digit. *)
Definition no_digit (s : pystr) : Prop :=
  Forall (fun c => is_digit c = false) s.

(** A weather code as the feature set holds it: a whole number, or NaN when
    there is none. *)
Definition whole_or_nan (f : pyfloat) : Prop :=
  f = FNan ∨ ∃ z : Z, f = FFin (Zc z).

(** The key of an aggregated row. *)
Definition agg_key (a : aggregated_row) : group_key :=
  (agg_DATETIME a, agg_REGION a, agg_FUEL_TYPE a).

(** The order of the group keys, as a relation. *)
Definition key_le (a b : group_key) : Prop := Is_true (key_leb a b).

(** The table file of an aggregated row. *)
Definition path_of (a : aggregated_row) : pystr * pystr :=
  table_path (agg_REGION a) (agg_FUEL_TYPE a).

(** The order of the names in the logs, as a relation. *)
Definition name_le (a b : pystr) : Prop := Is_true (pystr_leb a b).

(** The files after a run that has read [live_data] and holds the demand
    table [demand]: the state, the logs and the unit details are written;
    the tables hold the rows [aggregated], or are as they were when the run
    has stopped before it stored them ([None]). *)
Definition files_after (i : run_input) (w : world)
    (live_data : list (list pystr)) (demand : list (Z * pyfloat))
    (aggregated : option (list aggregated_row)) : world :=
  let formatted_datetime := effective_time_of (run_time i) in
  let records := parse_feed formatted_datetime live_data in
  let current_units := current_units_of records in
  let previous_units := read_previous_units (state_file w) in
  let df_merged := assign_regions (plant_map_file i) records in
  {| state_file := StateUnits (elements current_units);
     fluctuation_log :=
       fluctuation_log w ++
         [fluctuation_report formatted_datetime current_units
            (current_units ∖ previous_units) (previous_units ∖ current_units)];
     unknown_plants_log :=
       unknown_plants_log w ++ [(formatted_datetime, unknown_plants df_merged)];
     unit_details_log := unit_details_log w ++ List.map unit_detail df_merged;
     final_dir := match aggregated with Some _ => true | None => final_dir w end;
     demand_data := demand;
     final_data :=
       match aggregated with
       | Some rows => persist formatted_datetime rows (final_data w)
       | None => final_data w
       end |}.

(** The frame a run merges, and the regions it asks the weather of. *)
Definition merged_frame (i : run_input) (live_data : list (list pystr))
    : list unit_row :=
  assign_regions (plant_map_file i)
    (parse_feed (effective_time_of (run_time i)) live_data).

(** The region of the frame has a weather profile and all the forecast files
    of the profile are in the cache. *)
Definition has_forecasts (cache : forecast_cache) (region : pystr) : Prop :=
  ∃ config,
    config_of region WEATHER_CONFIG = Some config ∧
    ∀ f_name, f_name ∈ forecast_files config → is_Some (cache f_name).

(** Two hydro groups of the north whose fuel types differ in the remark
    only, and their aggregated rows. *)
Definition remark_frame : list enriched_row :=
  [sample_enriched "North" "水力(Hydro)" 40 sample_weather;
   sample_enriched "North" "水力(Pumped)" 60 sample_weather].

Definition hydro_row : aggregated_row :=
  aggregate_group (half_past_nine, u8 "North", u8 "水力(Hydro)") remark_frame.

Definition pumped_row : aggregated_row :=
  aggregate_group (half_past_nine, u8 "North", u8 "水力(Pumped)") remark_frame.

(** The values the towns give for an element, in the order of the towns; a
    town whose lookup gives nothing, and a town whose county has no
    document, add nothing. *)
Definition town_values (forecasts : gmap pystr json)
    (towns : list (pystr * pystr)) (element : pystr) (target_time : Z)
    : list pyfloat :=
  flat_map
    (fun '(county, town) =>
       match forecasts !! county with
       | Some doc =>
           match get_forecast_value doc town element target_time with
           | Ok (Some v) => [v]
           | _ => []
           end
       | None => []
       end)
    towns.

(** The weather code of a region at an instant: the whole part of the value
    its code town gives, NaN when the town gives none. *)
Definition code_value (forecasts : gmap pystr json) (config : region_config)
    (target_time : Z) : py_result pyfloat :=
  match forecasts !! (code_town config).1 with
  | Some doc =>
      w_code ← get_forecast_value doc (code_town config).2 weather_code_element
                 target_time;
      match w_code with
      | Some c => py_int c
      | None => Ok FNan
      end
  | None => Ok FNan
  end.

(** What one round of the scan does with a time window: it selects it, it
    passes on to the next one, or it ends the scan with an exception. *)
Inductive block_outcome :=
  | Selects
  | Skips
  | Stops (e : exn).

Definition outcome_of (target_time : Z) (time_block : json) : block_outcome :=
  match get_case_insensitive_key time_block [u8 "startTime"; u8 "StartTime"] JNull with
  | Raise e => Stops e
  | Ok start_time_str =>
      match get_case_insensitive_key time_block [u8 "endTime"; u8 "EndTime"] JNull with
      | Raise e => Stops e
      | Ok end_time_str =>
          if negb (truthy start_time_str) || negb (truthy end_time_str)
          then Skips
          else
            match to_datetime start_time_str with
            | Raise e => Stops e
            | Ok start_time =>
                match to_datetime end_time_str with
                | Raise e => Stops e
                | Ok end_time =>
                    if in_window start_time target_time end_time
                    then Selects else Skips
                end
            end
      end
  end.

(** The scan passes over the window. *)
Definition skipped (target_time : Z) (time_block : json) : Prop :=
  outcome_of target_time time_block = Skips.

(** The exceptions the lookup lets through besides those it catches. *)
Definition caught_or_overflow (e : exn) : bool :=
  caught_by_lookup e || match e with OverflowError => true | _ => false end.

(** A computation that returns, or raises an exception the lookup catches,
    or [OverflowError]. *)
Definition lenient {A : Type} (r : py_result A) : Prop :=
  match r with
  | Ok _ => True
  | Raise e => caught_or_overflow e = true
  end.

(** A computation that returns or raises one of the listed exceptions. *)
Definition raises_only {A : Type} (allowed : list exn) (r : py_result A) : Prop :=
  match r with
  | Ok _ => True
  | Raise e => e ∈ allowed
  end.

(** The files after a run that found no record: the demand table alone may
    have grown. *)
Definition with_demand (w : world) (demand : list (Z * pyfloat)) : world :=
  {| state_file := state_file w;
     fluctuation_log := fluctuation_log w;
     unknown_plants_log := unknown_plants_log w;
     unit_details_log := unit_details_log w;
     final_dir := final_dir w;
     demand_data := demand;
     final_data := final_data w |}.

(** The regions that have a weather profile. *)
Definition profiled_regions : list pystr := List.map fst WEATHER_CONFIG.

(** A row whose weather columns all hold NaN. *)
Definition no_weather : list (pystr * pyfloat) :=
  List.map (fun c => (c, FNan)) weather_columns.

(** A window of the early morning that has no end, and a forecast whose
    temperature has that window before the window of the morning. *)
Definition open_window (value : json) : json :=
  jobj [("StartTime", jstr "2024-07-01T05:00:00+08:00");
        ("ElementValue", JList [value])]%string.

Definition gap_forecast : json :=
  sample_forecast "林口區"
    [("平均溫度",
      [open_window (jobj [("Temperature", jstr "20")]%string);
       morning_window (jobj [("Temperature", jstr "27.5")]%string)])]%string.

(** A forecast document reduced to the fields the lookup reads, under the
    capitalised names the weather service writes, built from its towns: each
    town with its elements, each element with its time windows. *)
Definition forecast_element (element : pystr * list json) : json :=
  JDict [(u8 "ElementName", JStr element.1); (u8 "Time", JList element.2)].

Definition forecast_town (town : pystr * list (pystr * list json)) : json :=
  JDict [(u8 "LocationName", JStr town.1);
         (u8 "WeatherElement", JList (List.map forecast_element town.2))].

Definition forecast_document (towns : list (pystr * list (pystr * list json)))
    : json :=
  JDict [(u8 "records",
          JDict [(u8 "Locations",
                  JList [JDict [(u8 "Location",
                                 JList (List.map forecast_town towns))]])])].

(** The first entry of a name in a list of named entries. *)
Definition first_named {A : Type} (name : pystr) (entries : list (pystr * A))
    : option A :=
  snd <$> List.find (fun entry => pystr_eqb entry.1 name) entries.



(** ** Properties *)

(** *** FluctuationTracker *)

Lemma sorted_names_elem (names : list pystr) (x : pystr) :
  x ∈ sorted_names names ↔ x ∈ names.
Proof.
  unfold sorted_names. by rewrite merge_sort_Permutation.
Qed.

Lemma unit_diff_added (current previous : gset pystr) (x : pystr) :
  x ∈ (unit_diff current previous).1 ↔ x ∈ current ∧ x ∉ previous.
Proof. unfold unit_diff; simpl. set_solver. Qed.

Lemma unit_diff_missing (current previous : gset pystr) (x : pystr) :
  x ∈ (unit_diff current previous).2 ↔ x ∈ previous ∧ x ∉ current.
Proof. unfold unit_diff; simpl. set_solver. Qed.

(** C8. The diff of the unit sets is the set difference in both directions:
    a name is added when it is in the current set and not in the previous
    one, missing when it is in the previous set and not in the current one.
    The diff of a set with itself is empty on both sides, and for previous
    [{A, B}] and current [{B, C}] the diff is added [{C}], missing [{A}]. *)
Theorem unit_diff_is_set_difference :
  (∀ (current previous : gset pystr) (x : pystr),
     (x ∈ (unit_diff current previous).1 ↔ x ∈ current ∧ x ∉ previous) ∧
     (x ∈ (unit_diff current previous).2 ↔ x ∈ previous ∧ x ∉ current)) ∧
  (∀ U : gset pystr, unit_diff U U = (∅, ∅)) ∧
  (∀ A B C : pystr, A ≠ B → A ≠ C → B ≠ C →
     unit_diff {[B; C]} {[A; B]} = ({[C]}, {[A]})).
Proof.
  split; [|split].
  - intros current previous x. split.
    + apply unit_diff_added.
    + apply unit_diff_missing.
  - intros U. unfold unit_diff. f_equal; set_solver.
  - intros A B C HAB HAC HBC. unfold unit_diff. f_equal; set_solver.
Qed.




(** *** The feed filter *)

Lemma parse_row_Some (formatted_datetime : Z) (row : list pystr) :
  is_Some (parse_row formatted_datetime row) ↔
  (5 ≤ length row)%nat ∧
  ∃ f0 f2 f4 label,
    row !! 0%nat = Some f0 ∧ row !! 2%nat = Some f2 ∧ row !! 4%nat = Some f4 ∧
    py_contains subtotal_marker f2 = false ∧
    py_strip f2 ≠ [] ∧
    bold_label f0 = Some label ∧
    py_contains load_marker label = false ∧
    decimal_match (py_replace (u8 ",") [] f4) = true.
Proof.
  destruct row as [|f0 [|f1 [|f2 [|f3 [|f4 rest]]]]];
    try (split; [intros [? ?]; discriminate | intros [? _]; simpl in *; lia]).
  unfold parse_row. split.
  - intros Hsome. split; [simpl; lia|].
    destruct (py_contains subtotal_marker f2) eqn:Hsub; [by destruct Hsome|].
    destruct (bold_label f0) as [label|] eqn:Hlabel; [|by destruct Hsome].
    destruct (bool_decide (py_strip f2 = [])) eqn:Hname; [by destruct Hsome|].
    destruct (py_contains load_marker label) eqn:Hload; [by destruct Hsome|].
    simpl in Hsome.
    destruct (decimal_match _) eqn:Hnum; [|by destruct Hsome].
    exists f0, f2, f4, label. repeat split; try done.
    by apply bool_decide_eq_false in Hname.
  - intros (_ & g0 & g2 & g4 & label & H0 & H2 & H4 & Hsub & Hname & Hlabel & Hload & Hnum).
    simpl in H0, H2, H4. simplify_eq.
    rewrite Hsub, Hlabel, Hload, Hnum.
    rewrite bool_decide_eq_false_2 by done. simpl. eauto.
Qed.

Lemma parse_row_fields (formatted_datetime : Z) (row : list pystr) r :
  parse_row formatted_datetime row = Some r →
  ∃ f2, row !! 2%nat = Some f2 ∧ UNIT_NAME r = py_strip f2 ∧
        DATETIME r = formatted_datetime.
Proof.
  destruct row as [|f0 [|f1 [|f2 [|f3 [|f4 rest]]]]]; try discriminate.
  unfold parse_row.
  destruct (py_contains subtotal_marker f2); [discriminate|].
  destruct (bold_label f0) as [label|]; [|discriminate].
  destruct (_ || _); [discriminate|].
  destruct (decimal_match _); [|discriminate].
  intros [= <-]. exists f2. done.
Qed.

Lemma parse_row_not_numeric (formatted_datetime : Z) (row : list pystr) f4 :
  row !! 4%nat = Some f4 →
  decimal_match (py_replace (u8 ",") [] f4) = false →
  parse_row formatted_datetime row = None.
Proof.
  intros H4 Hnum.
  destruct (parse_row formatted_datetime row) as [r|] eqn:Hrow; [|done].
  assert (Hsome : is_Some (parse_row formatted_datetime row)) by eauto.
  apply parse_row_Some in Hsome
    as (_ & g0 & g2 & g4 & label & _ & _ & H4' & _ & _ & _ & _ & Hnum').
  congruence.
Qed.

Lemma elem_of_parse_feed (formatted_datetime : Z) live_data r :
  r ∈ parse_feed formatted_datetime live_data ↔
  ∃ row, row ∈ live_data ∧ parse_row formatted_datetime row = Some r.
Proof. unfold parse_feed. apply list_elem_of_omap. Qed.

Lemma elem_of_current_units (records : list generation_record) (u : pystr) :
  u ∈ current_units_of records ↔ ∃ r, r ∈ records ∧ UNIT_NAME r = u.
Proof.
  unfold current_units_of. rewrite elem_of_list_to_set.
  change (List.map UNIT_NAME records) with (UNIT_NAME <$> records).
  rewrite list_elem_of_fmap. naive_solver.
Qed.

(** C10. A record is produced for a feed row exactly when the row has at
    least five fields, its position-2 field holds no subtotal marker and is
    not blank, the first bolded label of its position-0 field holds no load
    marker, and its position-4 field without commas matches the pattern of an
    optionally negative decimal number. A row whose power does not match
    (such as N/A or an empty string) gives no record, and the current unit
    set holds exactly the names of the rows that gave one. *)
Theorem feed_row_filter (formatted_datetime : Z) :
  (∀ row : list pystr,
     is_Some (parse_row formatted_datetime row) ↔
     (5 ≤ length row)%nat ∧
     ∃ f0 f2 f4 label,
       row !! 0%nat = Some f0 ∧ row !! 2%nat = Some f2 ∧ row !! 4%nat = Some f4 ∧
       py_contains subtotal_marker f2 = false ∧
       py_strip f2 ≠ [] ∧
       bold_label f0 = Some label ∧
       py_contains load_marker label = false ∧
       decimal_match (py_replace (u8 ",") [] f4) = true) ∧
  (∀ (row : list pystr) f4,
     row !! 4%nat = Some f4 →
     decimal_match (py_replace (u8 ",") [] f4) = false →
     parse_row formatted_datetime row = None) ∧
  decimal_match (py_replace (u8 ",") [] (u8 "N/A")) = false ∧
  decimal_match (py_replace (u8 ",") [] []) = false ∧
  (∀ (live_data : list (list pystr)) (u : pystr),
     u ∈ current_units_of (parse_feed formatted_datetime live_data) ↔
     ∃ row f2 r,
       row ∈ live_data ∧ parse_row formatted_datetime row = Some r ∧
       row !! 2%nat = Some f2 ∧ u = py_strip f2).
Proof.
  split; [apply parse_row_Some|].
  split; [apply parse_row_not_numeric|].
  split; [reflexivity|]. split; [reflexivity|].
  intros live_data u. rewrite elem_of_current_units. split.
  - intros (r & Hr & Hu). apply elem_of_parse_feed in Hr as (row & Hrow & Hparse).
    destruct (parse_row_fields _ _ _ Hparse) as (f2 & H2 & Hname & _).
    exists row, f2, r. repeat split; try done. congruence.
  - intros (row & f2 & r & Hrow & Hparse & H2 & ->).
    exists r. split.
    + apply elem_of_parse_feed. eauto.
    + destruct (parse_row_fields _ _ _ Hparse) as (g2 & H2' & Hname & _).
      congruence.
Qed.

(** *** The pattern of the power value *)

(** Case analysis on a character until a match on a literal is decided. *)
Ltac split_char_with c tac :=
  destruct c as [|c];
  [try solve [tac]|repeat (destruct c as [c|c|]; try solve [tac])].

Ltac split_char c := split_char_with c ltac:(done).

Lemma span_digits_inv (s ds r : pystr) :
  span_digits s = (ds, r) →
  s = ds ++ r ∧ all_digits ds ∧
  match r with c :: _ => is_digit c = false | [] => True end.
Proof.
  revert ds r. induction s as [|c s IH]; intros ds r; simpl.
  - intros [= <- <-]. repeat split. constructor.
  - destruct (is_digit c) eqn:Hc.
    + destruct (span_digits s) as [ds' r'].
      intros [= <- <-]. destruct (IH ds' r' eq_refl) as (-> & Hds & Hr).
      repeat split; [|done]. by constructor.
    + intros [= <- <-]. repeat split; [constructor|done].
Qed.

Lemma span_digits_app (ds r : pystr) :
  all_digits ds →
  match r with c :: _ => is_digit c = false | [] => True end →
  span_digits (ds ++ r) = (ds, r).
Proof.
  intros Hds Hr. induction Hds as [|c ds Hc Hds IH]; simpl.
  - destruct r as [|c r]; [done|]. simpl. by rewrite Hr.
  - by rewrite Hc, IH.
Qed.

Lemma at_dollar_spec (s : pystr) :
  at_dollar s = true ↔ ∃ newline : bool, s = if newline then [10%N] else [].
Proof.
  unfold at_dollar. rewrite orb_true_iff, !bool_decide_eq_true. split.
  - intros [->| ->]; [by exists false|by exists true].
  - intros [[|] ->]; [by right|by left].
Qed.

(** The strings the pattern accepts: an optional minus, digits, an optional
    point with digits after it, and an optional final newline, which [$]
    lets pass. *)
Lemma take_minus_inv (s : pystr) (negative : bool) (body : pystr) :
  take_minus s = (negative, body) →
  s = (if negative then [45%N] else []) ++ body.
Proof.
  unfold take_minus. destruct s as [|c s]; [by intros [= <- <-]|].
  destruct (decide (c = 45%N)) as [->|Hc]; [by intros [= <- <-]|].
  split_char_with c ltac:(by intros [= <- <-]).
Qed.

Lemma take_minus_digits (ds rest : pystr) :
  ds ≠ [] → all_digits ds → take_minus (ds ++ rest) = (false, ds ++ rest).
Proof.
  intros Hne Hds. destruct Hds as [|c ds Hc _]; [done|]. simpl.
  destruct (decide (c = 45%N)) as [->|Hc45]; [done|]. split_char c.
Qed.

Lemma decimal_match_spec (s : pystr) :
  decimal_match s = true ↔
  ∃ (negative : bool) (ds fs : pystr) (newline : bool),
    ds ≠ [] ∧ all_digits ds ∧ all_digits fs ∧
    s = (if negative then [45%N] else []) ++ ds
        ++ match fs with [] => [] | _ :: _ => 46%N :: fs end
        ++ (if newline then [10%N] else []).
Proof.
  unfold decimal_match. split.
  - destruct (take_minus s) as [negative body] eqn:Hs.
    apply take_minus_inv in Hs.
    destruct (span_digits body) as [ds r1] eqn:Hspan.
    apply span_digits_inv in Hspan as (Hbody & Hds & Hr1).
    intros [Hne Hrest]%andb_prop. apply negb_true_iff, bool_decide_eq_false in Hne.
    apply orb_prop in Hrest as [Hend|Hfrac].
    + apply at_dollar_spec in Hend as [newline ->].
      exists negative, ds, [], newline. repeat split; try done; [constructor|].
      by rewrite Hs, Hbody.
    + destruct r1 as [|c r2]; [done|].
      destruct (decide (c = 46%N)) as [->|Hc]; [|exfalso; split_char c].
      destruct (span_digits r2) as [fs r3] eqn:Hspan2.
      apply span_digits_inv in Hspan2 as (-> & Hfs & _).
      apply andb_prop in Hfrac as [Hfne Hend].
      apply negb_true_iff, bool_decide_eq_false in Hfne.
      apply at_dollar_spec in Hend as [newline ->].
      exists negative, ds, fs, newline. repeat split; try done.
      rewrite Hs, Hbody. by destruct fs.
  - intros (negative & ds & fs & newline & Hne & Hds & Hfs & ->).
    set (rest := match fs with [] => [] | _ :: _ => 46%N :: fs end
                 ++ (if newline then [10%N] else [])).
    assert (take_minus ((if negative then [45%N] else []) ++ ds ++ rest)
            = (negative, ds ++ rest)) as ->.
    { destruct negative; [done|]. by apply (take_minus_digits ds rest). }
    rewrite span_digits_app; [|done|].
    2:{ unfold rest. destruct fs; [destruct newline|]; done. }
    rewrite bool_decide_eq_false_2 by done. cbn [negb andb].
    apply orb_true_iff. unfold rest.
    destruct fs as [|f fs]; cbn [app].
    + left. apply at_dollar_spec. by exists newline.
    + right. change (f :: fs ++ (if newline then [10%N] else []))
        with ((f :: fs) ++ (if newline then [10%N] else [])).
      rewrite (span_digits_app (f :: fs)); [|done|by destruct newline].
      cbn [negb andb]. rewrite bool_decide_eq_false_2 by done.
      apply at_dollar_spec. by exists newline.
Qed.

(** *** The value of a power string *)

Lemma is_digit_value (c : N) :
  is_digit c = true → ∃ d, digit_value c = Some d.
Proof. unfold is_digit. intros [d Hd]%bool_decide_eq_true. eauto. Qed.

Lemma is_digit_range (c : N) :
  is_digit c = true → (48 ≤ c ≤ 57)%N ∨ ((128 ≤ c)%N ∧ py_isspace c = false).
Proof.
  intros [d Hd]%is_digit_value. unfold digit_value in Hd.
  destruct (N.ltb_spec c 128).
  - destruct (N.leb_spec 48 c); destruct (N.leb_spec c 57); simpl in Hd;
      try done. left. lia.
  - destruct (py_isspace c); [done|]. right. split; [lia|done].
Qed.

Lemma digit_not_float_space (c : N) :
  is_digit c = true → float_isspace c = false.
Proof.
  intros [Hc|[Hc Hspace]]%is_digit_range; unfold float_isspace.
  - destruct (N.leb_spec 9 c); destruct (N.leb_spec c 13);
      destruct (N.eqb_spec c 32); destruct (N.leb_spec 128 c); simpl; try done;
      lia.
  - rewrite Hspace.
    destruct (N.leb_spec 9 c); destruct (N.leb_spec c 13);
      destruct (N.eqb_spec c 32); destruct (N.leb_spec 128 c); simpl; try done;
      lia.
Qed.

Lemma digit_not_letter (c : N) :
  is_digit c = true → ascii_lower c = c ∧ c ≠ 105%N ∧ c ≠ 110%N.
Proof.
  intros [Hc|[Hc _]]%is_digit_range; unfold ascii_lower;
    destruct (N.leb_spec 65 c); destruct (N.leb_spec c 90); simpl;
    repeat split; lia.
Qed.

Lemma digit_values_app (a b : pystr) :
  digit_values (a ++ b) = digit_values a ++ digit_values b.
Proof. unfold digit_values. apply omap_app. Qed.

Lemma digit_values_length (ds : pystr) :
  all_digits ds → length (digit_values ds) = length ds.
Proof.
  induction 1 as [|c ds Hc Hds IH]; [done|].
  apply is_digit_value in Hc as [d Hd]. unfold digit_values in *.
  cbn [omap list_omap]. rewrite Hd. cbn [length]. by rewrite IH.
Qed.

Lemma digitpart_digits (after_digit : bool) (ds rest : pystr) :
  all_digits ds → ends_digits rest →
  digitpart after_digit (ds ++ rest) = (digit_values ds, rest).
Proof.
  intros Hds Hrest. revert after_digit.
  induction Hds as [|c ds Hc Hds IH]; intros after_digit; simpl.
  - destruct rest as [|c rest]; [done|]. destruct Hrest as [Hc H95]. simpl.
    unfold is_digit in Hc. apply bool_decide_eq_false in Hc.
    destruct (digit_value c) as [d|] eqn:Hd; [by destruct Hc|].
    by rewrite (proj2 (N.eqb_neq c 95) H95).
  - apply is_digit_value in Hc as [d Hd]. unfold digit_values.
    cbn [omap list_omap]. by rewrite Hd, IH.
Qed.

Lemma float_lstrip_digit (c : N) (s : pystr) :
  float_isspace c = false → float_lstrip (c :: s) = c :: s.
Proof. intros Hc. simpl. by rewrite Hc. Qed.

(** [float] strips the final newline of a string that begins and ends
    otherwise. *)
Lemma float_strip_newline (first last : N) (middle : pystr) (newline : bool) :
  float_isspace first = false → float_isspace last = false →
  float_strip (first :: middle ++ [last] ++ (if newline then [10%N] else [])) =
  first :: middle ++ [last].
Proof.
  intros Hfirst Hlast. unfold float_strip.
  rewrite float_lstrip_digit by done.
  change (first :: middle ++ [last] ++ (if newline then [10%N] else []))
    with ((first :: middle) ++ [last] ++ (if newline then [10%N] else [])).
  rewrite !rev_app_distr.
  assert (float_lstrip ((rev (if newline then [10%N] else [])
                         ++ rev [last]) ++ rev (first :: middle))
          = last :: rev (first :: middle)) as ->.
  { destruct newline; simpl; by rewrite Hlast. }
  change (last :: rev (first :: middle)) with ([last] ++ rev (first :: middle)).
  rewrite rev_app_distr, rev_involutive. done.
Qed.

Lemma all_digits_last (l : pystr) :
  all_digits l → l ≠ [] → ∃ i d, l = i ++ [d] ∧ is_digit d = true.
Proof.
  intros Hl Hne. destruct l as [|c l] using rev_ind; [done|].
  exists l, c. split; [done|].
  unfold all_digits in Hl. rewrite Forall_app in Hl. destruct Hl as [_ Hc].
  by inversion Hc.
Qed.

(** [float] strips nothing but the final newline from a string whose first
    and last characters are no whitespace. *)
Lemma float_strip_core (core : pystr) (newline : bool) :
  (∃ c t, core = c :: t ∧ float_isspace c = false) →
  (∃ i l, core = i ++ [l] ∧ float_isspace l = false) →
  float_strip (core ++ (if newline then [10%N] else [])) = core.
Proof.
  intros (c & t & Hhead & Hc) (i & l & Hlast & Hl). unfold float_strip.
  assert (float_lstrip (core ++ (if newline then [10%N] else []))
          = core ++ (if newline then [10%N] else [])) as ->.
  { rewrite Hhead. simpl. by rewrite Hc. }
  rewrite rev_app_distr.
  assert (float_lstrip (rev (if newline then [10%N] else []) ++ rev core)
          = rev core) as ->.
  { rewrite Hlast, rev_app_distr. destruct newline; simpl; by rewrite Hl. }
  apply rev_involutive.
Qed.

Lemma take_sign_digits (ds rest : pystr) :
  ds ≠ [] → all_digits ds → take_sign (ds ++ rest) = (false, ds ++ rest).
Proof.
  intros Hne Hds. destruct Hds as [|c ds Hc _]; [done|]. simpl.
  destruct (decide (c = 43%N)) as [->|Hc43]; [done|].
  destruct (decide (c = 45%N)) as [->|Hc45]; [done|]. split_char c.
Qed.

(** A string of digits is none of the words [float] knows. *)
Lemma digits_no_word (ds rest : pystr) :
  ds ≠ [] → all_digits ds →
  pystr_eqb (List.map ascii_lower (ds ++ rest)) (u8 "inf")
  || pystr_eqb (List.map ascii_lower (ds ++ rest)) (u8 "infinity") = false ∧
  pystr_eqb (List.map ascii_lower (ds ++ rest)) (u8 "nan") = false.
Proof.
  intros Hne Hds. destruct Hds as [|c ds Hc _]; [done|].
  apply digit_not_letter in Hc as (Hlower & H105 & H110). simpl. rewrite Hlower.
  unfold pystr_eqb. split.
  - apply orb_false_iff. split; apply bool_decide_eq_false; intros [= ? _]; done.
  - apply bool_decide_eq_false. intros [= ? _]. done.
Qed.

(** The number part of a string the pattern accepts: what [decimal_number]
    reads. *)
Lemma decimal_number_parts (negative : bool) (ds fs : pystr) (newline : bool) :
  ds ≠ [] → all_digits ds → all_digits fs →
  decimal_number
    ((if negative then [45%N] else []) ++ ds
     ++ match fs with [] => [] | _ :: _ => 46%N :: fs end
     ++ (if newline then [10%N] else [])) =
  Q2Qc (Qmake
          (if negative then - digits_to_Z (digit_values (ds ++ fs))
           else digits_to_Z (digit_values (ds ++ fs)))
          (Z.to_pos (10 ^ Z.of_nat (length fs)))).
Proof.
  intros Hne Hds Hfs. unfold decimal_number.
  set (rest := match fs with [] => [] | _ :: _ => 46%N :: fs end
               ++ (if newline then [10%N] else [])).
  assert (take_minus ((if negative then [45%N] else []) ++ ds ++ rest)
          = (negative, ds ++ rest)) as ->.
  { destruct negative; [done|]. by apply (take_minus_digits ds rest). }
  rewrite span_digits_app; [|done|].
  2:{ unfold rest. destruct fs; [destruct newline|]; done. }
  unfold rest. destruct fs as [|f fs]; cbn [app]; cbv beta iota.
  - by destruct newline.
  - change (f :: fs ++ (if newline then [10%N] else []))
      with ((f :: fs) ++ (if newline then [10%N] else [])).
    rewrite (span_digits_app (f :: fs)); [done|done|by destruct newline].
Qed.

(** What [float] reads in a string the pattern accepts. *)
Lemma float_of_text_parts (negative : bool) (ds fs : pystr) (newline : bool) :
  ds ≠ [] → all_digits ds → all_digits fs →
  float_of_text
    ((if negative then [45%N] else []) ++ ds
     ++ match fs with [] => [] | _ :: _ => 46%N :: fs end
     ++ (if newline then [10%N] else [])) =
  Some (decimal_float negative (digits_to_Z (digit_values (ds ++ fs)))
          (- Z.of_nat (length fs))).
Proof.
  intros Hne Hds Hfs. unfold float_of_text.
  set (frac := match fs with [] => [] | _ :: _ => 46%N :: fs end).
  (* the stripped text *)
  assert (float_strip ((if negative then [45%N] else []) ++ ds ++ frac
                       ++ (if newline then [10%N] else []))
          = (if negative then [45%N] else []) ++ ds ++ frac) as ->.
  { rewrite !app_assoc. rewrite <- (app_assoc _ ds frac).
    apply float_strip_core.
    - destruct negative; [by exists 45%N, (ds ++ frac)|].
      destruct Hds as [|c ds Hc _]; [done|].
      exists c, (ds ++ frac). split; [done|]. by apply digit_not_float_space.
    - unfold frac. destruct fs as [|f fs].
      + destruct (all_digits_last ds Hds Hne) as (i & d & -> & Hd).
        exists ((if negative then [45%N] else []) ++ i), d.
        split; [by rewrite app_nil_r, !app_assoc|].
        by apply digit_not_float_space.
      + destruct (all_digits_last (f :: fs) Hfs) as (i & d & Hi & Hd); [done|].
        exists ((if negative then [45%N] else []) ++ ds ++ 46%N :: i), d.
        split; [|by apply digit_not_float_space].
        rewrite Hi. by rewrite <- !app_assoc. }
  (* the sign *)
  assert (take_sign ((if negative then [45%N] else []) ++ ds ++ frac)
          = (negative, ds ++ frac)) as ->.
  { destruct negative; [done|]. by apply (take_sign_digits ds frac). }
  destruct (digits_no_word ds frac Hne Hds) as [-> ->].
  (* the integer part and the fraction *)
  rewrite digitpart_digits; [|done|by unfold frac; destruct fs].
  assert (Hip : digit_values ds ≠ []).
  { intros Hnil. apply (f_equal length) in Hnil.
    rewrite digit_values_length in Hnil by done. by destruct ds. }
  rewrite digit_values_app, <- (digit_values_length fs) by done.
  unfold frac. destruct fs as [|f fs]; cbv beta iota.
  - rewrite bool_decide_eq_false_2 by done. done.
  - pose proof (digitpart_digits false (f :: fs) [] Hfs I) as Hfrac.
    rewrite app_nil_r in Hfrac. rewrite Hfrac.
    rewrite bool_decide_eq_false_2 by done. done.
Qed.

(** The power of a record is the float the code reads in the power string,
    as long as that float is finite. *)
Lemma float_of_decimal (s : pystr) :
  decimal_match s = true →
  float_of_text s = Some (FFin (decimal_number s)) ∨
  ∃ negative, float_of_text s = Some (FInf negative).
Proof.
  intros (negative & ds & fs & newline & Hne & Hds & Hfs & ->)%decimal_match_spec.
  rewrite float_of_text_parts, decimal_number_parts by done.
  unfold decimal_float.
  set (m := digits_to_Z (digit_values (ds ++ fs))).
  match goal with |- context [if ?c then FInf _ else _] => destruct c end;
    [right; eauto|left].
  do 2 f_equal. destruct fs as [|f fs].
  - clearbody m. apply Q2Qc_eq_iff.
    change (length (@nil N)) with 0%nat. change (Z.of_nat 0) with 0.
    change (- 0) with 0. change (0 <=? 0) with true. change (10 ^ 0) with 1.
    unfold Qeq. cbn. destruct negative; lia.
  - destruct (0 <=? - Z.of_nat (length (f :: fs))) eqn:Hsign.
    { apply Z.leb_le in Hsign. simpl in Hsign. lia. }
    by rewrite Z.opp_involutive.
Qed.

(** *** Aggregator *)

Section SumOf.
Context {A : Type}.

Lemma sum_of_plus (f g : A → Qc) l :
  sum_of (fun x => (f x + g x)%Qc) l = (sum_of f l + sum_of g l)%Qc.
Proof.
  induction l as [|x l IH]; simpl; [ring|]. rewrite IH. ring.
Qed.

Lemma sum_of_ext (f g : A → Qc) l :
  (∀ x, x ∈ l → f x = g x) → sum_of f l = sum_of g l.
Proof.
  induction l as [|x l IH]; intros Hfg; simpl; [done|].
  rewrite Hfg by apply list_elem_of_here.
  rewrite IH; [done|]. intros y Hy. apply Hfg. by apply list_elem_of_further.
Qed.

Lemma sum_of_zero (f : A → Qc) l :
  (∀ x, x ∈ l → f x = 0%Qc) → sum_of f l = 0%Qc.
Proof.
  induction l as [|x l IH]; intros Hf; simpl; [done|].
  rewrite Hf by apply list_elem_of_here.
  rewrite IH; [ring|]. intros y Hy. apply Hf. by apply list_elem_of_further.
Qed.

Lemma sum_of_Permutation (f : A → Qc) l1 l2 :
  l1 ≡ₚ l2 → sum_of f l1 = sum_of f l2.
Proof.
  induction 1 as [|x l1 l2 _ IH|x y l|l1 l2 l3 _ IH1 _ IH2]; simpl.
  - done.
  - by rewrite IH.
  - ring.
  - by rewrite IH1.
Qed.

Lemma sum_of_filter (f : A → Qc) (p : A → bool) l :
  sum_of f (List.filter p l) = sum_of (fun x => if p x then f x else 0%Qc) l.
Proof.
  induction l as [|x l IH]; simpl; [done|].
  destruct (p x); simpl; rewrite IH; [done|ring].
Qed.

(** A value counted once for the one member of a duplicate-free list it
    is attached to. *)
Lemma sum_of_indicator `{EqDecision A} (c : Qc) (x : A) l :
  NoDup l → x ∈ l →
  sum_of (fun k => if bool_decide (x = k) then c else 0%Qc) l = c.
Proof.
  induction 1 as [|k l Hk Hnd IH]; intros Hx; [by apply elem_of_nil in Hx|].
  simpl. apply elem_of_cons in Hx as [<- | Hx].
  - rewrite bool_decide_eq_true_2 by done.
    rewrite sum_of_zero; [ring|].
    intros y Hy. rewrite bool_decide_eq_false_2; [done|]. by intros <-.
  - rewrite bool_decide_eq_false_2 by (by intros <-).
    rewrite IH by done. ring.
Qed.
End SumOf.

Lemma sum_of_fmap {A B} (g : B → A) (f : A → Qc) (l : list B) :
  sum_of f (List.map g l) = sum_of (fun x => f (g x)) l.
Proof. induction l as [|x l IH]; simpl; [done|]. by rewrite IH. Qed.

(** Summing group by group over a duplicate-free list of keys that covers
    the rows gives the sum over the rows. *)
Lemma sum_of_groups (f : enriched_row → Qc) (keys : list group_key)
    (rows : list enriched_row) :
  NoDup keys → (∀ r, r ∈ rows → key_of r ∈ keys) →
  sum_of (fun k => sum_of f (rows_of_key k rows)) keys = sum_of f rows.
Proof.
  intros Hnd. induction rows as [|r rows IH]; intros Hcover.
  - simpl. by apply sum_of_zero.
  - rewrite (sum_of_ext _
      (fun k => ((if bool_decide (key_of r = k) then f r else 0)
                 + sum_of f (rows_of_key k rows))%Qc)).
    + rewrite sum_of_plus, sum_of_indicator, IH; try done.
      * intros r' Hr'. apply Hcover. by apply list_elem_of_further.
      * apply Hcover. apply list_elem_of_here.
    + intros k _. unfold rows_of_key. simpl.
      destruct (bool_decide (key_of r = k)); simpl; [done|ring].
Qed.

Lemma sorted_keys_NoDup (keys : list group_key) : NoDup (sorted_keys keys).
Proof.
  unfold sorted_keys. rewrite merge_sort_Permutation. apply NoDup_remove_dups.
Qed.

Lemma elem_of_sorted_keys (keys : list group_key) k :
  k ∈ sorted_keys keys ↔ k ∈ keys.
Proof.
  unfold sorted_keys. rewrite merge_sort_Permutation. apply elem_of_remove_dups.
Qed.

Lemma aggregate_rows (rows : list enriched_row) aggregated :
  aggregate rows = Ok aggregated →
  aggregated =
    List.map (fun k => aggregate_group k rows) (sorted_keys (List.map key_of rows)).
Proof.
  unfold aggregate. destruct (forallb _ _); [|discriminate]. by intros [= <-].
Qed.

(** A sum without rounding: the binary64 sum is the sum of the
    rationals. *)
Lemma is_binary64_spec (q : Qc) : is_binary64 q = true → binary64 q = FFin q.
Proof.
  unfold is_binary64. destruct (binary64 q) as [q'| |]; try done.
  intros Heq%Qeq_bool_iff. f_equal. by apply Qc_is_canon.
Qed.

Lemma float_add_finite (x y : Qc) :
  float_add (FFin x) (FFin y) = binary64 (x + y).
Proof. reflexivity. Qed.

Lemma float_sub_finite (x y : Qc) :
  float_sub (FFin x) (FFin y) = binary64 (x + - y).
Proof. reflexivity. Qed.

Lemma kahan_add_exact (acc q : Qc) :
  is_binary64 q = true → is_binary64 (acc + q) = true →
  kahan_add (FFin acc, FFin 0) (FFin q) = (FFin (acc + q), FFin 0).
Proof.
  intros Hq%is_binary64_spec Hsum%is_binary64_spec.
  unfold kahan_add. cbn [is_nan].
  rewrite float_sub_finite. replace (q + - 0)%Qc with q by ring.
  rewrite Hq, float_add_finite, Hsum, float_sub_finite.
  replace (acc + q + - acc)%Qc with q by ring.
  rewrite Hq, float_sub_finite. replace (q + - q)%Qc with 0%Qc by ring.
  reflexivity.
Qed.

Lemma kahan_exact (values : list pyfloat) (acc : Qc) :
  exactly_added acc values = true →
  fold_left kahan_add values (FFin acc, FFin 0) =
  (FFin (acc + sum_of rational values), FFin 0).
Proof.
  revert acc.
  induction values as [|[q| |] values IH]; intros acc;
    cbn [exactly_added fold_left]; try done.
  - intros _. cbn. do 2 f_equal. ring.
  - intros [[Hq Hsum]%andb_prop Hrest]%andb_prop.
    rewrite kahan_add_exact, IH by done.
    change (sum_of rational (FFin q :: values))
      with (q + sum_of rational values)%Qc.
    do 2 f_equal. ring.
Qed.

Lemma group_sum_exact (values : list pyfloat) :
  exactly_added 0 values = true →
  group_sum values = FFin (sum_of rational values).
Proof.
  intros Hexact. unfold group_sum. rewrite (kahan_exact _ _ Hexact).
  cbn [fst]. f_equal. ring.
Qed.

Lemma rows_of_key_key (k : group_key) (rows : list enriched_row) r :
  r ∈ rows_of_key k rows → key_of r = k.
Proof.
  unfold rows_of_key. intros Hr.
  apply list_elem_of_In, filter_In in Hr as [_ Hr].
  by apply bool_decide_eq_true in Hr.
Qed.

(** C4, as the code has it. The net power of an aggregated row is the sum
    pandas computes, in binary64, of the net powers of its group. When no
    addition of the grouping rounds (every net power of a group of the
    timestamp and every running sum of the group is a binary64 number), the
    aggregated rows of a timestamp carry, in total, the net power of the
    enriched records of that timestamp. *)
Theorem aggregation_conserves_power (rows : list enriched_row)
    (aggregated : list aggregated_row) (timestamp : Z) :
  aggregate rows = Ok aggregated →
  (∀ a, a ∈ aggregated →
     agg_NET_P a =
       group_sum (List.map e_NET_P (rows_of_key (agg_key a) rows))) ∧
  ((∀ r, r ∈ rows → e_DATETIME r = timestamp →
      exactly_added 0 (List.map e_NET_P (rows_of_key (key_of r) rows)) = true) →
   aggregated_power_at timestamp aggregated = record_power_at timestamp rows).
Proof.
  intros ->%aggregate_rows. split.
  { intros a (k & -> & _)%list_elem_of_fmap. by destruct k as [[t region] fuel]. }
  intros Hexact.
  unfold aggregated_power_at, record_power_at.
  rewrite !sum_of_filter, sum_of_fmap.
  set (f := fun r => if e_DATETIME r =? timestamp then rational (e_NET_P r)
                     else 0%Qc).
  rewrite <- (sum_of_groups f (sorted_keys (List.map key_of rows)) rows).
  - apply sum_of_ext. intros k Hk.
    rewrite elem_of_sorted_keys in Hk.
    change (k ∈ key_of <$> rows) in Hk.
    apply list_elem_of_fmap in Hk as (r0 & -> & Hr0).
    cbn [aggregate_group agg_DATETIME agg_NET_P]. unfold sum_net_p.
    change ((key_of r0).1.1) with (e_DATETIME r0).
    destruct (e_DATETIME r0 =? timestamp) eqn:Ht.
    + rewrite group_sum_exact by (apply Hexact; [done|by apply Z.eqb_eq]).
      cbn [rational]. rewrite sum_of_fmap.
      apply sum_of_ext. intros r Hr%rows_of_key_key. unfold f.
      injection Hr as -> _ _. by rewrite Ht.
    + symmetry. apply sum_of_zero. intros r Hr%rows_of_key_key. unfold f.
      injection Hr as -> _ _. by rewrite Ht.
  - apply sorted_keys_NoDup.
  - intros r Hr. apply elem_of_sorted_keys.
    change (key_of r ∈ key_of <$> rows). by apply list_elem_of_fmap_2.
Qed.

(** *** SegmentedStore *)

Lemma not_at_all_at (timestamp : Z) (group : list aggregated_row) :
  (∀ r, r ∈ group → agg_DATETIME r = timestamp) →
  List.filter (not_at timestamp) group = [].
Proof.
  induction group as [|r group IH]; intros Hall; simpl; [done|].
  unfold not_at at 1. rewrite (Hall r) by apply list_elem_of_here.
  rewrite Z.eqb_refl. simpl. apply IH.
  intros r' Hr'. apply Hall. by apply list_elem_of_further.
Qed.

Lemma not_at_idempotent (timestamp : Z) (table : list aggregated_row) :
  List.filter (not_at timestamp) (List.filter (not_at timestamp) table) =
  List.filter (not_at timestamp) table.
Proof.
  induction table as [|r table IH]; simpl; [done|].
  destruct (not_at timestamp r) eqn:Hr; simpl; [|done]. by rewrite Hr, IH.
Qed.

Lemma is_at_not_at (timestamp : Z) (table : list aggregated_row) :
  List.filter (is_at timestamp) (List.filter (not_at timestamp) table) = [].
Proof.
  induction table as [|r table IH]; simpl; [done|].
  unfold not_at at 1, is_at.
  destruct (agg_DATETIME r =? timestamp) eqn:Hr; simpl; [done|]. by rewrite Hr.
Qed.

Lemma is_at_other_not_at (t timestamp : Z) (table : list aggregated_row) :
  t ≠ timestamp →
  List.filter (is_at t) (List.filter (not_at timestamp) table) =
  List.filter (is_at t) table.
Proof.
  intros Ht. induction table as [|r table IH]; simpl; [done|].
  unfold not_at at 1, is_at.
  destruct (agg_DATETIME r =? timestamp) eqn:Hr; simpl.
  - apply Z.eqb_eq in Hr. rewrite Hr.
    destruct (timestamp =? t) eqn:Hts; [apply Z.eqb_eq in Hts; done|]. apply IH.
  - destruct (agg_DATETIME r =? t); [f_equal|]; apply IH.
Qed.

(** The table an upsert writes, whether or not a file was there. *)
Lemma upsert_table_eq (timestamp : Z) group existing :
  upsert_table timestamp group existing =
  List.filter (not_at timestamp) (default [] existing) ++ group.
Proof. by destruct existing. Qed.

Lemma last_writer_Some path keys k :
  last_writer path keys = Some k → k ∈ keys ∧ table_path k.1 k.2 = path.
Proof.
  induction keys as [|k0 keys IH]; simpl; [done|].
  destruct (last_writer path keys) as [k'|].
  - intros [= ->]. destruct IH as [? ?]; [done|]. split; [by right|done].
  - case_bool_decide; [|done]. intros [= ->]. split; [by left|done].
Qed.

Lemma last_writer_None path keys k :
  last_writer path keys = None → k ∈ keys → table_path k.1 k.2 ≠ path.
Proof.
  induction keys as [|k0 keys IH]; simpl; [by intros _ ?%elem_of_nil|].
  destruct (last_writer path keys) as [k'|]; [done|].
  case_bool_decide; [done|]. intros _ [->|?]%elem_of_cons; [done|by apply IH].
Qed.

(** What the loop leaves at a path: the rows of its last writer after the
    rows of other timestamps that were there. *)
Lemma persist_groups_lookup (timestamp : Z) (aggregated : list aggregated_row)
    keys store path :
  (∀ r, r ∈ aggregated → agg_DATETIME r = timestamp) →
  persist_groups timestamp keys aggregated store !! path =
  match last_writer path keys with
  | Some k =>
      Some (List.filter (not_at timestamp) (default [] (store !! path))
            ++ rows_of_table k aggregated)
  | None => store !! path
  end.
Proof.
  intros Hall. revert store.
  induction keys as [|[region fuel] keys IH]; intros store; simpl; [done|].
  rewrite IH. rewrite upsert_table_eq.
  destruct (last_writer path keys) as [k'|] eqn:Hlast.
  - destruct (decide (table_path region fuel = path)) as [<-|Hne].
    + rewrite lookup_insert_eq. simpl.
      rewrite List.filter_app, not_at_idempotent.
      rewrite (not_at_all_at timestamp (rows_of_table _ _)), app_nil_r; [done|].
      intros r Hr. apply Hall.
      apply list_elem_of_In, filter_In in Hr as [Hr _]. by apply list_elem_of_In.
    + by rewrite lookup_insert_ne.
  - case_bool_decide as Hp.
    + rewrite <- Hp. by rewrite lookup_insert_eq.
    + by rewrite lookup_insert_ne.
Qed.
Lemma filter_ext_elem {A} (p q : A → bool) (l : list A) :
  (∀ x, x ∈ l → p x = q x) → List.filter p l = List.filter q l.
Proof.
  induction l as [|x l IH]; intros Hpq; simpl; [done|].
  rewrite (Hpq x) by apply list_elem_of_here.
  rewrite IH; [done|]. intros y Hy. apply Hpq. by apply list_elem_of_further.
Qed.

Lemma filter_eq_NoDup `{EqDecision A} (x : A) (l : list A) :
  NoDup l → x ∈ l → List.filter (fun y => bool_decide (y = x)) l = [x].
Proof.
  induction 1 as [|y l Hy Hnd IH]; intros Hx; [by apply elem_of_nil in Hx|].
  simpl. apply elem_of_cons in Hx as [-> | Hx].
  - rewrite bool_decide_eq_true_2 by done. f_equal.
    clear IH Hnd. induction l as [|z l IH]; simpl; [done|].
    rewrite bool_decide_eq_false_2.
    + apply IH. intros ?. apply Hy. by right.
    + intros ->. apply Hy. by left.
  - rewrite bool_decide_eq_false_2 by (by intros ->). by apply IH.
Qed.

Lemma filter_map_comm {A B} (f : A → B) (p : B → bool) (l : list A) :
  List.filter p (List.map f l) = List.map f (List.filter (fun x => p (f x)) l).
Proof.
  induction l as [|x l IH]; simpl; [done|].
  destruct (p (f x)); simpl; by rewrite IH.
Qed.

Section OneTimestamp.
Variable timestamp : Z.
Variable rows : list enriched_row.
Hypothesis rows_at_timestamp : ∀ r, r ∈ rows → e_DATETIME r = timestamp.

Local Abbreviation keys := (sorted_keys (List.map key_of rows)).
Local Abbreviation aggregated :=
  (List.map (fun κ => aggregate_group κ rows) keys).

Lemma keys_at_timestamp k : k ∈ keys → k.1.1 = timestamp.
Proof.
  intros Hk. rewrite elem_of_sorted_keys in Hk.
  change (k ∈ key_of <$> rows) in Hk.
  apply list_elem_of_fmap in Hk as (r & -> & Hr). simpl.
  by apply rows_at_timestamp.
Qed.

Lemma aggregated_at_timestamp a :
  a ∈ aggregated → agg_DATETIME a = timestamp.
Proof.
  intros Ha. change (a ∈ (fun k => aggregate_group k rows) <$> keys) in Ha.
  apply list_elem_of_fmap in Ha as (k & -> & Hk). simpl.
  by apply keys_at_timestamp.
Qed.

Lemma table_keys_of_aggregated k :
  k ∈ List.map table_key aggregated ↔ (timestamp, k.1, k.2) ∈ keys.
Proof.
  change (List.map table_key aggregated) with (table_key <$> aggregated).
  rewrite list_elem_of_fmap. split.
  - intros (a & -> & Ha).
    change (a ∈ (fun k => aggregate_group k rows) <$> keys) in Ha.
    apply list_elem_of_fmap in Ha as ([[t region] fuel] & -> & Hk). simpl.
    by rewrite <- (keys_at_timestamp _ Hk).
  - intros Hk. exists (aggregate_group (timestamp, k.1, k.2) rows). split.
    + by destruct k.
    + by apply (list_elem_of_fmap_2 (fun κ => aggregate_group κ rows)).
Qed.

(** Every table key of the aggregated frame has exactly one row. *)
Lemma one_row_per_table k :
  k ∈ List.map table_key aggregated →
  rows_of_table k aggregated = [aggregate_group (timestamp, k.1, k.2) rows].
Proof.
  intros Hk%table_keys_of_aggregated.
  unfold rows_of_table. rewrite filter_map_comm.
  rewrite (filter_ext_elem _ (fun κ => bool_decide (κ = (timestamp, k.1, k.2)))).
  - rewrite filter_eq_NoDup; [done|apply sorted_keys_NoDup|done].
  - intros [[t region] fuel] Hκ. apply keys_at_timestamp in Hκ. simpl in Hκ.
    subst t. unfold table_key. simpl. destruct k as [kr kf]. simpl.
    apply bool_decide_ext. split; [by intros [= -> ->]|by intros [= -> ->]].
Qed.
End OneTimestamp.

Lemma persist_keys_elem (aggregated : list aggregated_row) k :
  k ∈ merge_sort (fun a b => Is_true (pair_leb a b))
        (remove_dups (List.map table_key aggregated)) ↔
  k ∈ List.map table_key aggregated.
Proof. rewrite merge_sort_Permutation. apply elem_of_remove_dups. Qed.

Lemma persist_lookup (timestamp : Z) (aggregated : list aggregated_row) store path :
  (∀ r, r ∈ aggregated → agg_DATETIME r = timestamp) →
  (∃ k, k ∈ List.map table_key aggregated ∧ table_path k.1 k.2 = path ∧
        persist timestamp aggregated store !! path =
        Some (List.filter (not_at timestamp) (default [] (store !! path))
              ++ rows_of_table k aggregated)) ∨
  ((∀ k, k ∈ List.map table_key aggregated → table_path k.1 k.2 ≠ path) ∧
   persist timestamp aggregated store !! path = store !! path).
Proof.
  intros Hall. unfold persist.
  rewrite (persist_groups_lookup timestamp aggregated _ store path Hall).
  destruct (last_writer path _) as [k|] eqn:Hlast.
  - left. apply last_writer_Some in Hlast as [Hk Hp].
    apply persist_keys_elem in Hk. eauto.
  - right. split; [|done]. intros k Hk%persist_keys_elem.
    by eapply last_writer_None.
Qed.
Lemma rows_at_app (t : Z) (l1 l2 : list aggregated_row) :
  rows_at t (l1 ++ l2) = (rows_at t l1 + rows_at t l2)%nat.
Proof. unfold rows_at. by rewrite List.filter_app, length_app. Qed.

Lemma rows_of_table_at (timestamp : Z) (aggregated : list aggregated_row) k :
  (∀ r, r ∈ aggregated → agg_DATETIME r = timestamp) →
  ∀ r, r ∈ rows_of_table k aggregated → agg_DATETIME r = timestamp.
Proof.
  intros Hall r Hr. apply Hall.
  apply list_elem_of_In, filter_In in Hr as [Hr _]. by apply list_elem_of_In.
Qed.

(** A second run with the same rows rewrites every table as it is. *)
Lemma persist_twice (timestamp : Z) (aggregated : list aggregated_row) store :
  (∀ r, r ∈ aggregated → agg_DATETIME r = timestamp) →
  persist timestamp aggregated (persist timestamp aggregated store) =
  persist timestamp aggregated store.
Proof.
  intros Hall. apply map_eq. intros path. unfold persist.
  rewrite !(persist_groups_lookup timestamp aggregated _ _ path Hall).
  destruct (last_writer path _) as [k|]; [|done]. simpl.
  rewrite List.filter_app, not_at_idempotent.
  rewrite (not_at_all_at timestamp (rows_of_table k aggregated)), app_nil_r;
    [done|by apply rows_of_table_at].
Qed.

(** The table a run leaves at a path it writes: one row of the run's
    timestamp after the rows of other timestamps. *)
Lemma persist_written (rows : list enriched_row) (timestamp : Z) store path :
  (∀ r, r ∈ rows → e_DATETIME r = timestamp) →
  let aggregated :=
    List.map (fun k => aggregate_group k rows) (sorted_keys (List.map key_of rows)) in
  (∃ a, a ∈ aggregated ∧ agg_DATETIME a = timestamp ∧
        table_path (agg_REGION a) (agg_FUEL_TYPE a) = path ∧
        persist timestamp aggregated store !! path =
        Some (List.filter (not_at timestamp) (default [] (store !! path)) ++ [a])) ∨
  ((∀ a, a ∈ aggregated → table_path (agg_REGION a) (agg_FUEL_TYPE a) ≠ path) ∧
   persist timestamp aggregated store !! path = store !! path).
Proof.
  intros Hrows aggregated.
  assert (Hall : ∀ a, a ∈ aggregated → agg_DATETIME a = timestamp)
    by (by apply aggregated_at_timestamp).
  destruct (persist_lookup timestamp aggregated store path Hall)
    as [(k & Hk & Hpath & Hlookup) | [Hnone Hlookup]].
  - left. unfold aggregated in Hlookup.
    rewrite (one_row_per_table timestamp rows Hrows k Hk) in Hlookup.
    exists (aggregate_group (timestamp, k.1, k.2) rows).
    split; [|by repeat split].
    apply (table_keys_of_aggregated timestamp rows Hrows) in Hk.
    by apply (list_elem_of_fmap_2 (fun κ => aggregate_group κ rows)).
  - right. split; [|done]. intros a Ha. apply (Hnone (table_key a)).
    by apply (list_elem_of_fmap_2 table_key).
Qed.

(** Persisting the aggregated rows of one timestamp, once and twice. *)
Lemma persist_once_and_twice (rows : list enriched_row)
    (aggregated : list aggregated_row) (timestamp : Z)
    (store : gmap (pystr * pystr) (list aggregated_row)) :
  aggregate rows = Ok aggregated →
  (∀ r, r ∈ rows → e_DATETIME r = timestamp) →
  let once := persist timestamp aggregated store in
  let twice := persist timestamp aggregated once in
  twice = once ∧
  (∀ a, a ∈ aggregated →
     ∃ table, twice !! table_path (agg_REGION a) (agg_FUEL_TYPE a) = Some table ∧
              rows_at timestamp table = 1%nat) ∧
  (∀ path table t, twice !! path = Some table → t ≠ timestamp →
     rows_at t table = rows_at t (default [] (store !! path))) ∧
  ((∀ path table t, store !! path = Some table → (rows_at t table ≤ 1)%nat) →
   ∀ path table t, twice !! path = Some table → (rows_at t table ≤ 1)%nat).
Proof.
  intros ->%aggregate_rows Hrows once twice.
  assert (Hsame : twice = once).
  { apply persist_twice. by apply aggregated_at_timestamp. }
  rewrite Hsame. clear twice Hsame. unfold once. clear once.
  assert (Hone : ∀ path a,
    persist timestamp
      (List.map (fun k => aggregate_group k rows) (sorted_keys (List.map key_of rows)))
      store !! path =
      Some (List.filter (not_at timestamp) (default [] (store !! path)) ++ [a]) →
    agg_DATETIME a = timestamp →
    ∀ t, rows_at t
           (List.filter (not_at timestamp) (default [] (store !! path)) ++ [a]) =
         if decide (t = timestamp) then 1%nat
         else rows_at t (default [] (store !! path))).
  { intros path a _ Hts t. rewrite rows_at_app. unfold rows_at.
    change (fun r => agg_DATETIME r =? t) with (is_at t).
    case_decide as Ht.
    - subst t. rewrite is_at_not_at. simpl. unfold is_at.
      by rewrite Hts, Z.eqb_refl.
    - rewrite is_at_other_not_at by done. simpl. unfold is_at. rewrite Hts.
      destruct (timestamp =? t) eqn:Heq; [apply Z.eqb_eq in Heq; done|].
      simpl. lia. }
  split; [done|]. split; [|split].
  - intros a Ha.
    destruct (persist_written rows timestamp store
                (table_path (agg_REGION a) (agg_FUEL_TYPE a)) Hrows)
      as [(a' & Ha' & Hts & Hpath & Hlookup) | [Hnone _]].
    + eexists. split; [exact Hlookup|].
      rewrite (Hone _ _ Hlookup Hts). by rewrite decide_True.
    + exfalso. by apply (Hnone a).
  - intros path table t Hlookup Ht.
    destruct (persist_written rows timestamp store path Hrows)
      as [(a' & Ha' & Hts & Hpath & Hlookup') | [_ Hlookup']].
    + rewrite Hlookup' in Hlookup. injection Hlookup as <-.
      rewrite (Hone _ _ Hlookup' Hts). by rewrite decide_False.
    + rewrite Hlookup' in Hlookup. by rewrite Hlookup.
  - intros Hstore path table t Hlookup.
    destruct (persist_written rows timestamp store path Hrows)
      as [(a' & Ha' & Hts & Hpath & Hlookup') | [_ Hlookup']].
    + rewrite Hlookup' in Hlookup. injection Hlookup as <-.
      rewrite (Hone _ _ Hlookup' Hts). case_decide; [done|].
      destruct (store !! path) as [old|] eqn:Hold; simpl; [|unfold rows_at; simpl; lia].
      by eapply Hstore.
    + rewrite Hlookup' in Hlookup. by eapply Hstore.
Qed.


(** *** RegionResolver *)

Lemma assign_regions_cons (plant_map : option (list plant_map_row))
    (r : generation_record) (records : list generation_record) :
  assign_regions plant_map (r :: records) =
  assign_regions plant_map [r] ++ assign_regions plant_map records.
Proof.
  unfold assign_regions. destruct plant_map as [rows|]; simpl; [|done].
  by rewrite app_nil_r, List.map_app.
Qed.

(** The first entry of a keyword table with a keyword in the name wins. *)
Lemma infer_region_in_Some (table : list (pystr * list pystr))
    (unit_name region : pystr) :
  infer_region_in table unit_name = Some region ↔
  ∃ (i : nat) keywords,
    table !! i = Some (region, keywords) ∧
    (∃ kw, kw ∈ keywords ∧ py_contains kw unit_name = true) ∧
    ∀ (j : nat) entry, (j < i)%nat → table !! j = Some entry →
      ∀ kw, kw ∈ entry.2 → py_contains kw unit_name = false.
Proof.
  induction table as [|[region0 keywords0] table IH]; simpl.
  { split; [done|]. by intros (i & keywords & Hi & _). }
  destruct (existsb _ keywords0) eqn:Hany.
  - apply existsb_exists in Hany as (kw & Hkw%list_elem_of_In & Hin).
    split.
    + intros [= <-]. exists 0%nat, keywords0. split; [done|]. split; [eauto|].
      intros j entry Hj. lia.
    + intros (i & keywords & Hi & _ & Hfirst). destruct i as [|i].
      * simpl in Hi. by injection Hi as -> _.
      * exfalso. specialize (Hfirst 0%nat (region0, keywords0)).
        rewrite (Hfirst ltac:(lia) eq_refl kw Hkw) in Hin. done.
  - assert (Hnone : ∀ kw, kw ∈ keywords0 → py_contains kw unit_name = false).
    { intros kw Hkw. destruct (py_contains kw unit_name) eqn:Hin; [|done].
      assert (existsb (fun kw => py_contains kw unit_name) keywords0 = true)
        as Hex; [|congruence].
      apply existsb_exists. exists kw. split; [by apply list_elem_of_In|done]. }
    rewrite IH. split.
    + intros (i & keywords & Hi & Hkw & Hfirst). exists (S i), keywords.
      split; [done|]. split; [done|]. intros [|j] entry Hj Hentry.
      * simpl in Hentry. injection Hentry as <-. exact Hnone.
      * apply (Hfirst j); [lia|done].
    + intros (i & keywords & Hi & Hkw & Hfirst). destruct i as [|i].
      * simpl in Hi. injection Hi as -> ->. destruct Hkw as (kw & Hkw & Hin).
        rewrite (Hnone kw Hkw) in Hin. done.
      * exists i, keywords. split; [done|]. split; [done|].
        intros j entry Hj Hentry. apply (Hfirst (S j)); [lia|done].
Qed.

Lemma infer_region_in_None (table : list (pystr * list pystr))
    (unit_name : pystr) :
  infer_region_in table unit_name = None ↔
  ∀ entry kw, entry ∈ table → kw ∈ entry.2 → py_contains kw unit_name = false.
Proof.
  induction table as [|[region0 keywords0] table IH]; simpl.
  { split; [|done]. by intros _ entry kw ?%elem_of_nil. }
  destruct (existsb _ keywords0) eqn:Hany.
  - apply existsb_exists in Hany as (kw & Hkw%list_elem_of_In & Hin).
    split; [done|]. intros Hall.
    rewrite (Hall (region0, keywords0) kw) in Hin; [done|by left|done].
  - rewrite IH. split.
    + intros Hall entry kw [->|Hentry]%elem_of_cons Hkw; [|by eapply Hall].
      simpl in Hkw. destruct (py_contains kw unit_name) eqn:Hin; [|done].
      assert (existsb (fun kw => py_contains kw unit_name) keywords0 = true)
        as Hex; [|congruence].
      apply existsb_exists. exists kw. split; [by apply list_elem_of_In|done].
    + intros Hall entry kw Hentry. apply Hall. by right.
Qed.

Lemma strip_known_region (region : pystr) :
  region ∈ known_regions → py_strip region = region.
Proof.
  unfold known_regions. rewrite !elem_of_cons, elem_of_nil.
  intros [->|[->|[->|[->|[->|[->|[->|[]]]]]]]]; reflexivity.
Qed.

Lemma inferred_region_known (unit_name : pystr) :
  default unknown_region (infer_region_from_name unit_name) ∈ known_regions.
Proof.
  destruct (infer_region_from_name unit_name) as [region|] eqn:Hinfer; simpl.
  - apply infer_region_in_Some in Hinfer as (i & keywords & Hi & _).
    do 6 (destruct i as [|i]; [injection Hi as <- _; set_solver|]).
    done.
  - set_solver.
Qed.

(** C5, as the code has it. A unit name without a row in the static map
    gets exactly one row, whose region is the first region in table order
    with a keyword occurring in the name, else Unknown, and is one of the
    seven regions. A unit name with rows in the static map gets one row for
    each of them, carrying the map's region with the surrounding whitespace
    stripped, whatever string it is; the keywords are consulted only where
    the map's region cell is empty. *)
Theorem region_resolution (plant_map : option (list plant_map_row))
    (r : generation_record) :
  (static_rows plant_map (UNIT_NAME r) = [] →
   ∃ region,
     assign_regions plant_map [r] = [{| unit_record := r; REGION := region |}] ∧
     region = default unknown_region (infer_region_from_name (UNIT_NAME r)) ∧
     region ∈ known_regions) ∧
  (static_rows plant_map (UNIT_NAME r) ≠ [] →
   assign_regions plant_map [r] =
     List.map (fun m => {| unit_record := r;
                           REGION := resolve_region (UNIT_NAME r) m.2 |})
       (static_rows plant_map (UNIT_NAME r)) ∧
   ∀ region, resolve_region (UNIT_NAME r) (Some region) = py_strip region) ∧
  (∀ region,
     infer_region_from_name (UNIT_NAME r) = Some region ↔
     ∃ (i : nat) keywords,
       region_keywords !! i = Some (region, keywords) ∧
       (∃ kw, kw ∈ keywords ∧ py_contains kw (UNIT_NAME r) = true) ∧
       ∀ (j : nat) entry, (j < i)%nat → region_keywords !! j = Some entry →
         ∀ kw, kw ∈ entry.2 → py_contains kw (UNIT_NAME r) = false) ∧
  (infer_region_from_name (UNIT_NAME r) = None ↔
   ∀ entry kw, entry ∈ region_keywords → kw ∈ entry.2 →
     py_contains kw (UNIT_NAME r) = false).
Proof.
  split; [|split; [|split]].
  - intros Hstatic. eexists. split; [|split; [reflexivity|]].
    + unfold assign_regions, static_rows in *.
      destruct plant_map as [rows|]; simpl.
      * rewrite Hstatic. simpl. unfold resolve_region.
        by rewrite strip_known_region by apply inferred_region_known.
      * unfold resolve_region.
        by rewrite strip_known_region by apply inferred_region_known.
    + apply inferred_region_known.
  - intros Hstatic. split; [|done].
    unfold assign_regions, static_rows in *.
    destruct plant_map as [rows|]; [|done]. unfold merge_left. simpl.
    rewrite app_nil_r.
    destruct (List.filter (fun m => pystr_eqb m.1 (UNIT_NAME r)) rows)
      as [|m matches]; [done|].
    simpl. f_equal. by rewrite List.map_map.
  - intros region. apply infer_region_in_Some.
  - apply infer_region_in_None.
Qed.

(** *** WeatherEnricher *)

Lemma load_forecasts_missing (cache : forecast_cache) (files : list pystr)
    (forecasts : gmap pystr json) :
  (∃ f_name, f_name ∈ files ∧ cache f_name = None) →
  load_forecasts cache files forecasts = None.
Proof.
  revert forecasts. induction files as [|f files IH]; intros forecasts.
  - by intros (f_name & ?%elem_of_nil & _).
  - intros (f_name & Hin & Hmissing). simpl.
    destruct (cache f) as [doc|] eqn:Hf; [|done].
    apply IH. apply elem_of_cons in Hin as [->|Hin]; [congruence|eauto].
Qed.





Ltac key_ne := vm_compute; congruence.


(** *** The pipeline driver *)

Lemma run_pipeline_fetch_failed (i : run_input) (w : world) :
  live_fetch i = None → run_pipeline i w = (w, Ok FetchFailed).
Proof. intros Hfetch. unfold run_pipeline. by rewrite Hfetch. Qed.

(** C7, as the code has it. A run whose fetch of the generation feed fails
    ends there: no file is changed. A run that ends without an exception
    either reports success, having written the state file, a fluctuation
    entry and the tables, or leaves the state file, the fluctuation log and
    the tables as they were. *)
Theorem fetch_failure_atomicity (i : run_input) (w : world) :
  (live_fetch i = None → run_pipeline i w = (w, Ok FetchFailed)) ∧
  (∀ w' outcome, run_pipeline i w = (w', Ok outcome) →
     (outcome = Successful ∧
      ∃ live_data aggregated entry,
        live_fetch i = Some live_data ∧
        state_file w' =
          StateUnits (elements (current_units_of
            (parse_feed (effective_time_of (run_time i)) live_data))) ∧
        fluctuation_log w' = fluctuation_log w ++ [entry] ∧
        final_data w' =
          persist (effective_time_of (run_time i)) aggregated (final_data w)) ∨
     (outcome ≠ Successful ∧
      state_file w' = state_file w ∧
      fluctuation_log w' = fluctuation_log w ∧
      final_data w' = final_data w)).
Proof.
  split; [apply run_pipeline_fetch_failed|].
  intros w' outcome. unfold run_pipeline.
  destruct (live_fetch i) as [live_data|] eqn:Hfetch.
  - destruct (fetch_and_save_demand_data _ _ _ _) as [demand|e]; [|done].
    destruct (parse_feed _ live_data) as [|r records] eqn:Hparse.
    { intros [= <- <-]. right. done. }
    simpl.
    destruct (weather_for_regions _ _ _ _) as [cache|e]; [|done].
    destruct (aggregate _) as [aggregated|e]; [|done].
    intros [= <- <-]. left. split; [done|].
    eexists live_data, aggregated, _. rewrite Hparse. done.
  - intros [= <- <-]. right. done.
Qed.

(** *** Two runs on the same inputs *)

(** The records of a feed carry the run's timestamp through the merge and
    the enrichment. *)
Lemma assign_regions_one (plant_map : option (list plant_map_row))
    (r : generation_record) (row : unit_row) :
  row ∈ assign_regions plant_map [r] → unit_record row = r.
Proof.
  unfold assign_regions. destruct plant_map as [rows|]; simpl.
  - unfold merge_left. simpl. rewrite app_nil_r.
    destruct (List.filter (fun m => pystr_eqb m.1 (UNIT_NAME r)) rows)
      as [|m matches]; simpl.
    { by intros ->%list_elem_of_singleton. }
    intros [->|Hrow]%elem_of_cons; [done|].
    apply list_elem_of_In, in_map_iff in Hrow as ([r' mapped] & <- & Hin).
    apply in_map_iff in Hin as (m' & [= <- _] & _). done.
  - by intros ->%list_elem_of_singleton.
Qed.

Lemma assign_regions_record (plant_map : option (list plant_map_row))
    (records : list generation_record) (row : unit_row) :
  row ∈ assign_regions plant_map records → unit_record row ∈ records.
Proof.
  induction records as [|r records IH].
  - unfold assign_regions. destruct plant_map; simpl; by intros ?%elem_of_nil.
  - rewrite assign_regions_cons, elem_of_app, elem_of_cons.
    intros [Hrow|Hrow]; [left; by eapply assign_regions_one|right; by apply IH].
Qed.

Lemma enriched_at_run_time (plant_map : option (list plant_map_row))
    (regional_weather_cache : gmap pystr (gmap pystr pyfloat))
    (formatted_datetime : Z) (live_data : list (list pystr)) (r : enriched_row) :
  r ∈ enrich regional_weather_cache
        (assign_regions plant_map (parse_feed formatted_datetime live_data)) →
  e_DATETIME r = formatted_datetime.
Proof.
  unfold enrich. intros Hr.
  apply list_elem_of_In, in_map_iff in Hr as (row & <- & Hrow). simpl.
  apply list_elem_of_In, assign_regions_record, elem_of_parse_feed in Hrow
    as (feed_row & _ & Hparse).
  by destruct (parse_row_fields _ _ _ Hparse) as (_ & _ & _ & ->).
Qed.

(** Once the directory of the tables is there, whether the demand step
    raises depends on the answer alone. *)
Lemma demand_step_again (response : option json) (formatted_datetime : Z)
    (dir : bool) (table table' other : list (Z * pyfloat)) :
  fetch_and_save_demand_data response formatted_datetime dir table = Ok table' →
  ∃ other',
    fetch_and_save_demand_data response formatted_datetime true other = Ok other'.
Proof.
  unfold fetch_and_save_demand_data.
  repeat match goal with
  | |- context [match ?x with _ => _ end] => destruct x; eauto; try done
  end.
Qed.

(** A successful run leaves the directory of the tables behind. *)
Lemma run_pipeline_final_dir (i : run_input) (w w' : world) :
  run_pipeline i w = (w', Ok Successful) → final_dir w' = true.
Proof.
  unfold run_pipeline.
  destruct (live_fetch i) as [live_data|]; [|done].
  destruct (fetch_and_save_demand_data _ _ _ _) as [demand|e]; [|done].
  destruct (parse_feed _ live_data) as [|r records] eqn:Hparse; [done|].
  simpl.
  destruct (weather_for_regions _ _ _ _) as [cache|e] eqn:Hweather; [|done].
  destruct (aggregate _) as [aggregated|e] eqn:Hagg; [|done].
  by intros [= <-].
Qed.

(** What a successful run has computed and written. *)
Lemma run_pipeline_Successful (i : run_input) (w w' : world) :
  run_pipeline i w = (w', Ok Successful) →
  ∃ live_data demand regional_weather_cache aggregated,
    live_fetch i = Some live_data ∧
    fetch_and_save_demand_data (demand_fetch i) (effective_time_of (run_time i))
      (final_dir w) (demand_data w) = Ok demand ∧
    parse_feed (effective_time_of (run_time i)) live_data ≠ [] ∧
    weather_for_regions (forecast_files_cache i) (effective_time_of (run_time i))
      (py_unique (List.map REGION
         (assign_regions (plant_map_file i)
            (parse_feed (effective_time_of (run_time i)) live_data)))) ∅
      = Ok regional_weather_cache ∧
    aggregate (enrich regional_weather_cache
      (assign_regions (plant_map_file i)
         (parse_feed (effective_time_of (run_time i)) live_data))) = Ok aggregated ∧
    final_data w' =
      persist (effective_time_of (run_time i)) aggregated (final_data w).
Proof.
  unfold run_pipeline.
  destruct (live_fetch i) as [live_data|]; [|done].
  destruct (fetch_and_save_demand_data _ _ _ _) as [demand|e]; [|done].
  destruct (parse_feed _ live_data) as [|r records] eqn:Hparse; [done|].
  simpl.
  destruct (weather_for_regions _ _ _ _) as [cache|e] eqn:Hweather; [|done].
  destruct (aggregate _) as [aggregated|e] eqn:Hagg; [|done].
  intros [= <-]. exists live_data, demand, cache, aggregated.
  rewrite Hparse. done.
Qed.

(** A second run on the same inputs, after a successful one, succeeds and
    leaves the tables as they are. *)
Lemma run_pipeline_twice (i : run_input) (w w1 : world) :
  run_pipeline i w = (w1, Ok Successful) →
  ∃ w2, run_pipeline i w1 = (w2, Ok Successful) ∧ final_data w2 = final_data w1.
Proof.
  intros Hrun.
  destruct (run_pipeline_Successful i w w1 Hrun)
    as (live_data & demand & cache & aggregated &
        Hfetch & Hdemand & Hrecords & Hweather & Hagg & Hfinal).
  destruct (demand_step_again _ _ _ _ _ (demand_data w1) Hdemand)
    as [demand1 Hdemand1].
  unfold run_pipeline.
  rewrite Hfetch, (run_pipeline_final_dir i w w1 Hrun), Hdemand1.
  destruct (parse_feed _ live_data) as [|r records] eqn:Hparse; [done|].
  simpl. rewrite Hweather, Hagg. eexists. split; [reflexivity|]. simpl.
  rewrite Hfinal. apply persist_twice.
  apply aggregate_rows in Hagg. subst aggregated.
  apply aggregated_at_timestamp. intros row Hrow.
  rewrite <- Hparse in Hrow. by eapply enriched_at_run_time.
Qed.

(** C2. Persisting is idempotent per timestamp. When the aggregated rows of
    a run (all of the run's timestamp) are persisted, persisting the same
    rows again leaves every table as it is; the table of every aggregated row
    then holds exactly one row of that timestamp (a row that was there is
    replaced, not duplicated), the rows of other timestamps are kept as they
    were, and tables that had at most one row per timestamp still have at
    most one. A second run of the pipeline on the same inputs, after a
    successful one, succeeds and leaves every table as the first run left
    it. *)
Theorem persistence_is_idempotent :
  (∀ (rows : list enriched_row) (aggregated : list aggregated_row)
     (timestamp : Z) (store : gmap (pystr * pystr) (list aggregated_row)),
     aggregate rows = Ok aggregated →
     (∀ r, r ∈ rows → e_DATETIME r = timestamp) →
     let once := persist timestamp aggregated store in
     let twice := persist timestamp aggregated once in
     twice = once ∧
     (∀ a, a ∈ aggregated →
        ∃ table,
          twice !! table_path (agg_REGION a) (agg_FUEL_TYPE a) = Some table ∧
          rows_at timestamp table = 1%nat) ∧
     (∀ path table t, twice !! path = Some table → t ≠ timestamp →
        rows_at t table = rows_at t (default [] (store !! path))) ∧
     ((∀ path table t, store !! path = Some table → (rows_at t table ≤ 1)%nat) →
      ∀ path table t, twice !! path = Some table → (rows_at t table ≤ 1)%nat)) ∧
  (∀ (i : run_input) (w w1 : world),
     run_pipeline i w = (w1, Ok Successful) →
     ∃ w2,
       run_pipeline i w1 = (w2, Ok Successful) ∧
       final_data w2 = final_data w1 ∧
       ((∀ path table t,
           final_data w !! path = Some table → (rows_at t table ≤ 1)%nat) →
        ∀ path table t,
          final_data w2 !! path = Some table → (rows_at t table ≤ 1)%nat)).
Proof.
  split; [apply persist_once_and_twice|].
  intros i w w1 Hrun.
  destruct (run_pipeline_twice i w w1 Hrun) as (w2 & Hrun2 & Hsame).
  exists w2. split; [done|]. split; [done|].
  intros Hstore path table t. rewrite Hsame.
  destruct (run_pipeline_Successful i w w1 Hrun)
    as (live_data & demand & cache & aggregated &
        Hfetch & Hdemand & Hrecords & Hweather & Hagg & ->).
  assert (Hrows : ∀ r,
    r ∈ enrich cache (assign_regions (plant_map_file i)
          (parse_feed (effective_time_of (run_time i)) live_data)) →
    e_DATETIME r = effective_time_of (run_time i))
    by (intros r; apply enriched_at_run_time).
  destruct (persist_once_and_twice _ _ _ (final_data w) Hagg Hrows)
    as (Htwice & _ & _ & Hone).
  rewrite <- Htwice. by apply Hone.
Qed.

(** *** ForecastIndex: totality *)

Lemma guarded_bind {A B} (P : A → Prop) (Q : B → Prop) (m : py_result A)
    (f : A → py_result B) :
  guarded P m → (∀ a, P a → guarded Q (f a)) → guarded Q (m ≫= f).
Proof. destruct m as [a|e]; simpl; [|done]. intros Ha Hf. by apply Hf. Qed.

Lemma in_range_list (items : list json) :
  in_range (JList items) ↔ Forall in_range items.
Proof.
  unfold in_range. simpl. rewrite forallb_forall, Forall_forall.
  by setoid_rewrite list_elem_of_In.
Qed.

Lemma in_range_assoc (k : pystr) (items : list (pystr * json)) v :
  in_range (JDict items) → assoc_lookup k items = Some v → in_range v.
Proof.
  unfold in_range. simpl. induction items as [|[k' v'] items IH]; simpl; [done|].
  intros [Hv Hitems]%andb_prop. destruct (pystr_eqb k' k).
  - by intros [= <-].
  - by apply IH.
Qed.

Lemma guarded_py_in (k : pystr) (d : json) : guarded (fun _ => True) (py_in k d).
Proof. by destruct d. Qed.

Lemma guarded_py_getitem (d : json) (k : pystr) :
  in_range d → guarded in_range (py_getitem d k).
Proof.
  intros Hd. destruct d; simpl; try done.
  destruct (assoc_lookup k items) as [v|] eqn:Hv; simpl; [|done].
  by eapply in_range_assoc.
Qed.

Lemma guarded_get_key (d : json) (keys : list pystr) (default : json) :
  in_range d → in_range default →
  guarded in_range (get_case_insensitive_key d keys default).
Proof.
  intros Hd Hdefault. induction keys as [|k keys IH]; simpl; [done|].
  eapply guarded_bind; [apply guarded_py_in|].
  intros [|] _; [by apply guarded_py_getitem|done].
Qed.

Lemma guarded_py_first (d : json) : in_range d → guarded in_range (py_first d).
Proof.
  intros Hd. destruct d as [| | | |[|c s]|[|v l]|]; simpl; try done.
  apply in_range_list in Hd. by inversion Hd.
Qed.

Lemma guarded_py_iter (d : json) :
  in_range d → guarded (Forall in_range) (py_iter d).
Proof.
  intros Hd. destruct d; simpl; try done.
  - apply Forall_forall. intros v Hv%list_elem_of_In.
    apply in_map_iff in Hv as (c & <- & _). done.
  - by apply in_range_list.
  - apply Forall_forall. intros v Hv%list_elem_of_In.
    apply in_map_iff in Hv as (kv & <- & _). done.
Qed.

Lemma guarded_find_by_name (names : list pystr) (wanted : pystr) (xs : list json) :
  Forall in_range xs → guarded in_range (find_by_name names wanted xs).
Proof.
  induction 1 as [|x xs Hx Hxs IH]; cbn [find_by_name]; [done|].
  eapply guarded_bind; [by apply guarded_get_key|].
  intros name _. by destruct (is_str wanted name).
Qed.

Section Totality.
(** The timestamp parser raises nothing but what the lookup catches. *)
Hypothesis to_datetime_guarded : ∀ v, guarded (fun _ => True) (to_datetime v).

Lemma guarded_scan (target_time : Z) (time_blocks : list json) :
  Forall in_range time_blocks →
  guarded in_range (scan_time_blocks target_time time_blocks).
Proof.
  induction 1 as [|b bs Hb Hbs IH]; cbn [scan_time_blocks]; [done|].
  eapply guarded_bind; [by apply guarded_get_key|]. intros start_str _.
  eapply guarded_bind; [by apply guarded_get_key|]. intros end_str _.
  destruct (_ || _); [done|].
  eapply guarded_bind; [apply to_datetime_guarded|]. intros start_time _.
  eapply guarded_bind; [apply to_datetime_guarded|]. intros end_time _.
  by destruct (in_window _ _ _).
Qed.

Lemma guarded_py_float (v : json) :
  in_range v → guarded (fun _ => True) (py_float v).
Proof.
  intros Hv. destruct v; simpl; try done.
  - unfold in_range in Hv. simpl in Hv.
    destruct (float_overflow_bound <=? Z.abs z) eqn:Hz; [|done].
    apply Z.leb_le in Hz. apply Z.ltb_lt in Hv. lia.
  - by destruct (float_of_text s).
Qed.

Lemma guarded_float_or_first_number (value_str : json) :
  in_range value_str → guarded (fun _ => True) (float_or_first_number value_str).
Proof.
  intros Hv. unfold float_or_first_number, try_except.
  pose proof (guarded_py_float value_str Hv) as Hfloat.
  destruct (py_float value_str) as [f|e]; [done|].
  destruct e; simpl in *; try done.
  destruct value_str; try done.
  destruct (first_digit_run s) as [run|]; [|done].
  by apply (guarded_py_float (JStr run)).
Qed.

Lemma in_range_first_value (d : json) : in_range d → in_range (first_value d).
Proof.
  destruct d as [| | | | | |[|[k v] items]]; try done.
  unfold in_range. simpl. by intros [? _]%andb_prop.
Qed.

Lemma guarded_block_value (element : pystr) (block : json) :
  in_range block → guarded (fun _ => True) (block_value element block).
Proof.
  intros Hblock. unfold block_value.
  destruct (truthy block); [|done].
  eapply guarded_bind; [by apply guarded_get_key|]. intros element_values Hvalues.
  destruct (negb (truthy element_values)); [done|].
  eapply guarded_bind; [by apply guarded_py_first|]. intros value_dict Hdict.
  eapply (guarded_bind in_range).
  { destruct (pystr_eqb element weather_code_element).
    - by apply guarded_get_key.
    - destruct (_ && _); [by apply in_range_first_value|done]. }
  intros value_str Hstr.
  destruct (_ && _); [|done].
  eapply guarded_bind; [by apply guarded_float_or_first_number|]. done.
Qed.

Lemma guarded_find_time_blocks (doc : json) (town element : pystr) :
  in_range doc →
  guarded (fun blocks => ∀ b, blocks = Some b → in_range b)
    (find_time_blocks doc town element).
Proof.
  intros Hdoc. unfold find_time_blocks.
  eapply guarded_bind; [by apply guarded_get_key|]. intros records Hrecords.
  destruct (negb (truthy records)); [done|].
  eapply guarded_bind; [by apply guarded_get_key|]. intros locations_list Hll.
  destruct (negb (truthy locations_list)); [done|].
  eapply guarded_bind; [by apply guarded_py_first|]. intros locations_data Hld.
  eapply guarded_bind; [by apply guarded_get_key|]. intros loc Hloc.
  eapply guarded_bind.
  { apply guarded_py_iter. by destruct (truthy loc). }
  intros locs Hlocs.
  eapply guarded_bind; [by apply guarded_find_by_name|]. intros town_data Htown.
  eapply (guarded_bind in_range).
  { destruct (truthy town_data); [by apply guarded_get_key|done]. }
  intros in_town Hit.
  eapply (guarded_bind in_range).
  { destruct (negb (truthy in_town)); [by apply guarded_get_key|done]. }
  intros weather_element_list Hwel.
  destruct (negb (truthy weather_element_list)); [done|].
  eapply guarded_bind; [by apply guarded_py_iter|]. intros elements Hels.
  eapply guarded_bind; [by apply guarded_find_by_name|]. intros element_data Hed.
  destruct (negb (truthy element_data)); [done|].
  eapply guarded_bind; [by apply guarded_get_key|]. intros time_blocks Htb.
  destruct (negb (truthy time_blocks)); [done|].
  simpl. by intros b [= <-].
Qed.

Lemma guarded_select_block (target_time : Z) (time_blocks : json) :
  in_range time_blocks → guarded in_range (select_block target_time time_blocks).
Proof.
  intros Htb. unfold select_block.
  eapply guarded_bind; [by apply guarded_py_iter|]. intros blocks Hblocks.
  eapply guarded_bind; [by apply guarded_scan|]. intros found Hfound.
  destruct (_ && _); [by apply guarded_py_first|done].
Qed.

Lemma guarded_body (doc : json) (town element : pystr) (target_time : Z) :
  in_range doc →
  guarded (fun _ => True) (get_forecast_value_body doc town element target_time).
Proof.
  intros Hdoc. unfold get_forecast_value_body.
  eapply guarded_bind; [by apply guarded_find_time_blocks|].
  intros [time_blocks|] Htb; [|done].
  eapply guarded_bind; [apply guarded_select_block; by apply Htb|].
  intros block Hblock. by apply guarded_block_value.
Qed.
End Totality.

(** C1, as the code has it. For every document, malformed or not, whose
    integers are within the range of a float, and a timestamp parser that
    raises nothing but what the lookup catches, [get_forecast_value] raises
    nothing: it returns a float (finite, infinite or NaN) or [None]. *)
Theorem forecast_lookup_total (doc : json) (town element : pystr)
    (target_time : Z) :
  (∀ v, guarded (fun _ => True) (to_datetime v)) →
  ints_in_range doc = true →
  ∃ result : option pyfloat,
    get_forecast_value doc town element target_time = Ok result.
Proof.
  intros Hparser Hdoc. unfold get_forecast_value, try_except.
  pose proof (guarded_body Hparser doc town element target_time Hdoc) as Hbody.
  destruct (get_forecast_value_body doc town element target_time) as [r|e].
  - by exists r.
  - simpl in Hbody. rewrite Hbody. by exists None.
Qed.

(** *** ForecastIndex: the window that is selected *)

(** A key is read with a true value from a dict that is not empty only. *)
Lemma get_key_truthy (d : json) (keys : list pystr) (v : json) :
  get_case_insensitive_key d keys JNull = Ok v → truthy v = true →
  truthy d = true.
Proof.
  induction keys as [|k keys IH]; cbn [get_case_insensitive_key].
  { by intros [= <-]. }
  destruct d as [| | | |s|l|[|kv items]]; try done;
    cbn [py_in mbind py_result_bind].
  - destruct (py_contains k s); [done|apply IH].
  - destruct (existsb (is_str k) l); [done|apply IH].
Qed.

(** A block with a window is a dict that is not empty. *)
Lemma block_window_truthy (time_block : json) :
  is_Some (block_window time_block) → truthy time_block = true.
Proof.
  intros [w Hw]. unfold block_window in Hw.
  destruct (get_case_insensitive_key time_block _ JNull) as [start_str|] eqn:Hs;
    [|done].
  destruct (get_case_insensitive_key time_block [u8 "endTime"; _] JNull);
    [|done].
  destruct (truthy start_str) eqn:Htruthy; [|done].
  by eapply get_key_truthy.
Qed.

(** On a block with a window the scan reads both timestamps and compares. *)
Lemma scan_step (target_time : Z) (time_block : json) (rest : list json) :
  is_Some (block_window time_block) →
  scan_time_blocks target_time (time_block :: rest) =
  if covers target_time time_block then Ok time_block
  else scan_time_blocks target_time rest.
Proof.
  intros [[s e] Hw]. unfold covers. rewrite Hw.
  cbn [scan_time_blocks]. unfold block_window in Hw.
  destruct (get_case_insensitive_key time_block _ JNull) as [start_str|];
    [|done].
  destruct (get_case_insensitive_key time_block _ JNull) as [end_str|];
    [|done].
  cbn [mbind py_result_bind].
  destruct (truthy start_str); [|done]. destruct (truthy end_str); [|done].
  cbn [negb orb andb] in *.
  destruct (to_datetime start_str) as [[s'|]|]; try done.
  destruct (to_datetime end_str) as [[e'|]|]; try done.
  injection Hw as -> ->. done.
Qed.

(** The scan over blocks that all have a window leaves the first block that
    covers the instant, or nothing. *)
Lemma scan_windows (target_time : Z) (time_blocks : list json) :
  Forall (fun b => is_Some (block_window b)) time_blocks →
  scan_time_blocks target_time time_blocks =
  Ok (default JNull (List.find (covers target_time) time_blocks)).
Proof.
  induction 1 as [|b bs Hb Hbs IH]; [done|].
  rewrite scan_step by done. cbn [List.find].
  by destruct (covers target_time b).
Qed.

Lemma select_block_windows (target_time : Z) (time_blocks : list json) :
  Forall (fun b => is_Some (block_window b)) time_blocks →
  select_block target_time (JList time_blocks) =
  Ok (default (default JNull (head time_blocks))
        (List.find (covers target_time) time_blocks)).
Proof.
  intros Hwindows. unfold select_block. cbn [py_iter mbind py_result_bind].
  rewrite scan_windows by done. cbn [mbind py_result_bind].
  destruct (List.find (covers target_time) time_blocks) as [b|] eqn:Hfind; simpl.
  - apply find_some in Hfind as [Hin _].
    rewrite Forall_forall in Hwindows.
    rewrite block_window_truthy; [done|].
    apply Hwindows. by apply list_elem_of_In.
  - destruct time_blocks; done.
Qed.

Lemma find_first (p : json → bool) (l : list json) (i : nat) (b : json) :
  l !! i = Some b → p b = true →
  (∀ (j : nat) b', (j < i)%nat → l !! j = Some b' → p b' = false) →
  List.find p l = Some b.
Proof.
  revert i. induction l as [|x l IH]; intros i Hi Hb Hfirst; [done|].
  destruct i as [|i]; simpl in *.
  - injection Hi as ->. by rewrite Hb.
  - rewrite (Hfirst 0%nat x) by (lia || done).
    apply (IH i); [done|done|]. intros j b' Hj Hb'. apply (Hfirst (S j)); [lia|done].
Qed.

Lemma find_none (p : json → bool) (l : list json) :
  (∀ b, b ∈ l → p b = false) → List.find p l = None.
Proof.
  induction l as [|x l IH]; intros Hnone; simpl; [done|].
  rewrite (Hnone x) by (by left). apply IH. intros b Hb. apply Hnone. by right.
Qed.

Ltac bind_inv H :=
  match type of H with
  | (?m ≫= _) = Ok _ =>
      let x := fresh "x" in
      destruct m as [x|]; cbn [mbind py_result_bind] in H; [|discriminate H]
  | (if ?c then _ else _) = Ok _ =>
      let E := fresh "E" in
      destruct c eqn:E; [discriminate H|]
  end.

(** The time blocks the lookup reaches are not empty. *)
Lemma find_time_blocks_truthy (doc : json) (town element : pystr)
    (time_blocks : json) :
  find_time_blocks doc town element = Ok (Some time_blocks) →
  truthy time_blocks = true.
Proof.
  unfold find_time_blocks. intros H.
  repeat bind_inv H.
  injection H as <-. by apply negb_false_iff.
Qed.

(** C3. For an element whose time windows all carry a start and an end, the
    lookup returns the value of the first window, in list order, whose
    half-open interval holds the instant; when no window holds it, also when
    the instant is before the first window, it returns the value of the first
    window of the list. *)
Theorem forecast_window_selection (doc : json) (town element : pystr)
    (target_time : Z) (time_blocks : list json) :
  find_time_blocks doc town element = Ok (Some (JList time_blocks)) →
  Forall (fun b => is_Some (block_window b)) time_blocks →
  (∀ (i : nat) b,
     time_blocks !! i = Some b → covers target_time b = true →
     (∀ (j : nat) b', (j < i)%nat → time_blocks !! j = Some b' →
        covers target_time b' = false) →
     get_forecast_value doc town element target_time = value_of_block element b) ∧
  ((∀ b, b ∈ time_blocks → covers target_time b = false) →
   ∃ b, head time_blocks = Some b ∧
        get_forecast_value doc town element target_time = value_of_block element b) ∧
  (∀ b s e, block_window b = Some (s, e) →
     covers target_time b = true ↔ s ≤ target_time < e).
Proof.
  intros Hblocks Hwindows.
  assert (Hvalue : ∀ b,
    select_block target_time (JList time_blocks) = Ok b →
    get_forecast_value doc town element target_time = value_of_block element b).
  { intros b Hselect. unfold get_forecast_value, get_forecast_value_body.
    rewrite Hblocks. cbn [mbind py_result_bind]. rewrite Hselect. done. }
  split; [|split].
  - intros i b Hi Hcovers Hfirst. apply Hvalue.
    rewrite select_block_windows by done.
    by rewrite (find_first _ _ i b).
  - intros Hnone.
    destruct time_blocks as [|b0 bs].
    { by apply find_time_blocks_truthy in Hblocks. }
    exists b0. split; [done|]. apply Hvalue.
    rewrite select_block_windows by done. by rewrite find_none.
  - intros b s e Hw. unfold covers. rewrite Hw. lia.
Qed.

(** *** Prefixes, substrings and stripping *)

Lemma starts_with_spec (p s : pystr) :
  starts_with p s = true ↔ ∃ r, s = p ++ r.
Proof.
  revert s. induction p as [|a p IH]; intros s; cbn [starts_with].
  - split; [intros _; by exists s|done].
  - destruct s as [|b s].
    + split; [done|]. by intros [r Hr].
    + rewrite andb_true_iff, N.eqb_eq, IH. split.
      * intros [-> [r ->]]. by exists r.
      * intros [r Hr]. injection Hr as -> ->. eauto.
Qed.

Lemma py_contains_spec (sub s : pystr) :
  py_contains sub s = true ↔ ∃ a b, s = a ++ sub ++ b.
Proof.
  induction s as [|c s IH]; cbn [py_contains].
  - rewrite orb_false_r, starts_with_spec. split.
    + intros [r Hr]. by exists [], r.
    + intros (a & b & H). destruct a; [|done]. by exists b.
  - rewrite orb_true_iff, starts_with_spec, IH. split.
    + intros [[r Hr]|(a & b & ->)]; [by exists [], r|by exists (c :: a), b].
    + intros (a & b & H). destruct a as [|c' a].
      * left. by exists b.
      * right. injection H as -> ->. by exists a, b.
Qed.

Lemma py_contains_infix (sub a s b : pystr) :
  py_contains sub s = true → py_contains sub (a ++ s ++ b) = true.
Proof.
  rewrite !py_contains_spec. intros (x & y & ->).
  exists (a ++ x), (y ++ b). by rewrite <- !app_assoc.
Qed.

Lemma rev_reverse {A} (l : list A) : rev l = reverse l.
Proof. unfold reverse. apply rev_alt. Qed.

Lemma py_lstrip_spec (s : pystr) :
  ∃ ws, s = ws ++ py_lstrip s ∧ all_space ws ∧
        ∀ c, head (py_lstrip s) = Some c → py_isspace c = false.
Proof.
  induction s as [|c s (ws & Hs & Hws & Hhead)]; cbn [py_lstrip].
  - exists []. split; [done|]. split; [constructor|done].
  - destruct (py_isspace c) eqn:Hc.
    + exists (c :: ws). split; [by rewrite Hs at 1|]. split; [by constructor|done].
    + exists []. split; [done|]. split; [constructor|]. by intros ? [= <-].
Qed.

Lemma py_rstrip_spec (s : pystr) :
  ∃ ws, s = py_rstrip s ++ ws ∧ all_space ws ∧
        ∀ c, last (py_rstrip s) = Some c → py_isspace c = false.
Proof.
  unfold py_rstrip. destruct (py_lstrip_spec (rev s)) as (ws & Hs & Hws & Hhead).
  exists (rev ws). split; [|split].
  - rewrite <- rev_app_distr, <- Hs. by rewrite rev_involutive.
  - unfold all_space. rewrite rev_reverse. by apply Forall_reverse.
  - intros c. rewrite rev_reverse, last_reverse. apply Hhead.
Qed.

Lemma py_strip_spec (s : pystr) :
  ∃ ws1 ws2, s = ws1 ++ py_strip s ++ ws2 ∧ all_space ws1 ∧ all_space ws2 ∧
             trimmed (py_strip s).
Proof.
  unfold py_strip.
  destruct (py_lstrip_spec s) as (ws1 & Hs & Hws1 & Hhead).
  destruct (py_rstrip_spec (py_lstrip s)) as (ws2 & Ht & Hws2 & Hlast).
  exists ws1, ws2. split; [by rewrite <- Ht|]. do 2 (split; [done|]).
  split; [|done]. intros c Hc. apply Hhead. rewrite Ht.
  destruct (py_rstrip (py_lstrip s)); [done|exact Hc].
Qed.

Lemma py_lstrip_head (s : pystr) :
  (∀ c, head s = Some c → py_isspace c = false) → py_lstrip s = s.
Proof.
  destruct s as [|c s]; [done|]. intros H. cbn [py_lstrip].
  by rewrite (H c eq_refl).
Qed.

Lemma py_strip_trimmed (s : pystr) : trimmed s → py_strip s = s.
Proof.
  intros [Hhead Hlast]. unfold py_strip, py_rstrip.
  rewrite (py_lstrip_head s Hhead), py_lstrip_head; [apply rev_involutive|].
  intros c. rewrite rev_reverse, head_reverse. apply Hlast.
Qed.

Lemma py_strip_idempotent (s : pystr) : py_strip (py_strip s) = py_strip s.
Proof.
  destruct (py_strip_spec s) as (? & ? & _ & _ & _ & H). by apply py_strip_trimmed.
Qed.

Lemma elem_of_py_strip (s : pystr) (c : N) : c ∈ py_strip s → c ∈ s.
Proof.
  destruct (py_strip_spec s) as (ws1 & ws2 & Hs & _). intros Hc.
  rewrite Hs, !elem_of_app. auto.
Qed.

Lemma py_strip_length (s : pystr) : (length (py_strip s) ≤ length s)%nat.
Proof.
  destruct (py_strip_spec s) as (ws1 & ws2 & Hs & _).
  rewrite Hs at 2. rewrite !length_app. lia.
Qed.

Lemma py_strip_contains (sub s : pystr) :
  py_contains sub (py_strip s) = true → py_contains sub s = true.
Proof.
  destruct (py_strip_spec s) as (ws1 & ws2 & Hs & _). intros H.
  rewrite Hs. by apply py_contains_infix.
Qed.

(** *** The key lookup *)

(** X1. [get_case_insensitive_key] never raises on a dict: it returns the
    value of the first variant that is a key, and the default when none is.
    On a list or a string it returns the default only while no variant is an
    element or a substring, and raises [TypeError] otherwise; on [None], a
    boolean or a number it raises [TypeError] as soon as there is a variant
    to try. *)
Theorem key_lookup_by_kind (key_variants : list pystr) (dflt : json) :
  (∀ items,
     get_case_insensitive_key (JDict items) key_variants dflt =
     Ok (default dflt
           (head (omap (fun k => assoc_lookup k items) key_variants)))) ∧
  (∀ l,
     get_case_insensitive_key (JList l) key_variants dflt =
     if existsb (fun k => existsb (is_str k) l) key_variants
     then Raise TypeError else Ok dflt) ∧
  (∀ s,
     get_case_insensitive_key (JStr s) key_variants dflt =
     if existsb (fun k => py_contains k s) key_variants
     then Raise TypeError else Ok dflt) ∧
  get_case_insensitive_key JNull key_variants dflt =
    lookup_without_membership key_variants dflt ∧
  (∀ b, get_case_insensitive_key (JBool b) key_variants dflt =
        lookup_without_membership key_variants dflt) ∧
  (∀ z, get_case_insensitive_key (JInt z) key_variants dflt =
        lookup_without_membership key_variants dflt) ∧
  (∀ f, get_case_insensitive_key (JFloat f) key_variants dflt =
        lookup_without_membership key_variants dflt).
Proof.
  split; [|split; [|split; [|by destruct key_variants]]].
  - intros items. induction key_variants as [|k rest IH]; [done|].
    cbn [get_case_insensitive_key py_in mbind py_result_bind omap list_omap].
    unfold py_getitem. destruct (assoc_lookup k items) as [v|] eqn:Hk.
    + rewrite bool_decide_true by eauto. done.
    + rewrite bool_decide_false by (by intros [? ?]). exact IH.
  - intros l. induction key_variants as [|k rest IH]; [done|].
    cbn [get_case_insensitive_key py_in mbind py_result_bind existsb].
    destruct (existsb (is_str k) l); [done|exact IH].
  - intros s. induction key_variants as [|k rest IH]; [done|].
    cbn [get_case_insensitive_key py_in mbind py_result_bind existsb].
    destruct (py_contains k s); [done|exact IH].
Qed.

(** *** File names *)

Lemma remove_parenthesised_length (skip : nat) (s : pystr) :
  (length (remove_parenthesised skip s) ≤ length s)%nat.
Proof.
  revert skip. induction s as [|c s IH]; intros skip; [done|].
  cbn [remove_parenthesised length]. destruct skip as [|k].
  - destruct (c =? 40)%N.
    + destruct (after_last_paren s) as [r|].
      * specialize (IH (length s - length r)%nat). lia.
      * cbn [length]. specialize (IH 0%nat). lia.
    + cbn [length]. specialize (IH 0%nat). lia.
  - specialize (IH k). lia.
Qed.

Lemma remove_parenthesised_all (skip : nat) (s : pystr) :
  (length s ≤ skip)%nat → remove_parenthesised skip s = [].
Proof.
  revert skip. induction s as [|c s IH]; intros skip Hlen; [done|].
  cbn [length] in Hlen. destruct skip as [|k]; [lia|].
  cbn [remove_parenthesised]. apply IH. lia.
Qed.

Lemma remove_parenthesised_plain (label rest : pystr) :
  40%N ∉ label →
  remove_parenthesised 0 (label ++ rest) = label ++ remove_parenthesised 0 rest.
Proof.
  induction label as [|c label IH]; intros Hc; [done|].
  apply not_elem_of_cons in Hc as [Hc Hlabel].
  cbn [app remove_parenthesised].
  destruct (N.eqb_spec c 40) as [->|_]; [done|]. by rewrite IH.
Qed.

Lemma after_last_paren_close (remark : pystr) :
  10%N ∉ remark → after_last_paren (remark ++ [41%N]) = Some [].
Proof.
  induction remark as [|c remark IH]; intros Hc; [done|].
  apply not_elem_of_cons in Hc as [Hc Hremark].
  cbn [app after_last_paren].
  destruct (N.eqb_spec c 10) as [->|_]; [done|]. by rewrite IH.
Qed.

Lemma remove_remark (label remark : pystr) :
  40%N ∉ label → 10%N ∉ remark →
  remove_parenthesised 0 (with_remark label remark) = label.
Proof.
  intros Hlabel Hremark. unfold with_remark.
  rewrite remove_parenthesised_plain by done.
  cbn [app remove_parenthesised N.eqb Pos.eqb].
  rewrite after_last_paren_close by done.
  rewrite remove_parenthesised_all by (cbn [length]; lia).
  apply app_nil_r.
Qed.

(** X2. A name that [sanitize_name] returns holds none of the characters
    that are invalid in a file name, neither starts nor ends with
    whitespace, and is not longer than the name given. *)
Theorem sanitize_name_is_safe (name : pystr) :
  (∀ c, c ∈ sanitize_name name → invalid_in_file_name c = false) ∧
  trimmed (sanitize_name name) ∧
  (length (sanitize_name name) ≤ length name)%nat.
Proof.
  unfold sanitize_name. split; [|split].
  - intros c Hc. apply elem_of_py_strip, list_elem_of_fmap in Hc as (c' & -> & _).
    destruct (invalid_in_file_name c') eqn:Hc'; [done|exact Hc'].
  - by destruct (py_strip_spec
      (List.map (fun c => if invalid_in_file_name c then 95%N else c)
         (remove_parenthesised 0 name))) as (? & ? & _ & _ & _ & H).
  - etransitivity; [apply py_strip_length|].
    rewrite length_map. apply remove_parenthesised_length.
Qed.

(** X3. A parenthesised remark at the end of a name is dropped by
    [sanitize_name], so two fuel types that differ only in such a remark
    are stored in the same table file. *)
Theorem remark_is_dropped_from_path (label remark : pystr) :
  40%N ∉ label → 10%N ∉ remark →
  sanitize_name (with_remark label remark) = sanitize_name label ∧
  ∀ region, table_path region (with_remark label remark) = table_path region label.
Proof.
  intros Hlabel Hremark.
  assert (Hname : sanitize_name (with_remark label remark) = sanitize_name label).
  { unfold sanitize_name. rewrite remove_remark by done.
    rewrite <- (app_nil_r label) at 2.
    by rewrite remove_parenthesised_plain, app_nil_r. }
  split; [exact Hname|]. intros region. unfold table_path. by rewrite Hname.
Qed.

(** *** The number read from a forecast value *)

Lemma first_digit_run_found (pre ds rest : pystr) :
  no_digit pre → ds ≠ [] → all_digits ds →
  match rest with c :: _ => is_digit c = false | [] => True end →
  first_digit_run (pre ++ ds ++ rest) = Some ds.
Proof.
  intros Hpre Hds Hdigits Hrest.
  induction Hpre as [|c pre Hc _ IH].
  - destruct ds as [|d ds]; [done|]. clear Hds.
    apply Forall_cons in Hdigits as [Hd Hdigits].
    cbn [app first_digit_run take_digit_run]. rewrite Hd. do 2 f_equal.
    induction Hdigits as [|d' ds Hd' _ IH]; cbn [app take_digit_run].
    + destruct rest as [|c rest]; [done|]. cbn [take_digit_run]. by rewrite Hrest.
    + by rewrite Hd', IH.
  - cbn [app first_digit_run]. by rewrite Hc.
Qed.

Lemma first_digit_run_none (s : pystr) : no_digit s → first_digit_run s = None.
Proof.
  induction 1 as [|c s Hc _ IH]; [done|]. cbn [first_digit_run]. by rewrite Hc.
Qed.

Lemma float_of_digits (ds : pystr) :
  ds ≠ [] → all_digits ds →
  float_of_text ds = Some (decimal_float false (digits_to_Z (digit_values ds)) 0).
Proof.
  intros Hds Hdigits.
  pose proof (float_of_text_parts false ds [] false Hds Hdigits (Forall_nil_2 _)) as H.
  cbn [app length Z.of_nat Z.opp] in H. by rewrite !app_nil_r in H.
Qed.

(** X4. When [float] refuses the text of a forecast value, the lookup reads
    the first run of digits of the text as a whole number: a sign before the
    run and a fraction after it are lost. When the text has no digit, the
    fallback raises [IndexError]. *)
Theorem first_number_fallback (s : pystr) :
  float_of_text s = None →
  (∀ pre ds rest,
     s = pre ++ ds ++ rest → no_digit pre → ds ≠ [] → all_digits ds →
     match rest with c :: _ => is_digit c = false | [] => True end →
     float_or_first_number (JStr s) =
     Ok (decimal_float false (digits_to_Z (digit_values ds)) 0)) ∧
  (no_digit s → float_or_first_number (JStr s) = Raise IndexError).
Proof.
  intros Hfloat. unfold float_or_first_number, py_float. rewrite Hfloat.
  cbn [try_except is_ValueError]. split.
  - intros pre ds rest -> Hpre Hds Hdigits Hrest.
    rewrite first_digit_run_found by done. by rewrite float_of_digits.
  - intros Hnone. by rewrite first_digit_run_none.
Qed.

(** *** The feature set of a region *)

Lemma py_int_whole (c i : pyfloat) : py_int c = Ok i → whole_or_nan i.
Proof. destruct c; [|done..]. intros [= <-]. right. eauto. Qed.

Lemma horizon_features_code (config : region_config)
    (forecasts : gmap pystr json) (effective_time : Z)
    (features features' : gmap pystr pyfloat) (suffix : pystr) (time_offset : Z) :
  horizon_features config forecasts effective_time features (suffix, time_offset)
    = Ok features' →
  ∃ temps winds code,
    whole_or_nan code ∧
    features' =
      <[u8 "W_CODE" ++ suffix := code]>
        (<[u8 "WIND" ++ suffix := mean_or_nan winds]>
           (<[u8 "TEMP" ++ suffix := mean_or_nan temps]> features)).
Proof.
  unfold horizon_features.
  destruct (collect_town_values _ _ _ _ _) as [[temps winds]|e]; simpl; [|done].
  destruct (code_town config) as [code_county code_town].
  destruct (forecasts !! code_county) as [doc|].
  - destruct (get_forecast_value doc code_town weather_code_element _)
      as [[c|]|e]; simpl; [| |done].
    + destruct (py_int c) as [i|e] eqn:Hint; simpl; [|done].
      intros [= <-]. exists temps, winds, i. split; [by eapply py_int_whole|done].
    + intros [= <-]. exists temps, winds, FNan. split; [by left|done].
  - intros [= <-]. exists temps, winds, FNan. split; [by left|done].
Qed.

Lemma over_horizons_shape (config : region_config) (forecasts : gmap pystr json)
    (effective_time : Z) (features : gmap pystr pyfloat) :
  over_horizons config forecasts effective_time ∅ horizons = Ok features →
  ∃ temp0 wind0 code0 temp12 wind12 code12,
    whole_or_nan code0 ∧ whole_or_nan code12 ∧
    features =
      <[u8 "W_CODE_future_12h" := code12]>
        (<[u8 "WIND_future_12h" := wind12]>
           (<[u8 "TEMP_future_12h" := temp12]>
              (<[u8 "W_CODE_now" := code0]>
                 (<[u8 "WIND_now" := wind0]>
                    (<[u8 "TEMP_now" := temp0]> ∅))))).
Proof.
  unfold horizons. cbn [over_horizons].
  destruct (horizon_features config forecasts effective_time ∅ (u8 "_now", 0))
    as [features0|e] eqn:H0; cbn [mbind py_result_bind]; [|done].
  destruct (horizon_features config forecasts effective_time features0
              (u8 "_future_12h", 12)) as [features12|e] eqn:H12;
    cbn [mbind py_result_bind]; [|done].
  intros [= <-].
  apply horizon_features_code in H0 as (temps0 & winds0 & code0 & Hc0 & ->).
  apply horizon_features_code in H12 as (temps12 & winds12 & code12 & Hc12 & ->).
  by exists (mean_or_nan temps0), (mean_or_nan winds0), code0,
            (mean_or_nan temps12), (mean_or_nan winds12), code12.
Qed.

(** X5. The feature set [get_regional_weather_features] returns is empty, or
    it has exactly the six weather columns; its two weather codes are whole
    numbers or NaN. *)
Theorem feature_set_shape (cache : forecast_cache) (region : pystr)
    (effective_time : Z) (features : gmap pystr pyfloat) :
  get_regional_weather_features cache region effective_time = Ok features →
  features = ∅ ∨
  ((∀ c, is_Some (features !! c) ↔ c ∈ weather_columns) ∧
   (∃ code, features !! u8 "W_CODE_now" = Some code ∧ whole_or_nan code) ∧
   (∃ code, features !! u8 "W_CODE_future_12h" = Some code ∧ whole_or_nan code)).
Proof.
  unfold get_regional_weather_features.
  destruct (config_of region WEATHER_CONFIG) as [config|]; [|intros [= <-]; by left].
  destruct (load_forecasts cache (forecast_files config) ∅) as [forecasts|];
    [|intros [= <-]; by left].
  intros (temp0 & wind0 & code0 & temp12 & wind12 & code12 & Hc0 & Hc12 & ->)
    %over_horizons_shape.
  right. split; [|split].
  - intros c. rewrite !lookup_insert_is_Some', lookup_empty, is_Some_alt.
    unfold weather_columns. rewrite !elem_of_cons, elem_of_nil.
    generalize (u8 "TEMP_now") (u8 "WIND_now") (u8 "W_CODE_now")
      (u8 "TEMP_future_12h") (u8 "WIND_future_12h") (u8 "W_CODE_future_12h").
    intros. naive_solver.
  - exists code0. split; [|done].
    do 3 (rewrite lookup_insert_ne by key_ne). by rewrite lookup_insert_eq.
  - exists code12. split; [|done]. by rewrite lookup_insert_eq.
Qed.

Lemma config_of_cases (region : pystr) (config : region_config) :
  config_of region WEATHER_CONFIG = Some config →
  config ∈ List.map snd WEATHER_CONFIG.
Proof.
  generalize WEATHER_CONFIG. intros table.
  induction table as [|[r c] table IH]; [done|]. cbn [config_of List.map snd].
  destruct (pystr_eqb r region); [intros [= <-]; by left|].
  intros H. right. by apply IH.
Qed.

Lemma forecast_files_nonempty (region : pystr) (config : region_config) :
  config_of region WEATHER_CONFIG = Some config →
  ∃ f_name, f_name ∈ forecast_files config.
Proof.
  intros Hconfig%config_of_cases. unfold WEATHER_CONFIG in Hconfig.
  cbn [List.map snd] in Hconfig.
  repeat (apply elem_of_cons in Hconfig as [->|Hconfig]);
    [..|by apply elem_of_nil in Hconfig];
    cbn [forecast_files]; eexists; by left.
Qed.

(** X6. Once the forecast files of a region are all read, every town of the
    region finds the document of its county: for each averaging town and for
    the town of the weather code, the document looked up is the one the file
    named after the county holds. *)
Theorem every_town_has_its_forecast (cache : forecast_cache) (region : pystr)
    (config : region_config) (forecasts : gmap pystr json) :
  config_of region WEATHER_CONFIG = Some config →
  load_forecasts cache (forecast_files config) ∅ = Some forecasts →
  ∀ county town, (county, town) ∈ code_town config :: avg_towns config →
    ∃ doc, cache (county ++ u8 "_forecast.json") = Some doc ∧
           forecasts !! county = Some doc.
Proof.
  intros Hconfig%config_of_cases. unfold WEATHER_CONFIG in Hconfig.
  cbn [List.map snd] in Hconfig.
  repeat (apply elem_of_cons in Hconfig as [->|Hconfig]);
    [..|by apply elem_of_nil in Hconfig];
    cbn [forecast_files load_forecasts code_town avg_towns];
    repeat match goal with
    | |- context [cache ?f] =>
        let doc := fresh "doc" in
        let Hdoc := fresh "Hdoc" in
        destruct (cache f) as [doc|] eqn:Hdoc; [|done]
    end;
    intros [= <-] county town Htown;
    repeat (apply elem_of_cons in Htown as [[= -> ->]|Htown]);
    try (by apply elem_of_nil in Htown);
    match goal with
    | Hdoc : cache _ = Some ?doc |- _ =>
        exists doc; split; [exact Hdoc|vm_compute; reflexivity]
    end.
Qed.

(** *** The demand table *)

(** What a call appends depends on the answer alone: nothing, or one row of
    the run's timestamp. *)
Lemma demand_step_rows (response : option json) (formatted_datetime : Z)
    (dir : bool) (table table' : list (Z * pyfloat)) :
  fetch_and_save_demand_data response formatted_datetime dir table = Ok table' →
  ∃ rows,
    (rows = [] ∨ dir = true ∧ ∃ load, rows = [(formatted_datetime, load)]) ∧
    table' = table ++ rows ∧
    ∀ other,
      fetch_and_save_demand_data response formatted_datetime true other =
      Ok (other ++ rows).
Proof.
  unfold fetch_and_save_demand_data.
  repeat match goal with
  | |- context [match ?x with _ => _ end] => destruct x; try done
  end;
  intros [= <-];
  first [ exists []; split; [by left|]; split; [by rewrite app_nil_r|];
          intros other; by rewrite app_nil_r
        | eexists [_]; split; [right; eauto|done] ].
Qed.

(** The exceptions the demand step lets through: [AttributeError], and
    [OSError] when it has a row to write and no directory to write it in. *)
Lemma demand_step_raises (response : option json) (formatted_datetime : Z)
    (dir : bool) (table : list (Z * pyfloat)) (e : exn) :
  fetch_and_save_demand_data response formatted_datetime dir table = Raise e →
  e = AttributeError ∨
  (e = OSError ∧ dir = false ∧
   ∃ load,
     fetch_and_save_demand_data response formatted_datetime true table =
     Ok (table ++ [(formatted_datetime, load)])).
Proof.
  unfold fetch_and_save_demand_data.
  repeat match goal with
  | |- context [match ?x with _ => _ end] => destruct x; try done
  end; intros [= <-]; first [by left|right; eauto].
Qed.

(** X7. The demand table is only ever appended to: a call of
    [fetch_and_save_demand_data] leaves the table as it is or, when the
    directory [final_data] is there, adds one row with the run's timestamp
    at its end. Two exceptions escape it: [AttributeError], and [OSError]
    exactly when it has a row to write and the directory is not there, as
    for a load written as a decimal number before the first successful
    run. *)
Theorem demand_table_append_only (response : option json)
    (formatted_datetime : Z) (dir : bool) (table : list (Z * pyfloat)) :
  match fetch_and_save_demand_data response formatted_datetime dir table with
  | Ok table' =>
      table' = table ∨
      dir = true ∧ ∃ load, table' = table ++ [(formatted_datetime, load)]
  | Raise e =>
      e = AttributeError ∨
      (e = OSError ∧ dir = false ∧
       ∃ load,
         fetch_and_save_demand_data response formatted_datetime true table =
         Ok (table ++ [(formatted_datetime, load)]))
  end ∧
  fetch_and_save_demand_data None formatted_datetime dir table = Ok table ∧
  (∀ items fields rest text,
     response = Some (JDict items) →
     assoc_lookup (u8 "records") items = Some (JList (JDict fields :: rest)) →
     assoc_lookup (u8 "curr_load") fields = Some (JStr text) →
     decimal_match (py_replace (u8 ",") [] text) = true →
     ∃ load,
       (load = FFin (decimal_number (py_replace (u8 ",") [] text)) ∨
        ∃ negative, load = FInf negative) ∧
       fetch_and_save_demand_data response formatted_datetime dir table =
       if dir then Ok (table ++ [(formatted_datetime, load)])
       else Raise OSError).
Proof.
  split; [|split; [done|]].
  - destruct (fetch_and_save_demand_data response formatted_datetime dir table)
      as [table'|e] eqn:Hcall.
    + destruct (demand_step_rows _ _ _ _ _ Hcall) as (rows & Hrows & -> & _).
      destruct Hrows as [->|[-> [load ->]]];
        [left; apply app_nil_r|right; eauto].
    + by eapply demand_step_raises.
  - intros items fields rest text -> Hrecords Hload Hmatch.
    unfold fetch_and_save_demand_data. rewrite Hrecords, Hload.
    destruct text as [|c text]; [by vm_compute in Hmatch|].
    cbn [default from_option id truthy negb].
    rewrite bool_decide_false by done. cbn [negb].
    destruct (float_of_decimal _ Hmatch) as [Hfloat|[negative Hfloat]];
      rewrite Hfloat; eexists; (split; [|reflexivity]); [by left|right; eauto].
Qed.

(** *** The records of a feed *)

Lemma get_or_cases (d : list (pystr * pystr)) (key dflt : pystr) :
  get_or d key dflt = dflt ∨ get_or d key dflt ∈ List.map snd d.
Proof.
  induction d as [|[k v] d IH]; cbn [get_or List.map snd]; [by left|].
  destruct (pystr_eqb k key); [right; by left|].
  destruct IH as [IH|IH]; [by left|right; by right].
Qed.

Lemma fuel_names_without_load (v : pystr) :
  v ∈ List.map snd fuel_map → py_contains load_marker v = false.
Proof.
  unfold fuel_map. cbn [List.map snd]. intros Hv.
  repeat (apply elem_of_cons in Hv as [->|Hv]);
    [..|by apply elem_of_nil in Hv]; vm_compute; reflexivity.
Qed.

Lemma parse_row_record (formatted_datetime : Z) (row : list pystr)
    (r : generation_record) :
  parse_row formatted_datetime row = Some r →
  ∃ f0 f2 f4 label,
    row !! 0%nat = Some f0 ∧ row !! 2%nat = Some f2 ∧ row !! 4%nat = Some f4 ∧
    py_contains subtotal_marker f2 = false ∧
    py_strip f2 ≠ [] ∧
    bold_label f0 = Some label ∧
    py_contains load_marker label = false ∧
    decimal_match (py_replace (u8 ",") [] f4) = true ∧
    r = {| DATETIME := formatted_datetime;
           FUEL_TYPE := get_or fuel_map label label;
           UNIT_NAME := py_strip f2;
           NET_P := binary64 (decimal_number (py_replace (u8 ",") [] f4)) |}.
Proof.
  unfold parse_row.
  destruct row as [|f0 [|f1 [|f2 [|f3 [|f4 rest]]]]]; try done.
  destruct (py_contains subtotal_marker f2) eqn:Hsub; [done|].
  destruct (bold_label f0) as [label|] eqn:Hlabel; [|done].
  destruct (bool_decide (py_strip f2 = []) || py_contains load_marker label)
    eqn:Hskip; [done|].
  apply orb_false_iff in Hskip as [Hname%bool_decide_eq_false Hload].
  destruct (decimal_match (py_replace (u8 ",") [] f4)) eqn:Hmatch; [|done].
  intros [= <-]. by exists f0, f2, f4, label.
Qed.

(** X8. Every record read from the feed carries the run's timestamp and a
    unit name that is not empty and neither starts nor ends with whitespace;
    no record is a subtotal row (no unit name holds the subtotal marker) and
    no record has a fuel type that holds the word Load. *)
Theorem feed_records_are_clean (formatted_datetime : Z)
    (live_data : list (list pystr)) (r : generation_record) :
  r ∈ parse_feed formatted_datetime live_data →
  DATETIME r = formatted_datetime ∧
  UNIT_NAME r ≠ [] ∧ trimmed (UNIT_NAME r) ∧
  py_contains subtotal_marker (UNIT_NAME r) = false ∧
  py_contains load_marker (FUEL_TYPE r) = false.
Proof.
  intros (row & _ & Hrow)%elem_of_parse_feed.
  apply parse_row_record in Hrow
    as (f0 & f2 & f4 & label & _ & _ & _ & Hsub & Hname & _ & Hload & _ & ->).
  cbn [DATETIME UNIT_NAME FUEL_TYPE]. split; [done|]. split; [done|].
  split; [|split].
  - by destruct (py_strip_spec f2) as (? & ? & _ & _ & _ & H).
  - destruct (py_contains subtotal_marker (py_strip f2)) eqn:Hstrip; [|done].
    apply py_strip_contains in Hstrip. congruence.
  - destruct (get_or_cases fuel_map label label) as [->|Hmapped]; [done|].
    by apply fuel_names_without_load.
Qed.

(** *** The merge with the static map *)

Lemma assign_regions_single (plant_map : option (list plant_map_row))
    (r : generation_record) :
  assign_regions plant_map [r] =
  match static_rows plant_map (UNIT_NAME r) with
  | [] => [{| unit_record := r; REGION := resolve_region (UNIT_NAME r) None |}]
  | m :: matches =>
      List.map
        (fun m => {| unit_record := r;
                     REGION := resolve_region (UNIT_NAME r) m.2 |})
        (m :: matches)
  end.
Proof.
  unfold assign_regions, static_rows. destruct plant_map as [rows|]; [|done].
  unfold merge_left. cbn [flat_map]. rewrite app_nil_r.
  destruct (List.filter (fun m => pystr_eqb m.1 (UNIT_NAME r)) rows)
    as [|m matches]; [done|].
  by rewrite List.map_map.
Qed.

Lemma assign_regions_units (plant_map : option (list plant_map_row))
    (r : generation_record) :
  List.map unit_record (assign_regions plant_map [r]) =
  replicate (Nat.max 1 (length (static_rows plant_map (UNIT_NAME r)))) r.
Proof.
  rewrite assign_regions_single.
  destruct (static_rows plant_map (UNIT_NAME r)) as [|m matches]; [done|].
  rewrite List.map_map. cbn [unit_record].
  change (Nat.max 1 (length (m :: matches))) with (length (m :: matches)).
  generalize (m :: matches). intros l. induction l as [|x l IH]; [done|].
  cbn [List.map length replicate]. by rewrite IH.
Qed.

Lemma static_rows_absent (rows : list plant_map_row) (unit_name : pystr) :
  unit_name ∉ List.map fst rows → static_rows (Some rows) unit_name = [].
Proof.
  unfold static_rows. induction rows as [|[k v] rows IH]; [done|].
  cbn [List.map fst]. intros [Hk Hrows]%not_elem_of_cons.
  cbn [List.filter fst]. unfold pystr_eqb at 1.
  rewrite bool_decide_false by congruence. by apply IH.
Qed.

Lemma static_rows_unique (plant_map : option (list plant_map_row))
    (unit_name : pystr) :
  (∀ rows, plant_map = Some rows → NoDup (List.map fst rows)) →
  (length (static_rows plant_map unit_name) ≤ 1)%nat.
Proof.
  destruct plant_map as [rows|]; [|cbn; lia]. intros Hnd.
  specialize (Hnd rows eq_refl).
  induction rows as [|[k v] rows IH]; [cbn; lia|].
  cbn [List.map fst] in Hnd. apply NoDup_cons in Hnd as [Hk Hnd].
  unfold static_rows. cbn [List.filter fst]. unfold pystr_eqb at 1.
  case_bool_decide as Hname.
  - subst k. fold (static_rows (Some rows) unit_name).
    rewrite static_rows_absent by done. cbn. lia.
  - by apply IH.
Qed.

Lemma merged_units (plant_map : option (list plant_map_row))
    (records : list generation_record) :
  List.map unit_record (assign_regions plant_map records) =
  flat_map
    (fun r => replicate
                (Nat.max 1 (length (static_rows plant_map (UNIT_NAME r)))) r)
    records.
Proof.
  induction records as [|r records IH].
  - unfold assign_regions. by destruct plant_map.
  - rewrite assign_regions_cons, List.map_app, assign_regions_units, IH. done.
Qed.

Lemma merged_records (plant_map : option (list plant_map_row))
    (records : list generation_record) :
  (∀ rows, plant_map = Some rows → NoDup (List.map fst rows)) →
  List.map unit_record (assign_regions plant_map records) = records.
Proof.
  intros Hnd. rewrite merged_units.
  induction records as [|r records IH]; [done|]. cbn [flat_map].
  rewrite IH. pose proof (static_rows_unique plant_map (UNIT_NAME r) Hnd) as Hlen.
  replace (Nat.max 1 (length (static_rows plant_map (UNIT_NAME r)))) with 1%nat
    by lia. done.
Qed.

Lemma merged_region_trimmed (plant_map : option (list plant_map_row))
    (records : list generation_record) (row : unit_row) :
  row ∈ assign_regions plant_map records → trimmed (REGION row).
Proof.
  unfold assign_regions. intros Hrow.
  apply list_elem_of_fmap in Hrow as ([r mapped] & -> & _).
  cbn [REGION]. unfold resolve_region.
  by destruct (py_strip_spec
    (match mapped with
     | Some region => region
     | None => default unknown_region (infer_region_from_name (UNIT_NAME r))
     end)) as (? & ? & _ & _ & _ & H).
Qed.

(** X9. The merge with the static map loses no record: every record of the
    feed appears in the merged frame once, or as many times as the map has
    rows for its unit name. When no unit name occurs twice in the map, or
    the map file is missing, the records of the merged frame are the
    records of the feed, in their order. No region of the merged frame
    starts or ends with whitespace. *)
Theorem merge_keeps_records (plant_map : option (list plant_map_row))
    (records : list generation_record) :
  List.map unit_record (assign_regions plant_map records) =
    flat_map
      (fun r => replicate
                  (Nat.max 1 (length (static_rows plant_map (UNIT_NAME r)))) r)
      records ∧
  ((∀ rows, plant_map = Some rows → NoDup (List.map fst rows)) →
   List.map unit_record (assign_regions plant_map records) = records) ∧
  (∀ row, row ∈ assign_regions plant_map records → trimmed (REGION row)).
Proof.
  split; [apply merged_units|]. split; [apply merged_records|].
  apply merged_region_trimmed.
Qed.

(** *** The groups of the aggregation *)

Lemma pystr_leb_total (a b : pystr) :
  pystr_leb a b = true ∨ pystr_leb b a = true.
Proof.
  revert b. induction a as [|x a IH]; intros [|y b]; cbn [pystr_leb]; auto.
  destruct (N.ltb_spec x y) as [Hxy|Hxy]; [by left|].
  destruct (N.ltb_spec y x) as [Hyx|Hyx]; [by right|].
  assert (x = y) as -> by lia. rewrite N.eqb_refl. apply IH.
Qed.

Lemma pystr_leb_antisym (a b : pystr) :
  pystr_leb a b = true → pystr_leb b a = true → a = b.
Proof.
  revert b. induction a as [|x a IH]; intros [|y b]; cbn [pystr_leb]; try done.
  rewrite !orb_true_iff, !andb_true_iff, !N.ltb_lt, !N.eqb_eq.
  intros [?|[-> H1]] [?|[? H2]]; try (exfalso; lia).
  f_equal. by apply IH.
Qed.

Lemma key_le_total : Total key_le.
Proof.
  intros [[t1 r1] f1] [[t2 r2] f2]. unfold key_le, key_leb.
  destruct (Z.ltb_spec t1 t2) as [H12|H12]; [left; exact I|].
  destruct (Z.ltb_spec t2 t1) as [H21|H21]; [right; exact I|].
  assert (t1 = t2) as -> by lia. rewrite Z.eqb_refl. cbn [orb andb].
  destruct (pystr_leb r2 r1) eqn:Hr21; [|left; exact I].
  destruct (pystr_leb r1 r2) eqn:Hr12; [|right; exact I].
  pose proof (pystr_leb_antisym _ _ Hr12 Hr21) as ->.
  unfold pystr_eqb. rewrite bool_decide_true by done. cbn [negb orb andb].
  destruct (pystr_leb_total f1 f2) as [-> | ->]; [left|right]; exact I.
Qed.

Lemma agg_key_group (k : group_key) (rows : list enriched_row) :
  agg_key (aggregate_group k rows) = k.
Proof. by destruct k as [[t region] fuel]. Qed.

Lemma aggregated_keys (rows : list enriched_row) (aggregated : list aggregated_row) :
  aggregate rows = Ok aggregated →
  List.map agg_key aggregated = sorted_keys (List.map key_of rows).
Proof.
  intros ->%aggregate_rows. rewrite List.map_map.
  rewrite <- (List.map_id (sorted_keys _)) at 2.
  apply List.map_ext. intros k. apply agg_key_group.
Qed.

(** X11. The aggregation returns one row for each (timestamp, region, fuel
    type) that occurs among the enriched records, and no other row; the
    rows are in ascending order of their keys, and the net power of a row
    is the sum pandas computes of the net powers of the records of its
    key, in the order of the frame: their exact sum when no addition
    rounds. *)
Theorem one_row_per_group (rows : list enriched_row)
    (aggregated : list aggregated_row) :
  aggregate rows = Ok aggregated →
  NoDup (List.map agg_key aggregated) ∧
  (∀ k, k ∈ List.map agg_key aggregated ↔ ∃ r, r ∈ rows ∧ key_of r = k) ∧
  Sorted key_le (List.map agg_key aggregated) ∧
  (∀ a, a ∈ aggregated →
     agg_NET_P a =
       group_sum (List.map e_NET_P (rows_of_key (agg_key a) rows)) ∧
     (exactly_added 0 (List.map e_NET_P (rows_of_key (agg_key a) rows)) = true →
      agg_NET_P a =
        FFin (sum_of (fun r => rational (e_NET_P r))
                (rows_of_key (agg_key a) rows)))).
Proof.
  intros Hagg. rewrite (aggregated_keys _ _ Hagg). split; [|split; [|split]].
  - apply sorted_keys_NoDup.
  - intros k. rewrite elem_of_sorted_keys.
    change (k ∈ key_of <$> rows ↔ ∃ r, r ∈ rows ∧ key_of r = k).
    rewrite list_elem_of_fmap. naive_solver.
  - exact (Sorted_merge_sort (fun a b => Is_true (key_leb a b))
             (Total0 := key_le_total) _).
  - apply aggregate_rows in Hagg as ->. intros a Ha.
    apply list_elem_of_fmap in Ha as (k & -> & _).
    rewrite agg_key_group. split; [done|]. intros Hexact.
    cbn [aggregate_group agg_NET_P]. unfold sum_net_p.
    by rewrite (group_sum_exact _ Hexact), sum_of_fmap.
Qed.

(** *** The weather of an aggregated row *)

Lemma elem_of_unique_from (seen l : list pystr) (x : pystr) :
  x ∈ unique_from seen l ↔ x ∈ l ∧ x ∉ seen.
Proof.
  revert seen. induction l as [|y l IH]; intros seen; cbn [unique_from].
  - rewrite elem_of_nil. naive_solver.
  - case_bool_decide as Hy.
    + rewrite IH, elem_of_cons. naive_solver.
    + rewrite elem_of_cons, IH, !elem_of_cons.
      destruct (decide (x = y)); naive_solver.
Qed.

Lemma elem_of_py_unique (l : list pystr) (x : pystr) : x ∈ py_unique l ↔ x ∈ l.
Proof.
  unfold py_unique. rewrite elem_of_unique_from, elem_of_nil. naive_solver.
Qed.

Lemma weather_for_regions_lookup (cache : forecast_cache) (effective_time : Z)
    (regions : list pystr) (acc regional : gmap pystr (gmap pystr pyfloat)) :
  weather_for_regions cache effective_time regions acc = Ok regional →
  ∀ region,
    (region ∈ regions →
     ∃ features,
       get_regional_weather_features cache region effective_time = Ok features ∧
       regional !! region = Some features) ∧
    (region ∉ regions → regional !! region = acc !! region).
Proof.
  revert acc. induction regions as [|r regions IH]; intros acc;
    cbn [weather_for_regions].
  - intros [= <-] region. split; [by intros ?%elem_of_nil|done].
  - destruct (get_regional_weather_features cache r effective_time)
      as [features|e] eqn:Hr; cbn [mbind py_result_bind]; [|done].
    intros Hrest region. destruct (IH _ Hrest region) as [Hin Hout]. split.
    + intros Hregion.
      destruct (decide (region ∈ regions)) as [Hin'|Hnot]; [by apply Hin|].
      apply elem_of_cons in Hregion as [->|?]; [|done].
      exists features. split; [done|]. rewrite (Hout Hnot).
      apply lookup_insert_eq.
    + intros [Hne Hnot]%not_elem_of_cons. rewrite (Hout Hnot).
      by apply lookup_insert_ne.
Qed.

Lemma weather_for_regions_Ok (cache : forecast_cache) (effective_time : Z)
    (regions : list pystr) (acc : gmap pystr (gmap pystr pyfloat)) :
  (∀ region, region ∈ regions →
     ∃ features,
       get_regional_weather_features cache region effective_time = Ok features) →
  ∃ regional, weather_for_regions cache effective_time regions acc = Ok regional.
Proof.
  revert acc. induction regions as [|r regions IH]; intros acc Hall;
    cbn [weather_for_regions]; [by eexists|].
  destruct (Hall r) as [features ->]; [by left|]. cbn [mbind py_result_bind].
  apply IH. intros region Hregion. apply Hall. by right.
Qed.

Lemma enriched_weather (cache : forecast_cache) (effective_time : Z)
    (merged : list unit_row) (regional : gmap pystr (gmap pystr pyfloat))
    (row : enriched_row) :
  weather_for_regions cache effective_time
    (py_unique (List.map REGION merged)) ∅ = Ok regional →
  row ∈ enrich regional merged →
  get_regional_weather_features cache (e_REGION row) effective_time =
  Ok (e_weather row).
Proof.
  intros Hweather Hrow. unfold enrich in Hrow.
  apply list_elem_of_fmap in Hrow as (u & -> & Hu). cbn [e_REGION e_weather].
  destruct (weather_for_regions_lookup _ _ _ _ _ Hweather (REGION u)) as [Hin _].
  destruct Hin as (features & Hfeatures & ->); [|done].
  apply elem_of_py_unique. change (REGION u ∈ REGION <$> merged).
  by apply list_elem_of_fmap_2.
Qed.

Lemma no_value_but_nan (column : pystr) (group : list enriched_row) :
  (∀ r, r ∈ group → is_nan (column_value column r) = true) →
  List.filter (fun f => negb (is_nan f)) (List.map (column_value column) group) = [].
Proof.
  induction group as [|r group IH]; intros Hall; [done|].
  cbn [List.map List.filter]. rewrite (Hall r) by left. cbn [negb].
  apply IH. intros r' Hr'. apply Hall. by right.
Qed.

Lemma first_value_of_constant (column : pystr) (group : list enriched_row)
    (v : pyfloat) :
  group ≠ [] → (∀ r, r ∈ group → column_value column r = v) →
  first_value_of column group = v.
Proof.
  intros Hne Hall. unfold first_value_of. destruct (is_nan v) eqn:Hv.
  - rewrite no_value_but_nan; [by destruct v|].
    intros r Hr. by rewrite (Hall r Hr).
  - destruct group as [|r group]; [done|].
    cbn [List.map List.filter]. rewrite (Hall r) by left. by rewrite Hv.
Qed.

(** X12. The weather columns of an aggregated row are the feature set of
    the row's region: each column holds the feature of that name, and NaN
    where the feature set has none. *)
Theorem aggregated_weather_is_regional (cache : forecast_cache)
    (effective_time : Z) (merged : list unit_row)
    (regional : gmap pystr (gmap pystr pyfloat))
    (aggregated : list aggregated_row) :
  weather_for_regions cache effective_time
    (py_unique (List.map REGION merged)) ∅ = Ok regional →
  aggregate (enrich regional merged) = Ok aggregated →
  ∀ a, a ∈ aggregated →
    ∃ features,
      get_regional_weather_features cache (agg_REGION a) effective_time =
        Ok features ∧
      agg_weather a =
        List.map (fun c => (c, default FNan (features !! c))) weather_columns.
Proof.
  intros Hweather ->%aggregate_rows a Ha.
  apply list_elem_of_fmap in Ha as (k & -> & Hk).
  rewrite elem_of_sorted_keys in Hk.
  change (k ∈ key_of <$> enrich regional merged) in Hk.
  apply list_elem_of_fmap in Hk as (r & -> & Hr).
  pose proof (enriched_weather _ _ _ _ _ Hweather Hr) as Hfeatures.
  exists (e_weather r). split; [exact Hfeatures|].
  cbn [agg_weather aggregate_group]. apply List.map_ext. intros c. f_equal.
  apply first_value_of_constant.
  - intros Hnil.
    assert (Hin : r ∈ rows_of_key (key_of r) (enrich regional merged)).
    { apply list_elem_of_In, filter_In. split; [by apply list_elem_of_In|].
      by apply bool_decide_eq_true. }
    rewrite Hnil in Hin. by apply elem_of_nil in Hin.
  - intros r' Hr'.
    apply list_elem_of_In, filter_In in Hr' as [Hr' Hkey%bool_decide_eq_true].
    apply list_elem_of_In in Hr'.
    pose proof (enriched_weather _ _ _ _ _ Hweather Hr') as Hfeatures'.
    assert (Hregion : e_REGION r' = e_REGION r) by (by injection Hkey).
    rewrite Hregion, Hfeatures in Hfeatures'. injection Hfeatures' as Hsame.
    unfold column_value. by rewrite Hsame.
Qed.

(** *** What the store keeps *)

Lemma aggregated_rows_at (rows : list enriched_row)
    (aggregated : list aggregated_row) (timestamp : Z) :
  aggregate rows = Ok aggregated →
  (∀ r, r ∈ rows → e_DATETIME r = timestamp) →
  ∀ a, a ∈ aggregated → agg_DATETIME a = timestamp.
Proof.
  intros ->%aggregate_rows Hrows a Ha. by eapply aggregated_at_timestamp.
Qed.

Lemma persist_table (rows : list enriched_row) (aggregated : list aggregated_row)
    (timestamp : Z) (store : gmap (pystr * pystr) (list aggregated_row))
    (path : pystr * pystr) :
  aggregate rows = Ok aggregated →
  (∀ r, r ∈ rows → e_DATETIME r = timestamp) →
  (∃ a, a ∈ aggregated ∧ path_of a = path ∧
        persist timestamp aggregated store !! path =
        Some (List.filter (not_at timestamp) (default [] (store !! path)) ++ [a])) ∨
  ((∀ a, a ∈ aggregated → path_of a ≠ path) ∧
   persist timestamp aggregated store !! path = store !! path).
Proof.
  intros ->%aggregate_rows Hrows.
  pose proof (persist_written rows timestamp store path Hrows) as H.
  cbv zeta in H. destruct H as [(a & Ha & _ & Hpath & Htable)|[Hnone Hsame]].
  - left. by exists a.
  - by right.
Qed.

Lemma not_at_elem (timestamp : Z) (table : list aggregated_row)
    (a : aggregated_row) :
  a ∈ List.filter (not_at timestamp) table → agg_DATETIME a ≠ timestamp.
Proof.
  intros [_ Ha]%list_elem_of_In%filter_In. unfold not_at in Ha.
  apply negb_true_iff, Z.eqb_neq in Ha. done.
Qed.

(** X13. Persisting the rows of a run keeps the history of every table: the
    rows of other timestamps are, after the run, those that were there, in
    their order; no table is removed, and a table that no row of the run
    belongs to is left as it is. *)
Theorem persist_keeps_history (rows : list enriched_row)
    (aggregated : list aggregated_row) (timestamp : Z)
    (store : gmap (pystr * pystr) (list aggregated_row)) :
  aggregate rows = Ok aggregated →
  (∀ r, r ∈ rows → e_DATETIME r = timestamp) →
  ∀ path,
    List.filter (not_at timestamp)
      (default [] (persist timestamp aggregated store !! path)) =
    List.filter (not_at timestamp) (default [] (store !! path)) ∧
    (is_Some (store !! path) →
     is_Some (persist timestamp aggregated store !! path)) ∧
    ((∀ a, a ∈ aggregated → path_of a ≠ path) →
     persist timestamp aggregated store !! path = store !! path).
Proof.
  intros Hagg Hrows path.
  destruct (persist_table _ _ _ store path Hagg Hrows)
    as [(a & Ha & Hpath & ->)|[Hnone ->]]; [|done].
  pose proof (aggregated_rows_at _ _ _ Hagg Hrows a Ha) as Hat.
  cbn [default from_option id]. rewrite List.filter_app, not_at_idempotent.
  cbn [List.filter]. unfold not_at at 2. rewrite Hat, Z.eqb_refl. cbn [negb].
  rewrite app_nil_r. split; [done|]. split; [eauto|].
  intros Hno. by destruct (Hno a Ha).
Qed.

(** X14. A row of the run is stored as the last row of its table when no
    other row of the run has the same table file. Two rows of the run whose
    region and fuel type give the same table file are never both stored:
    the table holds one of them only. *)
Theorem groups_sharing_a_table (rows : list enriched_row)
    (aggregated : list aggregated_row) (timestamp : Z)
    (store : gmap (pystr * pystr) (list aggregated_row)) :
  aggregate rows = Ok aggregated →
  (∀ r, r ∈ rows → e_DATETIME r = timestamp) →
  (∀ a, a ∈ aggregated →
     (∀ b, b ∈ aggregated → path_of b = path_of a → b = a) →
     ∃ table,
       persist timestamp aggregated store !! path_of a = Some table ∧
       last table = Some a) ∧
  (∀ a b, a ∈ aggregated → b ∈ aggregated → a ≠ b → path_of a = path_of b →
     ∃ table,
       persist timestamp aggregated store !! path_of a = Some table ∧
       ¬ (a ∈ table ∧ b ∈ table)).
Proof.
  intros Hagg Hrows. split.
  - intros a Ha Hinj.
    destruct (persist_table _ _ _ store (path_of a) Hagg Hrows)
      as [(c & Hc & Hpath & ->)|[Hnone _]]; [|by destruct (Hnone a Ha)].
    rewrite (Hinj c Hc Hpath). eexists. split; [done|]. apply last_snoc.
  - intros a b Ha Hb Hne Hpath.
    destruct (persist_table _ _ _ store (path_of a) Hagg Hrows)
      as [(c & Hc & _ & ->)|[Hnone _]]; [|by destruct (Hnone a Ha)].
    eexists. split; [done|]. intros [Hina Hinb]. apply Hne.
    assert (Hlast : ∀ x, x ∈ aggregated →
      x ∈ List.filter (not_at timestamp) (default [] (store !! path_of a)) ++ [c] →
      x = c).
    { intros x Hx [Hold|Hnew%list_elem_of_singleton]%elem_of_app; [|done].
      apply not_at_elem in Hold.
      by destruct (Hold (aggregated_rows_at _ _ _ Hagg Hrows x Hx)). }
    by rewrite (Hlast a Ha Hina), (Hlast b Hb Hinb).
Qed.

(** *** What a run writes *)

Lemma run_pipeline_after_records (i : run_input) (w : world)
    (live_data : list (list pystr)) (demand : list (Z * pyfloat)) :
  live_fetch i = Some live_data →
  fetch_and_save_demand_data (demand_fetch i) (effective_time_of (run_time i))
    (final_dir w) (demand_data w) = Ok demand →
  parse_feed (effective_time_of (run_time i)) live_data ≠ [] →
  run_pipeline i w =
  match weather_for_regions (forecast_files_cache i)
          (effective_time_of (run_time i))
          (py_unique (List.map REGION (merged_frame i live_data))) ∅ with
  | Raise e => (files_after i w live_data demand None, Raise e)
  | Ok regional =>
      match aggregate (enrich regional (merged_frame i live_data)) with
      | Raise e => (files_after i w live_data demand None, Raise e)
      | Ok aggregated =>
          (files_after i w live_data demand (Some aggregated), Ok Successful)
      end
  end.
Proof.
  intros Hfetch Hdemand Hrecords.
  unfold run_pipeline, files_after, merged_frame. rewrite Hfetch, Hdemand.
  destruct (parse_feed _ live_data) as [|r records] eqn:Hparse; [done|].
  cbn [unit_diff].
  destruct (weather_for_regions _ _ _ _) as [regional|e]; [|done].
  by destruct (aggregate _) as [aggregated|e].
Qed.

Lemma run_pipeline_world (i : run_input) (w w' : world) :
  run_pipeline i w = (w', Ok Successful) →
  ∃ live_data demand regional aggregated,
    live_fetch i = Some live_data ∧
    fetch_and_save_demand_data (demand_fetch i) (effective_time_of (run_time i))
      (final_dir w) (demand_data w) = Ok demand ∧
    parse_feed (effective_time_of (run_time i)) live_data ≠ [] ∧
    weather_for_regions (forecast_files_cache i) (effective_time_of (run_time i))
      (py_unique (List.map REGION (merged_frame i live_data))) ∅ = Ok regional ∧
    aggregate (enrich regional (merged_frame i live_data)) = Ok aggregated ∧
    w' = files_after i w live_data demand (Some aggregated).
Proof.
  intros Hrun.
  destruct (run_pipeline_Successful i w w' Hrun)
    as (live_data & demand & regional & aggregated &
        Hfetch & Hdemand & Hrecords & Hweather & Hagg & _).
  exists live_data, demand, regional, aggregated. do 5 (split; [done|]).
  rewrite (run_pipeline_after_records i w live_data demand) in Hrun by done.
  unfold merged_frame in Hrun. rewrite Hweather, Hagg in Hrun.
  by injection Hrun as <-.
Qed.

Lemma run_pipeline_again (i : run_input) (w w1 : world) :
  run_pipeline i w = (w1, Ok Successful) →
  ∃ live_data demand aggregated rows,
    w1 = files_after i w live_data demand (Some aggregated) ∧
    demand = demand_data w ++ rows ∧
    parse_feed (effective_time_of (run_time i)) live_data ≠ [] ∧
    run_pipeline i w1 =
      (files_after i w1 live_data (demand ++ rows) (Some aggregated),
       Ok Successful).
Proof.
  intros Hrun.
  destruct (run_pipeline_world i w w1 Hrun)
    as (live_data & demand & regional & aggregated &
        Hfetch & Hdemand & Hrecords & Hweather & Hagg & ->).
  destruct (demand_step_rows _ _ _ _ _ Hdemand) as (rows & _ & Htable & Hrows).
  exists live_data, demand, aggregated, rows. split; [done|].
  split; [done|]. split; [done|].
  rewrite (run_pipeline_after_records _ _ live_data (demand ++ rows));
    [|done|apply Hrows|done].
  by rewrite Hweather, Hagg.
Qed.

Lemma merged_frame_nonempty (plant_map : option (list plant_map_row))
    (records : list generation_record) :
  records ≠ [] → assign_regions plant_map records ≠ [].
Proof.
  intros Hrecords Hnil.
  pose proof (merged_units plant_map records) as Hunits.
  rewrite Hnil in Hunits. destruct records as [|r records]; [done|].
  cbn [List.map flat_map] in Hunits.
  destruct (Nat.max 1 (length (static_rows plant_map (UNIT_NAME r)))) eqn:Hmax;
    [lia|done].
Qed.

(** *** Power from the feed to the tables *)

(** X10. When no unit name occurs twice in the static map, no two rows of a
    successful run have the same table file and no addition of the
    grouping rounds, no power is lost from the feed to the tables: every
    row of the run is stored as the one row of the run's timestamp in its
    table, and the net powers of these rows add up to the net powers of the
    records read from the feed. *)
Theorem run_conserves_power (i : run_input) (w w' : world) :
  run_pipeline i w = (w', Ok Successful) →
  (∀ rows, plant_map_file i = Some rows → NoDup (List.map fst rows)) →
  ∃ live_data regional aggregated,
    live_fetch i = Some live_data ∧
    aggregate (enrich regional (merged_frame i live_data)) = Ok aggregated ∧
    ((∀ a b, a ∈ aggregated → b ∈ aggregated → path_of a = path_of b → a = b) →
     ∀ a, a ∈ aggregated →
       ∃ table,
         final_data w' !! path_of a = Some table ∧
         List.filter (is_at (effective_time_of (run_time i))) table = [a]) ∧
    ((∀ a, a ∈ aggregated →
        exactly_added 0
          (List.map e_NET_P
             (rows_of_key (agg_key a)
                (enrich regional (merged_frame i live_data)))) = true) →
     sum_of (fun a => rational (agg_NET_P a)) aggregated =
     sum_of (fun r => rational (NET_P r))
       (parse_feed (effective_time_of (run_time i)) live_data)).
Proof.
  intros Hrun Hmap.
  destruct (run_pipeline_world i w w' Hrun)
    as (live_data & demand & regional & aggregated &
        Hfetch & _ & _ & _ & Hagg & ->).
  exists live_data, regional, aggregated. split; [done|]. split; [done|].
  assert (Hrows : ∀ r, r ∈ enrich regional (merged_frame i live_data) →
                       e_DATETIME r = effective_time_of (run_time i)).
  { intros r Hr. by eapply enriched_at_run_time. }
  split.
  - intros Hinj a Ha. cbn [files_after final_data].
    destruct (persist_table _ _ _ (final_data w) (path_of a) Hagg Hrows)
      as [(c & Hc & Hpath & ->)|[Hnone _]]; [|by destruct (Hnone a Ha)].
    rewrite (Hinj c a Hc Ha Hpath). eexists. split; [done|].
    rewrite List.filter_app, is_at_not_at. cbn [List.filter app]. unfold is_at.
    by rewrite (aggregated_rows_at _ _ _ Hagg Hrows a Ha), Z.eqb_refl.
  - intros Hexact. apply aggregate_rows in Hagg. subst aggregated.
    set (rows := enrich regional (merged_frame i live_data)) in *.
    rewrite sum_of_fmap.
    rewrite (sum_of_ext _
      (fun k => sum_of (fun r => rational (e_NET_P r)) (rows_of_key k rows))).
    + rewrite sum_of_groups.
      * unfold rows, enrich. rewrite sum_of_fmap. cbn [e_NET_P].
        rewrite <- (sum_of_fmap unit_record (fun r => rational (NET_P r))).
        unfold merged_frame. by rewrite merged_records.
      * apply sorted_keys_NoDup.
      * intros r Hr. apply elem_of_sorted_keys.
        change (key_of r ∈ key_of <$> rows). by apply list_elem_of_fmap_2.
    + intros k Hk.
      pose proof (Hexact (aggregate_group k rows)
                    (list_elem_of_fmap_2 (fun κ => aggregate_group κ rows) _ _ Hk))
        as Hgroup.
      rewrite agg_key_group in Hgroup.
      cbn [aggregate_group agg_NET_P]. unfold sum_net_p.
      rewrite (group_sum_exact _ Hgroup). cbn [rational].
      by rewrite sum_of_fmap.
Qed.

(** *** The directory of the tables *)

Lemma demand_step_without_directory (response : option json)
    (formatted_datetime : Z) (table : list (Z * pyfloat)) (load : pyfloat) :
  fetch_and_save_demand_data response formatted_datetime true table =
    Ok (table ++ [(formatted_datetime, load)]) →
  fetch_and_save_demand_data response formatted_datetime false table =
    Raise OSError.
Proof.
  unfold fetch_and_save_demand_data.
  repeat match goal with
  | |- context [match ?x with _ => _ end] => destruct x; try done
  end;
  intros [= Hsame]; apply (f_equal length) in Hsame;
  rewrite length_app in Hsame; cbn [length] in Hsame; lia.
Qed.

(** X29. While the directory [final_data] is not there, a run whose demand
    answer gives a load to append is ended by [OSError] with every file as
    it was: the demand row is written before the directory is made. The
    directory is there after a successful run. *)
Theorem demand_row_needs_the_directory (i : run_input) (w : world)
    (live_data : list (list pystr)) (load : pyfloat) :
  final_dir w = false →
  live_fetch i = Some live_data →
  fetch_and_save_demand_data (demand_fetch i) (effective_time_of (run_time i))
    true (demand_data w) =
    Ok (demand_data w ++ [(effective_time_of (run_time i), load)]) →
  run_pipeline i w = (w, Raise OSError) ∧
  (∀ i' w', run_pipeline i' w = (w', Ok Successful) → final_dir w' = true).
Proof.
  intros Hdir Hfetch Hdemand. split.
  - unfold run_pipeline. rewrite Hfetch, Hdir.
    by rewrite (demand_step_without_directory _ _ _ _ Hdemand).
  - intros i' w'. apply run_pipeline_final_dir.
Qed.

(** *** The fluctuation report *)

Lemma name_le_total : Total name_le.
Proof.
  intros a b. unfold name_le.
  destruct (pystr_leb_total a b) as [-> | ->]; [left|right]; exact I.
Qed.

Lemma sorted_names_NoDup (names : list pystr) :
  NoDup names → NoDup (sorted_names names).
Proof. unfold sorted_names. by rewrite merge_sort_Permutation. Qed.

Lemma sorted_names_Sorted (names : list pystr) :
  Sorted name_le (sorted_names names).
Proof.
  exact (Sorted_merge_sort (fun a b => Is_true (pystr_leb a b))
           (Total0 := name_le_total) _).
Qed.

(** X19. The report of a run lists the added and the missing units each
    once and in ascending order, counts the distinct unit names of the
    feed, and marks the run as unchanged exactly when the feed holds the
    units the state file held. *)
Theorem fluctuation_report_lists (formatted_datetime : Z)
    (current_units previous_units : gset pystr) :
  let entry :=
    fluctuation_report formatted_datetime current_units
      (unit_diff current_units previous_units).1
      (unit_diff current_units previous_units).2 in
  NoDup (log_added entry) ∧ Sorted name_le (log_added entry) ∧
  NoDup (log_missing entry) ∧ Sorted name_le (log_missing entry) ∧
  log_plants entry = size current_units ∧
  (log_unchanged entry = true ↔ current_units = previous_units).
Proof.
  cbn [fluctuation_report unit_diff fst snd log_added log_missing log_plants
       log_unchanged].
  split; [apply sorted_names_NoDup, NoDup_elements|].
  split; [apply sorted_names_Sorted|].
  split; [apply sorted_names_NoDup, NoDup_elements|].
  split; [apply sorted_names_Sorted|]. split; [done|].
  rewrite andb_true_iff, !bool_decide_eq_true. split.
  - intros [Hadded%empty_difference_subseteq_L Hmissing%empty_difference_subseteq_L].
    by apply (anti_symm (⊆)).
  - intros ->. by rewrite difference_diag_L.
Qed.


(** X16. The logs are append-only and are not guarded against a repeated
    run: after a successful run, a second run on the same inputs appends
    the same demand rows, the same unit details and the same entry of
    unknown plants once more. *)
Theorem rerun_appends_again (i : run_input) (w w1 : world) :
  run_pipeline i w = (w1, Ok Successful) →
  ∃ w2 demand_rows detail_rows unknown_entry,
    run_pipeline i w1 = (w2, Ok Successful) ∧
    detail_rows ≠ [] ∧
    demand_data w1 = demand_data w ++ demand_rows ∧
    demand_data w2 = demand_data w1 ++ demand_rows ∧
    unit_details_log w1 = unit_details_log w ++ detail_rows ∧
    unit_details_log w2 = unit_details_log w1 ++ detail_rows ∧
    unknown_plants_log w1 = unknown_plants_log w ++ [unknown_entry] ∧
    unknown_plants_log w2 = unknown_plants_log w1 ++ [unknown_entry].
Proof.
  intros Hrun.
  destruct (run_pipeline_again i w w1 Hrun)
    as (live_data & demand & aggregated & rows & -> & -> & Hrecords & ->).
  eexists _, rows, _, _. split; [done|].
  cbn [files_after demand_data unit_details_log unknown_plants_log].
  split; [|done].
  intros Hnil%fmap_nil_inv. by apply merged_frame_nonempty in Hnil.
Qed.

(** *** The log of unknown plants *)

Lemma assign_regions_nil (plant_map : option (list plant_map_row)) :
  assign_regions plant_map [] = [].
Proof. unfold assign_regions. by destruct plant_map. Qed.

Lemma elem_of_assign_regions (plant_map : option (list plant_map_row))
    (records : list generation_record) (row : unit_row) :
  row ∈ assign_regions plant_map records ↔
  ∃ r, r ∈ records ∧ row ∈ assign_regions plant_map [r].
Proof.
  induction records as [|r records IH].
  - rewrite assign_regions_nil. split; [by intros ?%elem_of_nil|].
    by intros (r & ?%elem_of_nil & _).
  - rewrite assign_regions_cons, elem_of_app, IH. split.
    + intros [Hrow|(r' & Hr' & Hrow)].
      * exists r. split; [by left|done].
      * exists r'. split; [by right|done].
    + intros (r' & [->|Hr']%elem_of_cons & Hrow); [by left|right; eauto].
Qed.

Lemma elem_of_assign_regions_single (plant_map : option (list plant_map_row))
    (r : generation_record) (row : unit_row) :
  row ∈ assign_regions plant_map [r] ↔
  unit_record row = r ∧
  ((static_rows plant_map (UNIT_NAME r) = [] ∧
    REGION row = resolve_region (UNIT_NAME r) None) ∨
   ∃ m, m ∈ static_rows plant_map (UNIT_NAME r) ∧
        REGION row = resolve_region (UNIT_NAME r) m.2).
Proof.
  rewrite assign_regions_single.
  destruct (static_rows plant_map (UNIT_NAME r)) as [|m matches].
  - rewrite list_elem_of_singleton. split.
    + intros ->. split; [done|]. by left.
    + intros [<- [[_ Hregion]|(m & ?%elem_of_nil & _)]]; [|done].
      destruct row as [record region]. cbn [unit_record REGION] in *. by subst.
  - rewrite list_elem_of_fmap. split.
    + intros (m' & -> & Hm'). split; [done|]. right. by exists m'.
    + intros [<- [[? _]|(m' & Hm' & Hregion)]]; [done|].
      exists m'. split; [|done]. destruct row as [record region].
      cbn [unit_record REGION] in *. by subst.
Qed.

Lemma inferred_region_not_unknown (unit_name region : pystr) :
  infer_region_from_name unit_name = Some region → region ≠ unknown_region.
Proof.
  intros (j & keywords & Hj & _)%infer_region_in_Some.
  assert (Hregion : region ∈ List.map fst region_keywords).
  { change (region ∈ fst <$> region_keywords).
    apply list_elem_of_fmap. exists (region, keywords). split; [done|].
    by eapply list_elem_of_lookup_2. }
  unfold region_keywords in Hregion. cbn [List.map fst] in Hregion.
  repeat (apply elem_of_cons in Hregion as [->|Hregion]);
    [..|by apply elem_of_nil in Hregion]; key_ne.
Qed.

Lemma unknown_region_known : unknown_region ∈ known_regions.
Proof.
  unfold known_regions, unknown_region. rewrite !elem_of_cons.
  do 6 right. by left.
Qed.

Lemma resolve_region_unknown (unit_name : pystr) :
  resolve_region unit_name None = unknown_region ↔
  infer_region_from_name unit_name = None.
Proof.
  unfold resolve_region.
  rewrite (strip_known_region _ (inferred_region_known unit_name)).
  destruct (infer_region_from_name unit_name) as [region|] eqn:Hinfer;
    cbn [default from_option id]; [|done].
  split; [|done]. intros ->. by apply inferred_region_not_unknown in Hinfer.
Qed.

(** X17. The log of unknown plants names exactly the units of the feed
    whose region resolves to Unknown: the units the static map has no row
    for and whose name holds no keyword of a region, and the units a row of
    the map sends to Unknown. *)
Theorem unknown_plants_are_unresolved (plant_map : option (list plant_map_row))
    (records : list generation_record) (u : pystr) :
  u ∈ unknown_plants (assign_regions plant_map records) ↔
  ∃ r, r ∈ records ∧ UNIT_NAME r = u ∧
    ((static_rows plant_map u = [] ∧ infer_region_from_name u = None) ∨
     ∃ m, m ∈ static_rows plant_map u ∧
          resolve_region u m.2 = unknown_region).
Proof.
  unfold unknown_plants. rewrite sorted_names_elem, list_elem_of_fmap. split.
  - intros (row & -> & [Hrow Hregion]%list_elem_of_In%filter_In).
    apply bool_decide_eq_true in Hregion.
    apply list_elem_of_In, elem_of_assign_regions in Hrow as (r & Hr & Hrow).
    apply elem_of_assign_regions_single in Hrow as [-> Hcases].
    exists r. split; [done|]. split; [done|].
    destruct Hcases as [[Hnone Hresolved]|(m & Hm & Hresolved)].
    + left. split; [done|]. apply resolve_region_unknown. congruence.
    + right. exists m. split; [done|]. congruence.
  - intros (r & Hr & <- & Hcases).
    assert (Hrow : ∃ row, row ∈ assign_regions plant_map [r] ∧
                          REGION row = unknown_region) .
    { destruct Hcases as [[Hnone Hinfer]|(m & Hm & Hresolved)].
      - exists {| unit_record := r; REGION := unknown_region |}.
        split; [|done]. apply elem_of_assign_regions_single.
        split; [done|]. left. split; [done|].
        symmetry. by apply resolve_region_unknown.
      - exists {| unit_record := r; REGION := unknown_region |}.
        split; [|done]. apply elem_of_assign_regions_single.
        split; [done|]. right. exists m. split; [done|]. done. }
    destruct Hrow as (row & Hrow & Hregion).
    exists row. split.
    + apply elem_of_assign_regions_single in Hrow as [-> _]. done.
    + apply list_elem_of_In, filter_In. split.
      * apply list_elem_of_In, elem_of_assign_regions. eauto.
      * by apply bool_decide_eq_true.
Qed.

(** *** A run without forecasts *)

Lemma aggregate_without_weather (rows : list enriched_row) :
  (∀ r, r ∈ rows → e_weather r = ∅) → aggregate rows = Raise KeyError.
Proof.
  intros Hempty. unfold aggregate.
  assert (Hcolumn : has_column (u8 "TEMP_now") rows = false).
  { apply not_true_iff_false. unfold has_column.
    intros (r & Hr & Hc)%existsb_exists. apply list_elem_of_In in Hr.
    rewrite (Hempty r Hr), lookup_empty in Hc.
    apply bool_decide_eq_true in Hc. by destruct Hc. }
  unfold weather_columns. cbn [forallb]. by rewrite Hcolumn.
Qed.

Lemma features_without_forecasts (cache : forecast_cache) (region : pystr)
    (effective_time : Z) :
  ¬ has_forecasts cache region →
  get_regional_weather_features cache region effective_time = Ok ∅.
Proof.
  intros Hnone. unfold get_regional_weather_features.
  destruct (config_of region WEATHER_CONFIG) as [config|] eqn:Hconfig; [|done].
  destruct (load_forecasts cache (forecast_files config) ∅) as [forecasts|]
    eqn:Hload; [|done].
  destruct Hnone. exists config. split; [done|]. intros f_name Hf.
  destruct (cache f_name) as [doc|] eqn:Hdoc; [eauto|].
  rewrite load_forecasts_missing in Hload by eauto. done.
Qed.

(** X18. A run in which no region of the merged frame has its forecast
    files does not reach the tables: the aggregation raises [KeyError],
    since no row carries a weather column, after the state file, the
    fluctuation log, the log of unknown plants and the unit details have
    been written. *)
Theorem run_without_forecasts_fails (i : run_input) (w : world)
    (live_data : list (list pystr)) (demand : list (Z * pyfloat)) :
  live_fetch i = Some live_data →
  fetch_and_save_demand_data (demand_fetch i) (effective_time_of (run_time i))
    (final_dir w) (demand_data w) = Ok demand →
  parse_feed (effective_time_of (run_time i)) live_data ≠ [] →
  (∀ row, row ∈ merged_frame i live_data →
     ¬ has_forecasts (forecast_files_cache i) (REGION row)) →
  run_pipeline i w = (files_after i w live_data demand None, Raise KeyError) ∧
  final_data (files_after i w live_data demand None) = final_data w.
Proof.
  intros Hfetch Hdemand Hrecords Hnone. split; [|done].
  rewrite (run_pipeline_after_records i w live_data demand) by done.
  destruct (weather_for_regions_Ok (forecast_files_cache i)
              (effective_time_of (run_time i))
              (py_unique (List.map REGION (merged_frame i live_data))) ∅)
    as [regional Hweather].
  { intros region (row & -> & Hrow)%elem_of_py_unique%list_elem_of_fmap.
    exists ∅. apply features_without_forecasts. by apply Hnone. }
  rewrite Hweather. rewrite aggregate_without_weather; [done|].
  intros r Hr. pose proof (enriched_weather _ _ _ _ _ Hweather Hr) as Hfeatures.
  unfold enrich in Hr. apply list_elem_of_fmap in Hr as (row & -> & Hrow).
  cbn [e_REGION e_weather] in *.
  rewrite features_without_forecasts in Hfeatures by (by apply Hnone).
  by injection Hfeatures as <-.
Qed.

(** *** The aggregation of a frame with missing forecasts *)




(** *** The fuel type of a feed row *)

Lemma starts_with_other (p s : pystr) (a c : N) :
  head p = Some a → a ≠ c → starts_with p (c :: s) = false.
Proof.
  destruct p as [|a' p]; [done|]. intros [= ->] Hne. cbn [starts_with].
  by rewrite (proj2 (N.eqb_neq a c) Hne).
Qed.

Lemma lazy_until_close_label (label post : pystr) :
  60%N ∉ label → 10%N ∉ label →
  lazy_until_close (label ++ u8 "</b>" ++ post) = Some label.
Proof.
  induction label as [|c label IH]; intros Hlt Hnl.
  - by vm_compute.
  - apply not_elem_of_cons in Hlt as [Hc Hlt].
    apply not_elem_of_cons in Hnl as [Hc' Hnl].
    cbn [app lazy_until_close].
    rewrite (starts_with_other _ _ 60%N c) by done.
    rewrite (proj2 (N.eqb_neq c 10)) by done.
    by rewrite IH.
Qed.

Lemma bold_label_cons (c : N) (s : pystr) :
  bold_label (c :: s) =
  if starts_with (u8 "<b>") (c :: s) then
    match lazy_until_close (drop 3 (c :: s)) with
    | Some label => Some label
    | None => bold_label s
    end
  else bold_label s.
Proof. reflexivity. Qed.

Lemma bold_label_tagged (pre label post : pystr) :
  60%N ∉ pre → 60%N ∉ label → 10%N ∉ label →
  bold_label (pre ++ u8 "<b>" ++ label ++ u8 "</b>" ++ post) = Some label.
Proof.
  intros Hpre Hlt Hnl. induction pre as [|c pre IH].
  - change (u8 "<b>") with [60; 98; 62]%N. cbn [app].
    rewrite bold_label_cons.
    rewrite (proj2 (starts_with_spec _ _))
      by (by exists (label ++ u8 "</b>" ++ post)).
    cbn [drop]. by rewrite drop_0, lazy_until_close_label.
  - apply not_elem_of_cons in Hpre as [Hc Hpre]. cbn [app].
    rewrite bold_label_cons.
    rewrite (starts_with_other _ _ 60%N c) by done. by apply IH.
Qed.

Lemma get_or_absent (d : list (pystr * pystr)) (key dflt : pystr) :
  key ∉ List.map fst d → get_or d key dflt = dflt.
Proof.
  induction d as [|[k v] d IH]; [done|]. cbn [List.map fst get_or].
  intros [Hk Hd]%not_elem_of_cons. unfold pystr_eqb.
  rewrite bool_decide_false by congruence. by apply IH.
Qed.

Lemma known_fuel_file (label : pystr) :
  label ∈ List.map fst fuel_map →
  get_or fuel_map label label ≠ label ∧
  sanitize_name (get_or fuel_map label label) = label.
Proof.
  unfold fuel_map at 1. cbn [List.map fst]. intros Hlabel.
  repeat (apply elem_of_cons in Hlabel as [->|Hlabel]);
    [..|by apply elem_of_nil in Hlabel];
    (split; [key_ne|vm_compute; reflexivity]).
Qed.

(** X20. The fuel label of a feed row is the text between the first [<b>]
    and the [</b>] that follows it. A label of the fuel map is replaced by
    its name with an English remark, and the table file of that fuel type is
    named by the label alone; any other label is the fuel type as it is. *)
Theorem fuel_type_of_tagged_field :
  (∀ pre label post,
     60%N ∉ pre → 60%N ∉ label → 10%N ∉ label →
     bold_label (pre ++ u8 "<b>" ++ label ++ u8 "</b>" ++ post) = Some label) ∧
  (∀ label,
     label ∈ List.map fst fuel_map →
     get_or fuel_map label label ≠ label ∧
     sanitize_name (get_or fuel_map label label) = label) ∧
  (∀ label,
     label ∉ List.map fst fuel_map → get_or fuel_map label label = label).
Proof.
  split; [apply bold_label_tagged|]. split; [apply known_fuel_file|].
  intros label. apply get_or_absent.
Qed.

(** *** The features as means over the towns *)

Lemma collect_town_values_spec (forecasts : gmap pystr json)
    (towns : list (pystr * pystr)) (target_time : Z)
    (temps winds temps' winds' : list pyfloat) :
  collect_town_values forecasts towns target_time temps winds = Ok (temps', winds') →
  temps' = temps ++ town_values forecasts towns temperature_element target_time ∧
  winds' = winds ++ town_values forecasts towns wind_element target_time.
Proof.
  revert temps winds.
  induction towns as [|[county town] towns IH]; intros temps winds;
    cbn [collect_town_values town_values flat_map].
  - intros [= <- <-]. by rewrite !app_nil_r.
  - fold (town_values forecasts towns temperature_element target_time).
    fold (town_values forecasts towns wind_element target_time).
    destruct (forecasts !! county) as [doc|]; [|by intros ?%IH].
    destruct (get_forecast_value doc town temperature_element target_time)
      as [temp|e]; cbn [mbind py_result_bind]; [|done].
    destruct (get_forecast_value doc town wind_element target_time)
      as [wind|e]; cbn [mbind py_result_bind]; [|done].
    intros [-> ->]%IH. rewrite <- !app_assoc.
    by destruct temp, wind.
Qed.

Lemma horizon_features_spec (config : region_config)
    (forecasts : gmap pystr json) (effective_time : Z)
    (features features' : gmap pystr pyfloat) (suffix : pystr) (time_offset : Z) :
  horizon_features config forecasts effective_time features (suffix, time_offset)
    = Ok features' →
  ∃ code,
    code_value forecasts config (effective_time + 3600 * time_offset) = Ok code ∧
    features' =
      <[u8 "W_CODE" ++ suffix := code]>
        (<[u8 "WIND" ++ suffix :=
             mean_or_nan (town_values forecasts (avg_towns config) wind_element
                            (effective_time + 3600 * time_offset))]>
           (<[u8 "TEMP" ++ suffix :=
                mean_or_nan (town_values forecasts (avg_towns config)
                               temperature_element
                               (effective_time + 3600 * time_offset))]>
              features)).
Proof.
  unfold horizon_features, code_value.
  destruct (collect_town_values _ _ _ _ _) as [[temps winds]|e] eqn:Hcollect;
    cbn [mbind py_result_bind]; [|done].
  apply collect_town_values_spec in Hcollect as [-> ->]. cbn [app].
  destruct (code_town config) as [code_county code_town]. cbn [fst snd].
  destruct (forecasts !! code_county) as [doc|].
  - destruct (get_forecast_value doc code_town weather_code_element _)
      as [[c|]|e]; cbn [mbind py_result_bind]; [| |done].
    + destruct (py_int c) as [i|e]; cbn [mbind py_result_bind]; [|done].
      intros [= <-]. by exists i.
    + intros [= <-]. by exists FNan.
  - intros [= <-]. by exists FNan.
Qed.

(** X22. The features of a region are means over its towns: for each of the
    two horizons (the run's timestamp and twelve hours later) the
    temperature and the wind speed are the rounded mean of the values that
    the averaging towns give at that instant, a town without a value being
    left out of the mean, and NaN when no town gives one; the weather code
    is the whole part of the value of the code town. *)
Theorem features_are_town_means (cache : forecast_cache) (region : pystr)
    (config : region_config) (forecasts : gmap pystr json)
    (effective_time : Z) (features : gmap pystr pyfloat) :
  config_of region WEATHER_CONFIG = Some config →
  load_forecasts cache (forecast_files config) ∅ = Some forecasts →
  get_regional_weather_features cache region effective_time = Ok features →
  ∀ suffix time_offset, (suffix, time_offset) ∈ horizons →
    features !! (u8 "TEMP" ++ suffix) =
      Some (mean_or_nan
              (town_values forecasts (avg_towns config) temperature_element
                 (effective_time + 3600 * time_offset))) ∧
    features !! (u8 "WIND" ++ suffix) =
      Some (mean_or_nan
              (town_values forecasts (avg_towns config) wind_element
                 (effective_time + 3600 * time_offset))) ∧
    ∃ code,
      code_value forecasts config (effective_time + 3600 * time_offset) = Ok code ∧
      features !! (u8 "W_CODE" ++ suffix) = Some code.
Proof.
  intros Hconfig Hload. unfold get_regional_weather_features.
  rewrite Hconfig, Hload. unfold horizons. cbn [over_horizons].
  destruct (horizon_features config forecasts effective_time ∅ (u8 "_now", 0))
    as [features0|e] eqn:H0; cbn [mbind py_result_bind]; [|done].
  destruct (horizon_features config forecasts effective_time features0
              (u8 "_future_12h", 12)) as [features12|e] eqn:H12;
    cbn [mbind py_result_bind]; [|done].
  intros [= <-].
  apply horizon_features_spec in H0 as (code0 & Hcode0 & ->).
  apply horizon_features_spec in H12 as (code12 & Hcode12 & ->).
  intros suffix time_offset Hhorizon.
  apply elem_of_cons in Hhorizon as [[= -> ->]|Hhorizon];
    [|apply elem_of_cons in Hhorizon as [[= -> ->]|Hhorizon];
      [|by apply elem_of_nil in Hhorizon]].
  - split; [|split].
    + do 5 (rewrite lookup_insert_ne by key_ne). by rewrite lookup_insert_eq.
    + do 4 (rewrite lookup_insert_ne by key_ne). by rewrite lookup_insert_eq.
    + exists code0. split; [done|].
      do 3 (rewrite lookup_insert_ne by key_ne). by rewrite lookup_insert_eq.
  - split; [|split].
    + do 2 (rewrite lookup_insert_ne by key_ne). by rewrite lookup_insert_eq.
    + do 1 (rewrite lookup_insert_ne by key_ne). by rewrite lookup_insert_eq.
    + exists code12. split; [done|]. by rewrite lookup_insert_eq.
Qed.

(** *** The scan over incomplete and unreadable windows *)

Lemma scan_outcome (target_time : Z) (time_block : json) (rest : list json) :
  scan_time_blocks target_time (time_block :: rest) =
  match outcome_of target_time time_block with
  | Selects => Ok time_block
  | Skips => scan_time_blocks target_time rest
  | Stops e => Raise e
  end.
Proof.
  cbn [scan_time_blocks]. unfold outcome_of.
  destruct (get_case_insensitive_key time_block [u8 "startTime"; u8 "StartTime"] JNull)
    as [start_time_str|e]; cbn [mbind py_result_bind]; [|done].
  destruct (get_case_insensitive_key time_block [u8 "endTime"; u8 "EndTime"] JNull)
    as [end_time_str|e]; cbn [mbind py_result_bind]; [|done].
  destruct (negb (truthy start_time_str) || negb (truthy end_time_str)); [done|].
  destruct (to_datetime start_time_str) as [start_time|e];
    cbn [mbind py_result_bind]; [|done].
  destruct (to_datetime end_time_str) as [end_time|e];
    cbn [mbind py_result_bind]; [|done].
  by destruct (in_window start_time target_time end_time).
Qed.

Lemma scan_skipped (target_time : Z) (pre rest : list json) :
  Forall (skipped target_time) pre →
  scan_time_blocks target_time (pre ++ rest) = scan_time_blocks target_time rest.
Proof.
  induction 1 as [|b pre Hb _ IH]; [done|].
  cbn [app]. rewrite scan_outcome. unfold skipped in Hb. by rewrite Hb.
Qed.

Lemma outcome_selects (target_time : Z) (time_block : json) :
  outcome_of target_time time_block = Selects ↔ covers target_time time_block = true.
Proof.
  unfold outcome_of, covers, block_window.
  destruct (get_case_insensitive_key time_block [u8 "startTime"; u8 "StartTime"] JNull)
    as [start_time_str|e]; [|done].
  destruct (get_case_insensitive_key time_block [u8 "endTime"; u8 "EndTime"] JNull)
    as [end_time_str|e]; [|done].
  destruct (truthy start_time_str), (truthy end_time_str);
    cbn [negb orb andb]; try done.
  destruct (to_datetime start_time_str) as [[s|]|e]; try done;
    destruct (to_datetime end_time_str) as [[e'|]|e'']; try done;
    cbn [in_window].
  by destruct ((s <=? target_time) && (target_time <? e')).
Qed.

Lemma selected_block_truthy (target_time : Z) (time_block : json) :
  outcome_of target_time time_block = Selects → truthy time_block = true.
Proof.
  unfold outcome_of.
  destruct (get_case_insensitive_key time_block [u8 "startTime"; u8 "StartTime"] JNull)
    as [start_time_str|e] eqn:Hstart; [|done].
  destruct (get_case_insensitive_key time_block [u8 "endTime"; u8 "EndTime"] JNull)
    as [end_time_str|e]; [|done].
  destruct (truthy start_time_str) eqn:Htruthy; [|done].
  intros _. by eapply get_key_truthy.
Qed.

(** X21. The scan over the time windows of an element passes over a window
    whose start or end is missing or empty, or whose interval does not hold
    the instant, and it is decided by the first window that is not passed
    over: a window that holds the instant gives the value; a window whose
    timestamp cannot be read, or that is not an object, ends the lookup
    with no value (or with the exception, when it is not one of the four
    the lookup catches), even when a later window holds the instant. When
    every window is passed over, the first window gives the value. *)
Theorem lookup_scans_to_first_decisive_window (doc : json)
    (town element : pystr) (target_time : Z) (time_blocks : list json) :
  find_time_blocks doc town element = Ok (Some (JList time_blocks)) →
  (∀ pre b post,
     time_blocks = pre ++ b :: post → Forall (skipped target_time) pre →
     (covers target_time b = true →
      get_forecast_value doc town element target_time = value_of_block element b) ∧
     (∀ e, outcome_of target_time b = Stops e →
        get_forecast_value doc town element target_time =
        if caught_by_lookup e then Ok None else Raise e)) ∧
  (Forall (skipped target_time) time_blocks →
   ∃ b, head time_blocks = Some b ∧
        get_forecast_value doc town element target_time = value_of_block element b).
Proof.
  intros Hblocks.
  assert (Hbody : get_forecast_value doc town element target_time =
    try_except
      (correct_block ← select_block target_time (JList time_blocks);
       block_value element correct_block) caught_by_lookup (Ok None)).
  { unfold get_forecast_value, get_forecast_value_body. by rewrite Hblocks. }
  split.
  - intros pre b post -> Hpre. split.
    + intros Hcovers%outcome_selects. rewrite Hbody. unfold select_block.
      cbn [py_iter mbind py_result_bind].
      rewrite scan_skipped, scan_outcome, Hcovers by done.
      cbn [mbind py_result_bind].
      by rewrite (selected_block_truthy _ _ Hcovers).
    + intros e Hstops. rewrite Hbody. unfold select_block.
      cbn [py_iter mbind py_result_bind].
      rewrite scan_skipped, scan_outcome, Hstops by done. done.
  - intros Hall. destruct time_blocks as [|b0 bs].
    { by apply find_time_blocks_truthy in Hblocks. }
    exists b0. split; [done|]. rewrite Hbody. unfold select_block.
    cbn [py_iter mbind py_result_bind].
    rewrite <- (app_nil_r (b0 :: bs)) at 1.
    rewrite scan_skipped by done. done.
Qed.

(** *** The exceptions that end a run *)

Lemma lenient_bind {A B} (m : py_result A) (f : A → py_result B) :
  lenient m → (∀ a, lenient (f a)) → lenient (m ≫= f).
Proof.
  destruct m as [a|e]; cbn [mbind py_result_bind]; [|done].
  intros _ Hf. apply Hf.
Qed.

Lemma guarded_lenient {A} (P : A → Prop) (r : py_result A) :
  guarded P r → lenient r.
Proof.
  destruct r as [a|e]; [done|]. cbn [guarded lenient].
  unfold caught_or_overflow. by intros ->.
Qed.

Lemma lenient_py_in (k : pystr) (d : json) : lenient (py_in k d).
Proof. by destruct d. Qed.

Lemma lenient_py_getitem (d : json) (k : pystr) : lenient (py_getitem d k).
Proof.
  destruct d; try done. cbn [py_getitem]. by destruct (assoc_lookup k items).
Qed.

Lemma lenient_get_key (d : json) (keys : list pystr) (dflt : json) :
  lenient (get_case_insensitive_key d keys dflt).
Proof.
  induction keys as [|k keys IH]; cbn [get_case_insensitive_key]; [done|].
  apply lenient_bind; [apply lenient_py_in|].
  intros [|]; [apply lenient_py_getitem|done].
Qed.

Lemma lenient_py_first (d : json) : lenient (py_first d).
Proof. by destruct d as [| | | |[|c s]|[|v l]|]. Qed.

Lemma lenient_py_iter (d : json) : lenient (py_iter d).
Proof. by destruct d. Qed.

Lemma lenient_find_by_name (names : list pystr) (wanted : pystr) (xs : list json) :
  lenient (find_by_name names wanted xs).
Proof.
  induction xs as [|x xs IH]; cbn [find_by_name]; [done|].
  apply lenient_bind; [apply lenient_get_key|].
  intros name. by destruct (is_str wanted name).
Qed.

Lemma lenient_py_float (v : json) : lenient (py_float v).
Proof.
  destruct v; cbn [py_float]; try done.
  - by destruct (float_overflow_bound <=? Z.abs z).
  - by destruct (float_of_text s).
Qed.

Lemma lenient_float_or_first_number (v : json) :
  lenient (float_or_first_number v).
Proof.
  unfold float_or_first_number, try_except.
  pose proof (lenient_py_float v) as Hfloat.
  destruct (py_float v) as [f|e]; [done|].
  destruct (is_ValueError e); [|done].
  destruct v; try done.
  destruct (first_digit_run s) as [run|]; [apply lenient_py_float|done].
Qed.

Lemma lenient_block_value (element : pystr) (block : json) :
  lenient (block_value element block).
Proof.
  unfold block_value. destruct (truthy block); [|done].
  apply lenient_bind; [apply lenient_get_key|]. intros element_values.
  destruct (negb (truthy element_values)); [done|].
  apply lenient_bind; [apply lenient_py_first|]. intros value_dict.
  apply lenient_bind.
  { destruct (pystr_eqb element weather_code_element);
      [apply lenient_get_key|]. by destruct (_ && _). }
  intros value_str. destruct (_ && _); [|done].
  apply lenient_bind; [apply lenient_float_or_first_number|]. done.
Qed.

Lemma lenient_find_time_blocks (doc : json) (town element : pystr) :
  lenient (find_time_blocks doc town element).
Proof.
  unfold find_time_blocks.
  apply lenient_bind; [apply lenient_get_key|]. intros records.
  destruct (negb (truthy records)); [done|].
  apply lenient_bind; [apply lenient_get_key|]. intros locations_list.
  destruct (negb (truthy locations_list)); [done|].
  apply lenient_bind; [apply lenient_py_first|]. intros locations_data.
  apply lenient_bind; [apply lenient_get_key|]. intros loc.
  apply lenient_bind; [apply lenient_py_iter|]. intros locs.
  apply lenient_bind; [apply lenient_find_by_name|]. intros town_data.
  apply lenient_bind.
  { destruct (truthy town_data); [apply lenient_get_key|done]. }
  intros in_town. apply lenient_bind.
  { destruct (negb (truthy in_town)); [apply lenient_get_key|done]. }
  intros weather_element_list.
  destruct (negb (truthy weather_element_list)); [done|].
  apply lenient_bind; [apply lenient_py_iter|]. intros elements.
  apply lenient_bind; [apply lenient_find_by_name|]. intros element_data.
  destruct (negb (truthy element_data)); [done|].
  apply lenient_bind; [apply lenient_get_key|]. intros time_blocks.
  by destruct (negb (truthy time_blocks)).
Qed.

Lemma raises_only_bind {A B} (allowed : list exn) (m : py_result A)
    (f : A → py_result B) :
  raises_only allowed m → (∀ a, raises_only allowed (f a)) →
  raises_only allowed (m ≫= f).
Proof.
  destruct m as [a|e]; cbn [mbind py_result_bind]; [|done].
  intros _ Hf. apply Hf.
Qed.

Lemma raises_only_more {A} (allowed allowed' : list exn) (r : py_result A) :
  allowed ⊆ allowed' → raises_only allowed r → raises_only allowed' r.
Proof. destruct r as [a|e]; [done|]. intros Hsub He. by apply Hsub. Qed.

Lemma py_int_raises (x : pyfloat) :
  raises_only [OverflowError; ValueError] (py_int x).
Proof.
  destruct x; cbn [py_int raises_only]; [done|by left|right; by left].
Qed.

Lemma aggregate_raises (rows : list enriched_row) :
  raises_only [KeyError] (aggregate rows).
Proof. unfold aggregate. destruct (forallb _ _); [done|by left]. Qed.

Section Escapes.
(** The timestamp parser raises nothing but what the lookup catches. *)
Hypothesis to_datetime_guarded : ∀ v, guarded (fun _ => True) (to_datetime v).

Lemma lenient_scan (target_time : Z) (time_blocks : list json) :
  lenient (scan_time_blocks target_time time_blocks).
Proof.
  induction time_blocks as [|b bs IH]; cbn [scan_time_blocks]; [done|].
  apply lenient_bind; [apply lenient_get_key|]. intros start_time_str.
  apply lenient_bind; [apply lenient_get_key|]. intros end_time_str.
  destruct (_ || _); [done|].
  apply lenient_bind; [eapply guarded_lenient, to_datetime_guarded|].
  intros start_time.
  apply lenient_bind; [eapply guarded_lenient, to_datetime_guarded|].
  intros end_time. by destruct (in_window _ _ _).
Qed.

Lemma lenient_select_block (target_time : Z) (time_blocks : json) :
  lenient (select_block target_time time_blocks).
Proof.
  unfold select_block.
  apply lenient_bind; [apply lenient_py_iter|]. intros blocks.
  apply lenient_bind; [apply lenient_scan|]. intros found.
  destruct (_ && _); [apply lenient_py_first|done].
Qed.

Lemma lenient_body (doc : json) (town element : pystr) (target_time : Z) :
  lenient (get_forecast_value_body doc town element target_time).
Proof.
  unfold get_forecast_value_body.
  apply lenient_bind; [apply lenient_find_time_blocks|].
  intros [time_blocks|]; [|done].
  apply lenient_bind; [apply lenient_select_block|]. intros correct_block.
  apply lenient_block_value.
Qed.

Lemma get_forecast_value_raises (doc : json) (town element : pystr)
    (target_time : Z) :
  raises_only [OverflowError]
    (get_forecast_value doc town element target_time).
Proof.
  unfold get_forecast_value, try_except.
  pose proof (lenient_body doc town element target_time) as Hbody.
  destruct (get_forecast_value_body doc town element target_time) as [r|e];
    [done|].
  destruct (caught_by_lookup e) eqn:Hcaught; [done|].
  cbn [lenient raises_only] in *. unfold caught_or_overflow in Hbody.
  rewrite Hcaught in Hbody. destruct e; try done. by left.
Qed.

Lemma collect_town_values_raises (forecasts : gmap pystr json)
    (towns : list (pystr * pystr)) (target_time : Z) (temps winds : list pyfloat) :
  raises_only [OverflowError]
    (collect_town_values forecasts towns target_time temps winds).
Proof.
  revert temps winds.
  induction towns as [|[county town] towns IH]; intros temps winds;
    cbn [collect_town_values]; [done|].
  destruct (forecasts !! county) as [doc|]; [|apply IH].
  apply raises_only_bind; [apply get_forecast_value_raises|]. intros temp.
  apply raises_only_bind; [apply get_forecast_value_raises|]. intros wind.
  apply IH.
Qed.

Lemma overflow_among_two :
  [OverflowError] ⊆ [OverflowError; ValueError].
Proof. intros e ->%list_elem_of_singleton. by left. Qed.

Lemma horizon_features_raises (config : region_config)
    (forecasts : gmap pystr json) (effective_time : Z)
    (features : gmap pystr pyfloat) (horizon : pystr * Z) :
  raises_only [OverflowError; ValueError]
    (horizon_features config forecasts effective_time features horizon).
Proof.
  unfold horizon_features. destruct horizon as [suffix time_offset].
  apply raises_only_bind.
  { eapply raises_only_more;
      [apply overflow_among_two|apply collect_town_values_raises]. }
  intros [temps winds]. destruct (code_town config) as [code_county code_town].
  destruct (forecasts !! code_county) as [doc|]; [|done].
  apply raises_only_bind.
  { eapply raises_only_more;
      [apply overflow_among_two|apply get_forecast_value_raises]. }
  intros [c|]; [|done].
  apply raises_only_bind; [apply py_int_raises|]. done.
Qed.

Lemma get_regional_weather_features_raises (cache : forecast_cache)
    (region : pystr) (effective_time : Z) :
  raises_only [OverflowError; ValueError]
    (get_regional_weather_features cache region effective_time).
Proof.
  unfold get_regional_weather_features.
  destruct (config_of region WEATHER_CONFIG) as [config|]; [|done].
  destruct (load_forecasts cache (forecast_files config) ∅) as [forecasts|];
    [|done].
  generalize (∅ : gmap pystr pyfloat). generalize horizons.
  intros hs. induction hs as [|h hs IH]; intros features;
    cbn [over_horizons]; [done|].
  apply raises_only_bind; [apply horizon_features_raises|]. intros features'.
  apply IH.
Qed.

Lemma weather_for_regions_raises (cache : forecast_cache) (effective_time : Z)
    (regions : list pystr) (acc : gmap pystr (gmap pystr pyfloat)) :
  raises_only [OverflowError; ValueError]
    (weather_for_regions cache effective_time regions acc).
Proof.
  revert acc. induction regions as [|region regions IH]; intros acc;
    cbn [weather_for_regions]; [done|].
  apply raises_only_bind; [apply get_regional_weather_features_raises|].
  intros features. apply IH.
Qed.

End Escapes.

(** X23. When the timestamp parser raises nothing but what the lookup
    catches, [get_forecast_value] lets through [OverflowError] only (a
    forecast value that is an integer beyond the range of a float), and
    [get_regional_weather_features] lets through [OverflowError] and
    [ValueError] only (also a weather code that is infinite or NaN). The
    aggregation raises [KeyError] only. *)
Theorem exceptions_of_the_enrichment (doc : json) (town element : pystr)
    (target_time : Z) (cache : forecast_cache) (region : pystr)
    (effective_time : Z) (rows : list enriched_row) :
  (∀ v, guarded (fun _ => True) (to_datetime v)) →
  raises_only [OverflowError]
    (get_forecast_value doc town element target_time) ∧
  raises_only [OverflowError; ValueError]
    (get_regional_weather_features cache region effective_time) ∧
  raises_only [KeyError] (aggregate rows).
Proof.
  intros Hparser. split; [|split].
  - by apply get_forecast_value_raises.
  - by apply get_regional_weather_features_raises.
  - apply aggregate_raises.
Qed.

(** X24. A run whose feed gives no record changes the demand table only:
    it ends before the state file, the logs, the unit details and the
    tables are touched. *)
Theorem run_without_records (i : run_input) (w w' : world) :
  run_pipeline i w = (w', Ok NoRecords) ↔
  ∃ live_data demand,
    live_fetch i = Some live_data ∧
    fetch_and_save_demand_data (demand_fetch i) (effective_time_of (run_time i))
      (final_dir w) (demand_data w) = Ok demand ∧
    parse_feed (effective_time_of (run_time i)) live_data = [] ∧
    w' = with_demand w demand.
Proof.
  split.
  - destruct (live_fetch i) as [live_data|] eqn:Hfetch;
      [|by rewrite run_pipeline_fetch_failed].
    destruct (fetch_and_save_demand_data (demand_fetch i)
                (effective_time_of (run_time i)) (final_dir w)
              (demand_data w))
      as [demand|e] eqn:Hdemand.
    + destruct (parse_feed (effective_time_of (run_time i)) live_data)
        as [|r records] eqn:Hparse.
      * unfold run_pipeline. rewrite Hfetch, Hdemand, Hparse.
        intros [= <-]. by exists live_data, demand.
      * rewrite (run_pipeline_after_records i w live_data demand)
          by (done || by rewrite Hparse).
        destruct (weather_for_regions _ _ _ _) as [regional|e]; [|done].
        by destruct (aggregate _).
    + unfold run_pipeline. by rewrite Hfetch, Hdemand.
  - intros (live_data & demand & Hfetch & Hdemand & Hparse & ->).
    unfold run_pipeline. by rewrite Hfetch, Hdemand, Hparse.
Qed.

(** *** Regions without a weather profile *)

Lemma config_of_None (region : pystr) :
  config_of region WEATHER_CONFIG = None ↔ region ∉ profiled_regions.
Proof.
  unfold profiled_regions. generalize WEATHER_CONFIG. intros table.
  induction table as [|[r c] table IH]; cbn [config_of List.map fst].
  - split; [intros _ ?%elem_of_nil|]; done.
  - rewrite not_elem_of_cons, <- IH. unfold pystr_eqb.
    case_bool_decide as Hr; [|naive_solver]. split; [done|]. by intros [? _].
Qed.

(** X25. A region without a weather profile (Other, Unknown, or a region
    that only the static map names) gets the empty feature set, and the
    rows of such a region are aggregated with every weather column at NaN:
    the missing weather does not keep them out of the aggregated rows. *)
Theorem regions_without_profile (cache : forecast_cache) (effective_time : Z)
    (merged : list unit_row) (regional : gmap pystr (gmap pystr pyfloat))
    (aggregated : list aggregated_row) :
  weather_for_regions cache effective_time
    (py_unique (List.map REGION merged)) ∅ = Ok regional →
  aggregate (enrich regional merged) = Ok aggregated →
  (∀ region, region ∉ profiled_regions →
     get_regional_weather_features cache region effective_time = Ok ∅) ∧
  (∀ row, row ∈ merged →
     ∃ a, a ∈ aggregated ∧
          agg_REGION a = REGION row ∧
          agg_FUEL_TYPE a = FUEL_TYPE (unit_record row) ∧
          (REGION row ∉ profiled_regions → agg_weather a = no_weather)).
Proof.
  intros Hweather Hagg.
  assert (Hnone : ∀ region, region ∉ profiled_regions →
    get_regional_weather_features cache region effective_time = Ok ∅).
  { intros region Hregion%config_of_None.
    unfold get_regional_weather_features. by rewrite Hregion. }
  split; [exact Hnone|]. intros row Hrow.
  set (r := {| e_DATETIME := DATETIME (unit_record row);
               e_REGION := REGION row;
               e_FUEL_TYPE := FUEL_TYPE (unit_record row);
               e_NET_P := NET_P (unit_record row);
               e_weather := default ∅ (regional !! REGION row) |}).
  assert (Hr : r ∈ enrich regional merged).
  { unfold enrich. apply list_elem_of_fmap. by exists row. }
  exists (aggregate_group (key_of r) (enrich regional merged)).
  split; [|split; [done|split; [done|]]].
  - rewrite (aggregate_rows _ _ Hagg). apply list_elem_of_fmap.
    exists (key_of r). split; [done|]. apply elem_of_sorted_keys.
    change (key_of r ∈ key_of <$> enrich regional merged).
    by apply list_elem_of_fmap_2.
  - intros Hregion. cbn [agg_weather aggregate_group]. unfold no_weather.
    apply List.map_ext. intros c. f_equal.
    apply first_value_of_constant.
    + intros Hnil.
      assert (Hin : r ∈ rows_of_key (key_of r) (enrich regional merged)).
      { apply list_elem_of_In, filter_In. split; [by apply list_elem_of_In|].
        by apply bool_decide_eq_true. }
      rewrite Hnil in Hin. by apply elem_of_nil in Hin.
    + intros r' Hr'.
      apply list_elem_of_In, filter_In in Hr' as [Hr' Hkey%bool_decide_eq_true].
      apply list_elem_of_In in Hr'.
      pose proof (enriched_weather _ _ _ _ _ Hweather Hr') as Hfeatures.
      assert (Hsame : e_REGION r' = REGION row) by (by injection Hkey).
      rewrite Hsame, (Hnone _ Hregion) in Hfeatures.
      injection Hfeatures as Hempty. unfold column_value.
      by rewrite <- Hempty, lookup_empty.
Qed.

(** *** The rows of the tables after a run *)

Lemma effective_time_slot (run_time : Z) : effective_time_of run_time mod 600 = 0.
Proof.
  unfold effective_time_of.
  rewrite (Z.div_mod run_time 600) at 1 by lia.
  replace (600 * (run_time / 600) + run_time mod 600 - run_time mod 600)
    with (run_time / 600 * 600) by lia.
  apply Z.mod_mul. lia.
Qed.

(** X26. After a successful run every row of every table was in that table
    before the run, or is a row of the run: then it is in the table file of
    its own region and fuel type, and it carries the run's timestamp, which
    is the start of a ten-minute slot. *)
Theorem tables_hold_their_own_rows (i : run_input) (w w' : world) :
  run_pipeline i w = (w', Ok Successful) →
  ∀ path table row,
    final_data w' !! path = Some table → row ∈ table →
    row ∈ default [] (final_data w !! path) ∨
    (path_of row = path ∧
     agg_DATETIME row = effective_time_of (run_time i) ∧
     agg_DATETIME row mod 600 = 0).
Proof.
  intros Hrun path table row Htable Hrow.
  destruct (run_pipeline_world i w w' Hrun)
    as (live_data & demand & regional & aggregated &
        _ & _ & _ & _ & Hagg & ->).
  cbn [files_after final_data] in Htable.
  assert (Hrows : ∀ r, r ∈ enrich regional (merged_frame i live_data) →
                       e_DATETIME r = effective_time_of (run_time i))
    by (intros r; apply enriched_at_run_time).
  destruct (persist_table _ _ _ (final_data w) path Hagg Hrows)
    as [(a & Ha & Hpath & Hwritten)|[_ Hsame]].
  - rewrite Hwritten in Htable. injection Htable as <-.
    apply elem_of_app in Hrow as [Hold|Hnew%list_elem_of_singleton].
    + left. by apply list_elem_of_In, filter_In in Hold as [?%list_elem_of_In _].
    + subst row. right. split; [done|].
      rewrite (aggregated_rows_at _ _ _ Hagg Hrows a Ha).
      split; [done|apply effective_time_slot].
  - left. rewrite Hsame in Htable. by rewrite Htable.
Qed.

(** *** The lookup in a document of the weather service *)

Lemma truthy_dict (item : pystr * json) (items : list (pystr * json)) :
  truthy (JDict (item :: items)) = true.
Proof. cbn [truthy]. by rewrite bool_decide_false. Qed.

Lemma truthy_list (v : json) (l : list json) : truthy (JList (v :: l)) = true.
Proof. cbn [truthy]. by rewrite bool_decide_false. Qed.

Lemma truthy_map {A} (f : A → json) (x : A) (l : list A) :
  truthy (JList (List.map f (x :: l))) = true.
Proof. apply truthy_list. Qed.

Lemma find_town (town : pystr) (towns : list (pystr * list (pystr * list json))) :
  find_by_name [u8 "locationName"; u8 "LocationName"] town
    (List.map forecast_town towns) =
  Ok (default JNull
        (forecast_town <$> List.find (fun entry => pystr_eqb entry.1 town) towns)).
Proof.
  induction towns as [|t towns IH]; [done|].
  cbn [List.map find_by_name List.find].
  change (get_case_insensitive_key (forecast_town t)
            [u8 "locationName"; u8 "LocationName"] JNull) with (Ok (JStr t.1)).
  cbn [mbind py_result_bind is_str]. by destruct (pystr_eqb t.1 town).
Qed.

Lemma find_element (element : pystr) (elements : list (pystr * list json)) :
  find_by_name [u8 "elementName"; u8 "ElementName"] element
    (List.map forecast_element elements) =
  Ok (default JNull
        (forecast_element <$>
           List.find (fun entry => pystr_eqb entry.1 element) elements)).
Proof.
  induction elements as [|e elements IH]; [done|].
  cbn [List.map find_by_name List.find].
  change (get_case_insensitive_key (forecast_element e)
            [u8 "elementName"; u8 "ElementName"] JNull) with (Ok (JStr e.1)).
  cbn [mbind py_result_bind is_str]. by destruct (pystr_eqb e.1 element).
Qed.

(** X27. In a document that holds the fields the lookup reads, under the
    names the weather service writes, the lookup finds the time windows of the first town of the name asked for and, in
    that town, of the first element of the name asked for; it finds none
    when the town or the element is not there, or when the element has no
    window. *)
Theorem lookup_in_built_document
    (towns : list (pystr * list (pystr * list json))) (town element : pystr) :
  find_time_blocks (forecast_document towns) town element =
  Ok (match first_named town towns with
      | Some elements =>
          match first_named element elements with
          | Some (b :: bs) => Some (JList (b :: bs))
          | _ => None
          end
      | None => None
      end).
Proof.
  unfold find_time_blocks, forecast_document, first_named.
  set (locations_data :=
         JDict [(u8 "Location", JList (List.map forecast_town towns))]).
  set (records := JDict [(u8 "Locations", JList [locations_data])]).
  change (get_case_insensitive_key (JDict [(u8 "records", records)])
            [u8 "records"; u8 "Records"] JNull) with (Ok records).
  cbn [mbind py_result_bind]. unfold records at 1. rewrite truthy_dict.
  cbn [negb].
  change (get_case_insensitive_key records [u8 "locations"; u8 "Locations"] JNull)
    with (Ok (JList [locations_data])).
  cbn [mbind py_result_bind py_first]. rewrite truthy_list. cbn [negb].
  change (get_case_insensitive_key locations_data
            [u8 "location"; u8 "Location"] JNull)
    with (Ok (JList (List.map forecast_town towns))).
  cbn [mbind py_result_bind].
  assert (Hlocs :
    py_iter (if truthy (JList (List.map forecast_town towns))
             then JList (List.map forecast_town towns) else JList []) =
    Ok (List.map forecast_town towns)).
  { destruct towns as [|t towns]; [done|].
    cbn [List.map]. by rewrite truthy_list. }
  rewrite Hlocs. cbn [mbind py_result_bind]. rewrite find_town.
  cbn [mbind py_result_bind].
  change (get_case_insensitive_key locations_data
            [u8 "weatherElement"; u8 "WeatherElement"] JNull) with (Ok JNull).
  destruct (List.find (fun entry => pystr_eqb entry.1 town) towns)
    as [[name elements]|];
    cbn [fmap option_fmap option_map default from_option id snd]; [|done].
  unfold forecast_town at 1. rewrite truthy_dict.
  change (get_case_insensitive_key (forecast_town (name, elements))
            [u8 "weatherElement"; u8 "WeatherElement"] JNull)
    with (Ok (JList (List.map forecast_element elements))).
  cbn [mbind py_result_bind].
  destruct elements as [|e0 elements]; [done|].
  rewrite truthy_map. cbn [negb mbind py_result_bind].
  rewrite truthy_map. cbn [negb mbind py_result_bind py_iter].
  rewrite find_element. cbn [mbind py_result_bind].
  destruct (List.find (fun entry => pystr_eqb entry.1 element) (e0 :: elements))
    as [[ename blocks]|];
    cbn [fmap option_fmap option_map default from_option id snd]; [|done].
  unfold forecast_element at 1. rewrite truthy_dict. cbn [negb].
  change (get_case_insensitive_key (forecast_element (ename, blocks))
            [u8 "time"; u8 "Time"] (JList [])) with (Ok (JList blocks)).
  cbn [mbind py_result_bind].
  destruct blocks as [|b bs]; [done|]. by rewrite truthy_list.
Qed.





End Pipeline.

(** ** The properties on the sample inputs *)

(** The diff of the specification's scenario. *)
Lemma unit_diff_is_set_difference_witness :
  unit_diff {[u8 "B"; u8 "C"]} {[u8 "A"; u8 "B"]} = ({[u8 "C"]}, {[u8 "A"]}).
Proof.
  apply (proj2 (proj2 unit_diff_is_set_difference)); vm_compute; congruence.
Defined.


(** The row of the specification's scenario gives a record. *)
Lemma feed_row_filter_witness :
  is_Some (parse_row ascii_digits_only half_past_nine linkou_row).
Proof.
  apply (proj1 (feed_row_filter ascii_digits_only half_past_nine) linkou_row).
  split; [simpl; lia|].
  exists (u8 "<b>燃煤</b>"), (u8 "林口#1"), (u8 "1,234.5"), (u8 "燃煤").
  repeat split; try reflexivity. vm_compute. discriminate.
Defined.

(** The record of that row: 1234.5 MW of coal at 林口#1. *)
Example linkou_record :
  ∃ r, parse_row ascii_digits_only half_past_nine linkou_row = Some r ∧
       UNIT_NAME r = u8 "林口#1" ∧ FUEL_TYPE r = u8 "燃煤(Coal)" ∧
       NET_P r = FFin (Q2Qc (2469 # 2)) ∧
       infer_region_from_name (UNIT_NAME r) = Some (u8 "North").
Proof.
  eexists. split; [vm_compute; reflexivity|]. repeat split.
  cbn [NET_P]. f_equal. apply Qc_is_canon. reflexivity.
Qed.

(** The pattern lets a final newline pass, and [float] reads the number
    before it; the power strings N/A and 1e5 are refused. *)
Example power_strings :
  decimal_match ascii_digits_only (u8 "12" ++ [10%N]) = true ∧
  decimal_match ascii_digits_only (u8 "-0.5") = true ∧
  decimal_match ascii_digits_only (u8 "N/A") = false ∧
  decimal_match ascii_digits_only (u8 "1e5") = false ∧
  decimal_match ascii_digits_only (u8 "12.") = false.
Proof. repeat split. Qed.

(** The two groups of the sample frame carry the 820 MW of its three
    rows. *)
Lemma aggregation_conserves_power_witness :
  ∃ aggregated,
    aggregate sample_frame = Ok aggregated ∧
    aggregated_power_at half_past_nine aggregated =
    record_power_at half_past_nine sample_frame.
Proof.
  eexists. split; [vm_compute; reflexivity|].
  apply (proj2 (aggregation_conserves_power sample_frame _ half_past_nine
                  ltac:(vm_compute; reflexivity))).
  intros r Hr _. unfold sample_frame in Hr.
  repeat (apply elem_of_cons in Hr as [->|Hr]);
    [..|by apply elem_of_nil in Hr]; vm_compute; reflexivity.
Defined.

(** C4 fails as it is stated: the two units of coal are aggregated to
    1320.3000000000002, the binary64 number nearest to their sum, and the
    aggregated rows carry [2 ^ -43] more than the records do. The totals
    differ as well when they are added in binary64, each in the order of
    its frame: 1386.7000000000003 over the aggregated rows, 1386.7 over the
    records. *)
Lemma aggregation_rounds_power :
  ∃ gas coal,
    aggregate regrouped_frame = Ok [gas; coal] ∧
    agg_NET_P gas = FFin (Q2Qc (2336242306698445 # 35184372088832)) ∧
    agg_NET_P coal = FFin (Q2Qc (1451685202152653 # 1099511627776)) ∧
    aggregated_power_at half_past_nine [gas; coal] =
      Q2Qc (48790168775583341 # 35184372088832) ∧
    record_power_at half_past_nine regrouped_frame =
      Q2Qc (48790168775583337 # 35184372088832) ∧
    aggregated_power_at half_past_nine [gas; coal] ≠
      record_power_at half_past_nine regrouped_frame ∧
    group_sum (List.map agg_NET_P [gas; coal]) =
      FFin (Q2Qc (3049385548473959 # 2199023255552)) ∧
    group_sum (List.map e_NET_P regrouped_frame) =
      FFin (Q2Qc (6098771096947917 # 4398046511104)).
Proof.
  do 2 eexists. split; [vm_compute; reflexivity|].
  split; [|split; [|split; [|split; [|split; [|split]]]]].
  - cbn [agg_NET_P]. f_equal; try (apply Qc_is_canon; reflexivity).
  - cbn [agg_NET_P]. f_equal; try (apply Qc_is_canon; reflexivity).
  - apply Qc_is_canon. reflexivity.
  - apply Qc_is_canon. reflexivity.
  - intros Hsame. apply (f_equal (fun q : Qc => Qnum q)) in Hsame.
    vm_compute in Hsame. discriminate Hsame.
  - vm_compute. f_equal; try (apply Qc_is_canon; reflexivity).
  - vm_compute. f_equal; try (apply Qc_is_canon; reflexivity).
Qed.

(** Persisting the sample frame twice is persisting it once. *)
Lemma persistence_is_idempotent_witness :
  ∃ aggregated,
    aggregate sample_frame = Ok aggregated ∧
    persist half_past_nine aggregated (persist half_past_nine aggregated ∅) =
    persist half_past_nine aggregated ∅.
Proof.
  eexists. split; [vm_compute; reflexivity|].
  apply (proj1 (persistence_is_idempotent ascii_digits_only iso_to_datetime
                  exact_mean) sample_frame _ half_past_nine ∅).
  - vm_compute. reflexivity.
  - intros r Hr. unfold sample_frame in Hr.
    rewrite !elem_of_cons, elem_of_nil in Hr.
    destruct Hr as [->|[->|[->|[]]]]; reflexivity.
Defined.

(** Without a static map the unit of 林口 is in the north. *)
Lemma region_resolution_witness :
  ∃ region,
    assign_regions None [sample_record "林口#1" 800] =
      [{| unit_record := sample_record "林口#1" 800; REGION := region |}] ∧
    region = u8 "North" ∧ region ∈ known_regions.
Proof.
  destruct (proj1 (region_resolution None (sample_record "林口#1" 800)))
    as (region & Hrows & Hregion & Hknown).
  - reflexivity.
  - exists region. split; [exact Hrows|]. split; [|exact Hknown].
    rewrite Hregion. reflexivity.
Defined.

(** C5 fails as it is stated: a static map that names another region gives
    the unit that region, which is none of the seven. *)
Lemma region_outside_the_seven :
  assign_regions (Some west_map) [sample_record "X#1" 10] =
    [{| unit_record := sample_record "X#1" 10; REGION := u8 "West" |}] ∧
  u8 "West" ∉ known_regions.
Proof.
  split; [reflexivity|]. unfold known_regions.
  rewrite !elem_of_cons, elem_of_nil. vm_compute. intuition discriminate.
Qed.

(** Two rows of the static map for one unit give the unit two rows and two
    regions. *)
Example two_regions_for_one_unit :
  List.map REGION (assign_regions (Some double_map) [sample_record "X#1" 10]) =
    [u8 "North"; u8 "South"].
Proof. reflexivity. Qed.


(** A run whose fetch fails changes no file. *)
Lemma fetch_failure_atomicity_witness :
  run_pipeline ascii_digits_only iso_to_datetime exact_mean failed_run empty_world =
    (empty_world, Ok FetchFailed).
Proof.
  apply (proj1 (fetch_failure_atomicity ascii_digits_only iso_to_datetime
                  exact_mean failed_run empty_world)).
  reflexivity.
Defined.

(** C7 fails as it is stated: a run whose fetch succeeds and whose forecast
    gives a weather code that reads NaN is ended by the [ValueError] of
    [int]; by then it has rewritten the state file and appended to the
    fluctuation log, and it has written no table. *)
Lemma run_neither_complete_nor_unchanged :
  let result :=
    run_pipeline ascii_digits_only iso_to_datetime exact_mean
      (liwu_run (hualien_cache hualien_nan_code)) empty_world in
  result.2 = Raise ValueError ∧
  state_file empty_world = StateAbsent ∧
  state_file result.1 = StateUnits [u8 "立霧#1"] ∧
  length (fluctuation_log empty_world) = 0%nat ∧
  length (fluctuation_log result.1) = 1%nat ∧
  final_data result.1 = ∅.
Proof. vm_compute. repeat split. Qed.


(** With an empty forecast cache no row has the weather columns, and the
    same run is ended by the [KeyError] of the aggregation. *)
Example run_without_forecasts :
  let result :=
    run_pipeline ascii_digits_only iso_to_datetime exact_mean
      (liwu_run empty_cache) empty_world in
  result.2 = Raise KeyError ∧
  state_file result.1 = StateUnits [u8 "立霧#1"].
Proof. vm_compute. repeat split. Qed.

(** With the forecast of Hualien the run completes and writes one row. *)
Example run_with_forecast :
  let result :=
    run_pipeline ascii_digits_only iso_to_datetime exact_mean
      (liwu_run (hualien_cache hualien_forecast)) empty_world in
  result.2 = Ok Successful ∧
  ∃ row,
    final_data result.1 !! (u8 "East", u8 "East_水力.csv") = Some [row] ∧
    agg_NET_P row = FFin (Q2Qc (4559894622712627 # 281474976710656)).
Proof.
  vm_compute. split; [reflexivity|]. eexists. split; [reflexivity|].
  f_equal; try (apply Qc_is_canon; reflexivity).
Qed.

Lemma iso_to_datetime_guarded (v : json) :
  guarded (fun _ => True) (iso_to_datetime v).
Proof.
  destruct v; try reflexivity. simpl. destruct (iso_instant s); reflexivity.
Defined.

(** The lookup returns on the sample forecast. *)
Lemma forecast_lookup_total_witness :
  ∃ result,
    get_forecast_value ascii_digits_only iso_to_datetime linkou_forecast
      (u8 "林口區") (u8 "平均溫度") half_past_nine = Ok result.
Proof.
  apply forecast_lookup_total.
  - exact iso_to_datetime_guarded.
  - vm_compute. reflexivity.
Defined.

(** C1 fails as it is stated: a value that reads NaN is returned as the
    float NaN, which is neither a finite float nor the missing marker; and
    a value that is an integer beyond the range of a double makes [float]
    raise [OverflowError], which the lookup does not catch. *)
Lemma forecast_lookup_nan_or_overflow :
  get_forecast_value ascii_digits_only iso_to_datetime nan_forecast
    (u8 "林口區") (u8 "平均溫度") half_past_nine = Ok (Some FNan) ∧
  is_finite FNan = false ∧
  ints_in_range huge_forecast = false ∧
  get_forecast_value ascii_digits_only iso_to_datetime huge_forecast
    (u8 "林口區") (u8 "平均溫度") half_past_nine = Raise OverflowError.
Proof. repeat split; vm_compute; reflexivity. Qed.

(** The scenario of the specification: one window [08:00, 11:00) with
    temperature 27.5; the lookup gives 27.5 at 09:30, inside the window, and
    at 23:00, outside every window. *)
Lemma forecast_window_selection_witness :
  get_forecast_value ascii_digits_only iso_to_datetime linkou_forecast
    (u8 "林口區") (u8 "平均溫度") half_past_nine = Ok (Some (FFin (Q2Qc (55 # 2)))) ∧
  get_forecast_value ascii_digits_only iso_to_datetime linkou_forecast
    (u8 "林口區") (u8 "平均溫度") eleven_pm = Ok (Some (FFin (Q2Qc (55 # 2)))).
Proof.
  set (block := morning_window (jobj [("Temperature", jstr "27.5")]%string)).
  assert (Hblocks :
    find_time_blocks linkou_forecast (u8 "林口區") (u8 "平均溫度") =
    Ok (Some (JList [block]))) by reflexivity.
  assert (Hwindows :
    Forall (fun b => is_Some (block_window iso_to_datetime b)) [block]).
  { repeat constructor. vm_compute. eauto. }
  assert (Hvalue :
    value_of_block ascii_digits_only (u8 "平均溫度") block =
    Ok (Some (FFin (Q2Qc (55 # 2))))).
  { vm_compute. do 2 f_equal. f_equal. apply Qc_is_canon. reflexivity. }
  destruct (forecast_window_selection ascii_digits_only iso_to_datetime
              linkou_forecast (u8 "林口區") (u8 "平均溫度") half_past_nine
              [block] Hblocks Hwindows) as (Hinside & _ & _).
  destruct (forecast_window_selection ascii_digits_only iso_to_datetime
              linkou_forecast (u8 "林口區") (u8 "平均溫度") eleven_pm
              [block] Hblocks Hwindows) as (_ & Houtside & _).
  split.
  - rewrite (Hinside 0%nat block); [exact Hvalue|reflexivity|reflexivity|].
    intros j b' Hj. lia.
  - destruct Houtside as (b & Hhead & ->).
    + intros b Hb. apply list_elem_of_singleton in Hb as ->. reflexivity.
    + injection Hhead as <-. exact Hvalue.
Defined.

(** The table of coal is named by the label, without the remark. *)
Lemma remark_is_dropped_from_path_witness :
  sanitize_name (with_remark (u8 "燃煤") (u8 "Coal")) = sanitize_name (u8 "燃煤") ∧
  ∀ region,
    table_path region (with_remark (u8 "燃煤") (u8 "Coal")) =
    table_path region (u8 "燃煤").
Proof.
  apply remark_is_dropped_from_path;
    apply (bool_decide_unpack _); vm_compute; exact I.
Defined.

(** The text -5C reads as 5: the sign before the digits is lost. *)
Lemma first_number_fallback_witness :
  float_or_first_number ascii_digits_only (JStr (u8 "-5C")) =
  Ok (decimal_float false
        (digits_to_Z (digit_values ascii_digits_only (u8 "5"))) 0).
Proof.
  assert (Hfloat : float_of_text ascii_digits_only (u8 "-5C") = None)
    by (vm_compute; reflexivity).
  apply (proj1 (first_number_fallback ascii_digits_only (u8 "-5C") Hfloat)
           (u8 "-") (u8 "5") (u8 "C")).
  - reflexivity.
  - repeat constructor.
  - vm_compute. discriminate.
  - repeat constructor.
  - reflexivity.
Defined.

(** The feature set of the east, with the forecast of Hualien. *)
Lemma feature_set_shape_witness :
  ∃ features,
    get_regional_weather_features ascii_digits_only iso_to_datetime exact_mean
      (hualien_cache hualien_forecast) (u8 "East") half_past_nine = Ok features ∧
    (features = ∅ ∨
     ((∀ c, is_Some (features !! c) ↔ c ∈ weather_columns) ∧
      (∃ code, features !! u8 "W_CODE_now" = Some code ∧ whole_or_nan code) ∧
      (∃ code,
         features !! u8 "W_CODE_future_12h" = Some code ∧ whole_or_nan code))).
Proof.
  destruct (get_regional_weather_features ascii_digits_only iso_to_datetime
              exact_mean (hualien_cache hualien_forecast) (u8 "East")
              half_past_nine) as [features|e] eqn:Hfeatures.
  - exists features. split; [reflexivity|].
    exact (feature_set_shape ascii_digits_only iso_to_datetime exact_mean
             _ _ _ _ Hfeatures).
  - vm_compute in Hfeatures. discriminate Hfeatures.
Defined.

(** The town of Hualien finds the document of its county. *)
Lemma every_town_has_its_forecast_witness :
  ∃ doc,
    hualien_cache hualien_forecast (u8 "花蓮縣" ++ u8 "_forecast.json") = Some doc ∧
    ({[u8 "花蓮縣" := hualien_forecast]} : gmap pystr json) !! u8 "花蓮縣" = Some doc.
Proof.
  apply (every_town_has_its_forecast (hualien_cache hualien_forecast)
           (u8 "East") east_config {[u8 "花蓮縣" := hualien_forecast]}
           eq_refl eq_refl (u8 "花蓮縣") (u8 "花蓮市")).
  by left.
Defined.

(** The record of the row of 林口 is clean. *)
Lemma feed_records_are_clean_witness :
  ∃ r,
    r ∈ parse_feed ascii_digits_only half_past_nine [linkou_row] ∧
    DATETIME r = half_past_nine ∧
    UNIT_NAME r ≠ [] ∧ trimmed (UNIT_NAME r) ∧
    py_contains subtotal_marker (UNIT_NAME r) = false ∧
    py_contains load_marker (FUEL_TYPE r) = false.
Proof.
  destruct (parse_feed ascii_digits_only half_past_nine [linkou_row])
    as [|r records] eqn:Hfeed.
  - vm_compute in Hfeed. discriminate Hfeed.
  - exists r. split; [by left|].
    apply (feed_records_are_clean ascii_digits_only half_past_nine [linkou_row]).
    rewrite Hfeed. by left.
Defined.

(** The run on the feed of 立霧 stores the one row it has aggregated, with
    the power it read. *)
Lemma run_conserves_power_witness :
  let i := liwu_run (hualien_cache hualien_forecast) in
  let w' :=
    (run_pipeline ascii_digits_only iso_to_datetime exact_mean i empty_world).1 in
  ∃ live_data regional aggregated,
    live_fetch i = Some live_data ∧
    aggregate (enrich regional (merged_frame ascii_digits_only i live_data)) =
      Ok aggregated ∧
    ((∀ a b, a ∈ aggregated → b ∈ aggregated → path_of a = path_of b → a = b) →
     ∀ a, a ∈ aggregated →
       ∃ table,
         final_data w' !! path_of a = Some table ∧
         List.filter (is_at (effective_time_of (run_time i))) table = [a]) ∧
    ((∀ a, a ∈ aggregated →
        exactly_added 0
          (List.map e_NET_P
             (rows_of_key (agg_key a)
                (enrich regional (merged_frame ascii_digits_only i live_data)))) =
        true) →
     sum_of (fun a => rational (agg_NET_P a)) aggregated =
     sum_of (fun r => rational (NET_P r))
       (parse_feed ascii_digits_only (effective_time_of (run_time i)) live_data)).
Proof.
  apply (run_conserves_power ascii_digits_only iso_to_datetime exact_mean
           (liwu_run (hualien_cache hualien_forecast)) empty_world).
  - vm_compute. reflexivity.
  - intros rows Hrows. discriminate Hrows.
Defined.

(** The first run in a fresh directory, with a demand answer that gives a
    load, writes nothing. *)
Lemma demand_row_needs_the_directory_witness :
  run_pipeline ascii_digits_only iso_to_datetime exact_mean demand_run
    empty_world = (empty_world, Raise OSError) ∧
  (∀ i' w',
     run_pipeline ascii_digits_only iso_to_datetime exact_mean i' empty_world =
       (w', Ok Successful) →
     final_dir w' = true).
Proof.
  apply (demand_row_needs_the_directory ascii_digits_only iso_to_datetime
           exact_mean demand_run empty_world liwu_feed
           (default FNan (float_of_text ascii_digits_only (u8 "28500.5")))).
  - reflexivity.
  - reflexivity.
  - vm_compute. reflexivity.
Defined.

(** The sample frame gives two rows, one for each of its groups. *)
Lemma one_row_per_group_witness :
  ∃ aggregated,
    aggregate sample_frame = Ok aggregated ∧
    NoDup (List.map agg_key aggregated) ∧
    (∀ k, k ∈ List.map agg_key aggregated ↔
          ∃ r, r ∈ sample_frame ∧ key_of r = k) ∧
    Sorted key_le (List.map agg_key aggregated) ∧
    (∀ a, a ∈ aggregated →
       agg_NET_P a =
         group_sum (List.map e_NET_P (rows_of_key (agg_key a) sample_frame)) ∧
       (exactly_added 0
          (List.map e_NET_P (rows_of_key (agg_key a) sample_frame)) = true →
        agg_NET_P a =
          FFin (sum_of (fun r => rational (e_NET_P r))
                  (rows_of_key (agg_key a) sample_frame)))).
Proof.
  eexists. split; [vm_compute; reflexivity|].
  apply one_row_per_group. vm_compute. reflexivity.
Defined.

(** The row of the east carries the features of the east. *)
Lemma aggregated_weather_is_regional_witness :
  ∃ regional aggregated,
    aggregate
      (enrich regional
         (merged_frame ascii_digits_only
            (liwu_run (hualien_cache hualien_forecast)) liwu_feed)) =
      Ok aggregated ∧
    ∀ a, a ∈ aggregated →
      ∃ features,
        get_regional_weather_features ascii_digits_only iso_to_datetime
          exact_mean (hualien_cache hualien_forecast) (agg_REGION a)
          half_past_nine = Ok features ∧
        agg_weather a =
          List.map (fun c => (c, default FNan (features !! c))) weather_columns.
Proof.
  destruct (weather_for_regions ascii_digits_only iso_to_datetime exact_mean
              (hualien_cache hualien_forecast) half_past_nine
              (py_unique
                 (List.map REGION
                    (merged_frame ascii_digits_only
                       (liwu_run (hualien_cache hualien_forecast)) liwu_feed)))
              ∅) as [regional|e] eqn:Hweather;
    [|vm_compute in Hweather; discriminate Hweather].
  destruct (aggregate
              (enrich regional
                 (merged_frame ascii_digits_only
                    (liwu_run (hualien_cache hualien_forecast)) liwu_feed)))
    as [aggregated|e] eqn:Hagg.
  - exists regional, aggregated. split; [exact Hagg|].
    exact (aggregated_weather_is_regional ascii_digits_only iso_to_datetime
             exact_mean _ _ _ _ _ Hweather Hagg).
  - vm_compute in Hweather. injection Hweather as <-.
    vm_compute in Hagg. discriminate Hagg.
Defined.

(** Persisting the sample frame into an empty store keeps the (empty)
    history of the table of coal in the north. *)
Lemma persist_keeps_history_witness :
  ∃ aggregated,
    aggregate sample_frame = Ok aggregated ∧
    List.filter (not_at half_past_nine)
      (default []
         (persist half_past_nine aggregated ∅
            !! (u8 "North", u8 "North_燃煤.csv"))) = [].
Proof.
  eexists. split; [vm_compute; reflexivity|].
  refine (proj1 (persist_keeps_history sample_frame _ half_past_nine ∅ _ _
                   (u8 "North", u8 "North_燃煤.csv"))).
  - vm_compute. reflexivity.
  - intros r Hr. unfold sample_frame in Hr.
    rewrite !elem_of_cons, elem_of_nil in Hr.
    destruct Hr as [->|[->|[->|[]]]]; reflexivity.
Defined.

(** The two hydro groups share the table North_水力.csv, which holds one of
    their rows only. *)
Lemma groups_sharing_a_table_witness :
  aggregate remark_frame = Ok [hydro_row; pumped_row] ∧
  path_of hydro_row = path_of pumped_row ∧
  ∃ table,
    persist half_past_nine [hydro_row; pumped_row] ∅ !! path_of hydro_row =
      Some table ∧
    ¬ (hydro_row ∈ table ∧ pumped_row ∈ table).
Proof.
  assert (Hagg : aggregate remark_frame = Ok [hydro_row; pumped_row])
    by (vm_compute; reflexivity).
  assert (Hpath : path_of hydro_row = path_of pumped_row)
    by (vm_compute; reflexivity).
  split; [exact Hagg|]. split; [exact Hpath|].
  apply (proj2 (groups_sharing_a_table remark_frame [hydro_row; pumped_row]
                  half_past_nine ∅ Hagg
                  ltac:(intros r Hr; unfold remark_frame in Hr;
                        rewrite !elem_of_cons, elem_of_nil in Hr;
                        destruct Hr as [->|[->|[]]]; reflexivity))).
  - by left.
  - right. by left.
  - intros Hsame. apply (f_equal agg_FUEL_TYPE) in Hsame.
    vm_compute in Hsame. discriminate Hsame.
  - exact Hpath.
Defined.


(** The same two runs: the unit details are appended twice. *)
Lemma rerun_appends_again_witness :
  let first :=
    (run_pipeline ascii_digits_only iso_to_datetime exact_mean
       (liwu_run (hualien_cache hualien_forecast)) empty_world).1 in
  ∃ w2 demand_rows detail_rows unknown_entry,
    run_pipeline ascii_digits_only iso_to_datetime exact_mean
      (liwu_run (hualien_cache hualien_forecast)) first = (w2, Ok Successful) ∧
    detail_rows ≠ [] ∧
    demand_data first = demand_data empty_world ++ demand_rows ∧
    demand_data w2 = demand_data first ++ demand_rows ∧
    unit_details_log first = unit_details_log empty_world ++ detail_rows ∧
    unit_details_log w2 = unit_details_log first ++ detail_rows ∧
    unknown_plants_log first = unknown_plants_log empty_world ++ [unknown_entry] ∧
    unknown_plants_log w2 = unknown_plants_log first ++ [unknown_entry].
Proof.
  apply (rerun_appends_again ascii_digits_only iso_to_datetime exact_mean
           (liwu_run (hualien_cache hualien_forecast)) empty_world).
  vm_compute. reflexivity.
Defined.

(** With an empty forecast cache the run on the feed of 立霧 is ended by
    [KeyError] and stores nothing. *)
Lemma run_without_forecasts_fails_witness :
  run_pipeline ascii_digits_only iso_to_datetime exact_mean
    (liwu_run empty_cache) empty_world =
    (files_after ascii_digits_only (liwu_run empty_cache) empty_world
       liwu_feed [] None,
     Raise KeyError) ∧
  final_data
    (files_after ascii_digits_only (liwu_run empty_cache) empty_world
       liwu_feed [] None) = final_data empty_world.
Proof.
  apply (run_without_forecasts_fails ascii_digits_only iso_to_datetime exact_mean
           (liwu_run empty_cache) empty_world liwu_feed []).
  - reflexivity.
  - reflexivity.
  - vm_compute. discriminate.
  - intros row _ (config & Hconfig & Hfiles).
    destruct (forecast_files_nonempty _ _ Hconfig) as [f_name Hf].
    destruct (Hfiles f_name Hf) as [doc Hdoc]. discriminate Hdoc.
Defined.

(** The temperature of the east now is the mean over its one town. *)
Lemma features_are_town_means_witness :
  ∃ features,
    get_regional_weather_features ascii_digits_only iso_to_datetime exact_mean
      (hualien_cache hualien_forecast) (u8 "East") half_past_nine = Ok features ∧
    features !! (u8 "TEMP" ++ u8 "_now") =
      Some (mean_or_nan exact_mean
              (town_values ascii_digits_only iso_to_datetime
                 {[u8 "花蓮縣" := hualien_forecast]} (avg_towns east_config)
                 temperature_element (half_past_nine + 3600 * 0))).
Proof.
  destruct (get_regional_weather_features ascii_digits_only iso_to_datetime
              exact_mean (hualien_cache hualien_forecast) (u8 "East")
              half_past_nine) as [features|e] eqn:Hfeatures.
  - exists features. split; [reflexivity|].
    refine (proj1 (features_are_town_means ascii_digits_only iso_to_datetime
                     exact_mean (hualien_cache hualien_forecast) (u8 "East")
                     east_config {[u8 "花蓮縣" := hualien_forecast]}
                     half_past_nine features eq_refl eq_refl Hfeatures
                     (u8 "_now") 0 _)).
    by left.
  - vm_compute in Hfeatures. discriminate Hfeatures.
Defined.

(** The window without an end is passed over, and the window of the morning
    gives the value at 09:30. *)
Lemma lookup_scans_to_first_decisive_window_witness :
  get_forecast_value ascii_digits_only iso_to_datetime gap_forecast
    (u8 "林口區") (u8 "平均溫度") half_past_nine =
  value_of_block ascii_digits_only (u8 "平均溫度")
    (morning_window (jobj [("Temperature", jstr "27.5")]%string)).
Proof.
  refine (proj1 (proj1 (lookup_scans_to_first_decisive_window ascii_digits_only
                          iso_to_datetime gap_forecast (u8 "林口區")
                          (u8 "平均溫度") half_past_nine _ eq_refl)
                   [open_window (jobj [("Temperature", jstr "20")]%string)]
                   (morning_window (jobj [("Temperature", jstr "27.5")]%string))
                   [] eq_refl _) _).
  - repeat constructor.
  - vm_compute. reflexivity.
Defined.

(** The lookup in the document whose value is beyond the range of a float,
    the features of the east when its weather code reads NaN, and the
    aggregation of the sample frame. *)
Lemma exceptions_of_the_enrichment_witness :
  raises_only [OverflowError]
    (get_forecast_value ascii_digits_only iso_to_datetime huge_forecast
       (u8 "林口區") (u8 "平均溫度") half_past_nine) ∧
  raises_only [OverflowError; ValueError]
    (get_regional_weather_features ascii_digits_only iso_to_datetime exact_mean
       (hualien_cache hualien_nan_code) (u8 "East") half_past_nine) ∧
  raises_only [KeyError] (aggregate sample_frame).
Proof.
  exact (exceptions_of_the_enrichment ascii_digits_only iso_to_datetime
           exact_mean huge_forecast (u8 "林口區") (u8 "平均溫度")
           half_past_nine (hualien_cache hualien_nan_code) (u8 "East")
           half_past_nine sample_frame iso_to_datetime_guarded).
Defined.

(** The run on the feed of 立霧: its one row is aggregated. *)
Lemma regions_without_profile_witness :
  ∃ regional aggregated,
    aggregate
      (enrich regional
         (merged_frame ascii_digits_only
            (liwu_run (hualien_cache hualien_forecast)) liwu_feed)) =
      Ok aggregated ∧
    get_regional_weather_features ascii_digits_only iso_to_datetime exact_mean
      (hualien_cache hualien_forecast) (u8 "Other") half_past_nine = Ok ∅.
Proof.
  destruct (weather_for_regions ascii_digits_only iso_to_datetime exact_mean
              (hualien_cache hualien_forecast) half_past_nine
              (py_unique
                 (List.map REGION
                    (merged_frame ascii_digits_only
                       (liwu_run (hualien_cache hualien_forecast)) liwu_feed)))
              ∅) as [regional|e] eqn:Hweather;
    [|vm_compute in Hweather; discriminate Hweather].
  destruct (aggregate
              (enrich regional
                 (merged_frame ascii_digits_only
                    (liwu_run (hualien_cache hualien_forecast)) liwu_feed)))
    as [aggregated|e] eqn:Hagg.
  - exists regional, aggregated. split; [exact Hagg|].
    apply (proj1 (regions_without_profile ascii_digits_only iso_to_datetime
                    exact_mean _ _ _ _ _ Hweather Hagg)).
    apply (bool_decide_unpack _). vm_compute. exact I.
  - vm_compute in Hweather. injection Hweather as <-.
    vm_compute in Hagg. discriminate Hagg.
Defined.

(** The row the run on the feed of 立霧 stores is in the table of the hydro
    power of the east. *)
Lemma tables_hold_their_own_rows_witness :
  let result :=
    run_pipeline ascii_digits_only iso_to_datetime exact_mean
      (liwu_run (hualien_cache hualien_forecast)) empty_world in
  ∃ table row,
    final_data result.1 !! (u8 "East", u8 "East_水力.csv") = Some table ∧
    row ∈ table ∧
    (row ∈ default [] (final_data empty_world !! (u8 "East", u8 "East_水力.csv")) ∨
     (path_of row = (u8 "East", u8 "East_水力.csv") ∧
      agg_DATETIME row =
        effective_time_of (run_time (liwu_run (hualien_cache hualien_forecast))) ∧
      agg_DATETIME row mod 600 = 0)).
Proof.
  intros result.
  destruct (final_data result.1 !! (u8 "East", u8 "East_水力.csv"))
    as [[|row table]|] eqn:Htable;
    [vm_compute in Htable; discriminate Htable| |
     vm_compute in Htable; discriminate Htable].
  exists (row :: table), row. split; [reflexivity|]. split; [by left|].
  apply (tables_hold_their_own_rows ascii_digits_only iso_to_datetime exact_mean
           (liwu_run (hualien_cache hualien_forecast)) empty_world result.1)
    with (table := row :: table).
  - vm_compute. reflexivity.
  - exact Htable.
  - by left.
Defined.
